(** * NRPC: the presence reconciliation core

    A shallow embedding of the Netflix service ([Services/netflix.js]) and of
    the Discord RPC client ([RPC/client.js]) and the properties their
    specification states about them; then of the handlers of the HTTP
    server ([Services/server.js]) and of the logger ([Utils/logger.js]),
    with further properties of the code.

    Modelling conventions.
    - A JavaScript number is an IEEE 754 binary64 value ([float]), with its
      rounding, its infinities and NaN.  The readings of [Date.now()], the
      counters and the delays of the timers are integers below [2^53], on
      which the arithmetic of the code is exact: they are in [Z], and
      [of_Z] gives the number where one meets a position or a duration.
      The hit ratio of [status] is the exact quotient.
    - Strings are [string]; one character stands for one code unit below
      256, and the white space recognised by [\s] and [trim] is the white
      space among these.
    - The module-level [state] and [cache] objects of both modules, the
      pending timers and the calls received by the Discord client form one
      [World]; every function is a computation in a state-and-exception
      monad over it.  An [await] is sequenced in place.
    - [Date.now()], [Math.random()] and the outcome of every call into the
      [discord-rpc] library are read from oracles of the [World], one entry
      per call, so every theorem holds for every clock and every behaviour
      of the library. *)

From Stdlib Require Import ZArith QArith Floats Lia Bool List String Ascii.
Import ListNotations.
Local Open Scope string_scope.
Local Open Scope Z_scope.

Set Implicit Arguments.

(** ** Numbers *)

(** The number an integer denotes, rounded to nearest. *)
Definition of_Z (z : Z) : float :=
  SF2Prim (binary_normalize prec emax z 0 false).

(** [Math.floor]: a finite number is [m * 2^e], with its sign apart; below
    [e = 0] the bits of [m] under the point are dropped, and a negative
    number that had some goes one further down. *)
Definition Math_floor (x : float) : float :=
  match Prim2SF x with
  | S754_finite s m e =>
      if 0 <=? e then x
      else
        let q := Z.shiftr (Zpos m) (- e) in
        let whole := Zpos m =? Z.shiftl q (- e) in
        if s then (- of_uint63 (Uint63.of_Z (if whole then q else q + 1)))%float
        else of_uint63 (Uint63.of_Z q)
  | _ => x
  end.

Definition is_neg_zero (x : float) : bool := (is_zero x && get_sign x)%bool.

(** [Math.max] and [Math.min] of two numbers: NaN if one of them is, and
    [-0] below [+0]. *)
Definition Math_max (a b : float) : float :=
  if (is_nan a || is_nan b)%bool then nan
  else if (a <? b)%float then b
  else if (b <? a)%float then a
  else if is_neg_zero a then b else a.

Definition Math_min (a b : float) : float :=
  if (is_nan a || is_nan b)%bool then nan
  else if (a <? b)%float then a
  else if (b <? a)%float then b
  else if is_neg_zero b then b else a.

Definition Math_abs (x : float) : float := abs x.

(** [Number.isFinite] of a number. *)
Definition Number_isFinite (x : float) : bool := is_finite x.

(** ** JavaScript values *)

#[warnings="-register-all"] Inductive jsval : Type :=
| JUndefined
| JNull
| JBool (b : bool)
| JNum (x : float)
| JStr (s : string)
| JObj (fields : list (string * jsval)).

Fixpoint assoc (k : string) (fs : list (string * jsval)) : jsval :=
  match fs with
  | [] => JUndefined
  | (k', v) :: fs' => if String.eqb k k' then v else assoc k fs'
  end.

(** [data.k]; only evaluated on objects by the code below. *)
Definition field (k : string) (v : jsval) : jsval :=
  match v with
  | JObj fs => assoc k fs
  | _ => JUndefined
  end.

(** ToBoolean. *)
Definition truthy (v : jsval) : bool :=
  match v with
  | JUndefined | JNull => false
  | JBool b => b
  | JNum x => negb (is_zero x || is_nan x)
  | JStr s => negb (String.eqb s "")
  | JObj _ => true
  end.

(** ** Strings *)

(** The white space of [\s] and of [trim] below 256: tab to carriage
    return, the space and the no-break space. *)
Definition is_space (c : ascii) : bool :=
  let n := nat_of_ascii c in
  (Nat.eqb n 32 || (Nat.leb 9 n && Nat.leb n 13) || Nat.eqb n 160)%bool.

Definition is_digit (c : ascii) : bool :=
  let n := nat_of_ascii c in (Nat.leb 48 n && Nat.leb n 57)%bool.

Definition is_newline (c : ascii) : bool :=
  let n := nat_of_ascii c in (Nat.eqb n 10 || Nat.eqb n 13)%bool.

Fixpoint drop_spaces (s : list ascii) : list ascii :=
  match s with
  | c :: s' => if is_space c then drop_spaces s' else s
  | [] => []
  end.

(** [String.prototype.trim]. *)
Definition trim (s : list ascii) : string :=
  string_of_list_ascii (rev (drop_spaces (rev (drop_spaces s)))).

(** [s.slice(0, n)] for [0 <= n]. *)
Definition slice0 (n : nat) (s : string) : string := substring 0 n s.

(** The letter i with an acute accent, U+00ED. *)
Definition i_acute : ascii := ascii_of_nat 237.

(** ** Regular expressions of [parse_title]

    The three patterns are sequences of quantified one-character classes,
    some of them captured; that is the fragment embedded here, with the
    backtracking order of the JavaScript matcher: a greedy quantifier tries
    one more character first, a lazy one tries to stop first. *)

Module Regex.

Inductive cls : Type :=
| Dot                     (* [.]  : anything but a line terminator *)
| Space                   (* [\s] *)
| Digit                   (* [\d] *)
| Chr (c : ascii)         (* a literal without case *)
| ChrI (lo up : ascii).   (* a letter under the [i] flag *)

Definition cls_match (k : cls) (c : ascii) : bool :=
  match k with
  | Dot => negb (is_newline c)
  | Space => is_space c
  | Digit => is_digit c
  | Chr a => Ascii.eqb a c
  | ChrI lo up => (Ascii.eqb lo c || Ascii.eqb up c)%bool
  end.

Record item : Type := Item {
  i_cls : cls;
  i_min : nat;
  i_max : option nat;
  i_greedy : bool;
  i_capture : bool
}.

Definition below (mx : option nat) (n : nat) : bool :=
  match mx with
  | None => true
  | Some m => Nat.ltb n m
  end.

Definition orelse {A} (a b : option A) : option A :=
  match a with
  | Some _ => a
  | None => b
  end.

(** [match_here its s]: the captures of the first successful way to match
    [its] against a prefix of [s]. *)
Fixpoint match_here (its : list item) (s : list ascii) {struct its}
  : option (list (list ascii)) :=
  match its with
  | [] => Some []
  | it :: rest =>
      (fix loop (s : list ascii) (taken : list ascii) (n : nat) {struct s}
         : option (list (list ascii)) :=
         let stop :=
           if Nat.leb (i_min it) n then
             match match_here rest s with
             | Some caps =>
                 Some (if i_capture it then rev taken :: caps else caps)
             | None => None
             end
           else None in
         let more :=
           match s with
           | c :: s' =>
               if (cls_match (i_cls it) c && below (i_max it) n)%bool
               then loop s' (c :: taken) (S n)
               else None
           | [] => None
           end in
         if i_greedy it then orelse more stop else orelse stop more) s [] 0%nat
  end.

(** [String.prototype.match] without the [g] flag: the leftmost match. *)
Fixpoint search (its : list item) (s : list ascii) : option (list (list ascii)) :=
  match match_here its s with
  | Some caps => Some caps
  | None =>
      match s with
      | [] => None
      | _ :: s' => search its s'
      end
  end.

Definition one (k : cls) : item := Item k 1 (Some 1%nat) true false.
Definition opt (k : cls) : item := Item k 0 (Some 1%nat) true false.
Definition star (k : cls) : item := Item k 0 None true false.
Definition plus (k : cls) : item := Item k 1 None true false.
Definition cap_plus (k : cls) : item := Item k 1 None true true.
Definition cap_plus_lazy (k : cls) : item := Item k 1 None false true.

End Regex.

Import Regex.

(** [/(.+?):\s*D(\d+)\s+(.+)/i] *)
Definition re_episode : list item :=
  [cap_plus_lazy Dot; one (Chr ":"); star Space; one (ChrI "d" "D");
   cap_plus Digit; plus Space; cap_plus Dot].

(** [/(.+?):\s*S(\d+)\s*E(\d+)\s*-?\s*(.+)/i] *)
Definition re_season : list item :=
  [cap_plus_lazy Dot; one (Chr ":"); star Space; one (ChrI "s" "S");
   cap_plus Digit; star Space; one (ChrI "e" "E"); cap_plus Digit;
   star Space; opt (Chr "-"); star Space; cap_plus Dot].

(** [/(.+?):\s*S(\d+)\s*E(\d+)/i] *)
Definition re_season_only : list item :=
  [cap_plus_lazy Dot; one (Chr ":"); star Space; one (ChrI "s" "S");
   cap_plus Digit; star Space; one (ChrI "e" "E"); cap_plus Digit].

Inductive title_format : Type := FDisk | FSeason.

Record Parsed : Type := {
  p_series : string;
  p_season : option string;
  p_episode : string;
  p_name : option string;
  p_format : title_format
}.

Definition str (l : list ascii) : string := string_of_list_ascii l.

Definition parse_title (title : string) : option Parsed :=
  let t := list_ascii_of_string title in
  match search re_episode t with
  | Some [series; episode; name] =>
      Some {| p_series := trim series; p_season := None;
              p_episode := str episode; p_name := Some (trim name);
              p_format := FDisk |}
  | _ =>
      match search re_season t with
      | Some [series; season; episode; name] =>
          Some {| p_series := trim series; p_season := Some (str season);
                  p_episode := str episode; p_name := Some (trim name);
                  p_format := FSeason |}
      | _ =>
          match search re_season_only t with
          | Some [series; season; episode] =>
              Some {| p_series := trim series; p_season := Some (str season);
                      p_episode := str episode; p_name := None;
                      p_format := FSeason |}
          | _ => None
          end
      end
  end.

Definition nonempty (o : option string) : option string :=
  match o with
  | Some s => if String.eqb s "" then None else Some s
  | None => None
  end.

Definition or_empty (o : option string) : string :=
  match o with Some s => s | None => "" end.

(** ** Data model *)

(** The payload handed to the Discord client. *)
Record Activity : Type := {
  details : string;
  a_state : option string;
  largeImageKey : string;
  largeImageText : string;
  a_type : Z;
  instance : bool;
  startTimestamp : option float;
  endTimestamp : option float
}.

(** The [data] argument of the RPC client's functions. *)
Record ActData : Type := {
  d_title : string;
  d_current : float;
  d_duration : float;
  d_playing : bool
}.

(** [state.activity] of the RPC client. *)
Record Act : Type := {
  act_title : string;
  act_current : float;
  act_duration : float;
  act_playing : bool;
  act_lastUpdate : Z
}.

(** [state] of the RPC client. *)
Record RpcState : Type := {
  client : option nat;
  connected : bool;
  ready : bool;
  activity : option Act;
  r_timestamp : option Z;
  attempts : Z;
  r_id : option string;
  ticker : option nat
}.

(** A normalized sample. *)
Record Sample : Type := {
  title : string;
  current : float;
  duration : float;
  playing : bool;
  timestamp : jsval;
  percent : float;
  remaining : float;
  elapsed : float
}.

Record Session : Type := {
  s_id : Z * N;
  s_title : string;
  started : Z;
  updated : Z;
  s_duration : float;
  watched : float;
  pauses : Z;
  seeks : Z
}.

(** [state] of the Netflix service. *)
Record SvcState : Type := {
  st_current : option Sample;
  st_previous : option Sample;
  lastUpdate : Z;
  st_session : option Session;
  paused : bool;
  st_timeout : option nat
}.

Record Cache : Type := {
  c_data : option Sample;
  c_timestamp : Z;
  hits : Z;
  misses : Z
}.

(** Timers: what [setTimeout] and [setInterval] were given. *)
Inductive Callback : Type := CbWatchdog | CbReconnect | CbTicker.

Record Timer : Type := {
  tid : nat;
  delay : Z;
  callback : Callback;
  repeating : bool
}.

(** Calls into the [discord-rpc] library, latest first. *)
Inductive LibCall : Type :=
| Login (c : nat) (id : option string)
| SetActivity (c : nat) (a : Activity)
| ClearActivity (c : nat)
| Destroy (c : nat).

Inductive Level : Type := LInfo | LWarn | LError.

(** The oracles: the clock, the random source, and the outcome of each call
    into the library that can fail ([None]: it resolves; [Some msg]: it
    rejects with that message). *)
Record Env : Type := {
  clock : nat -> Z;
  random : nat -> N;
  lib : nat -> option string
}.

Record Counters : Type := {
  ticks : nat;
  draws : nat;
  libs : nat;
  next_timer : nat;
  next_client : nat
}.

Record World : Type := {
  env : Env;
  ctr : Counters;
  svc : SvcState;
  cache : Cache;
  rpc : RpcState;
  timers : list Timer;
  calls : list LibCall;
  logs : list (Level * string)
}.

(** ** The monad: state and exceptions *)

Inductive Res (A : Type) : Type :=
| Ok (a : A)
| Throw (msg : string).
Arguments Throw {A} msg.

Definition M (A : Type) : Type := World -> Res A * World.

Definition ret {A} (a : A) : M A := fun w => (Ok a, w).

Definition bind {A B} (m : M A) (k : A -> M B) : M B :=
  fun w =>
    match m w with
    | (Ok a, w') => k a w'
    | (Throw msg, w') => (Throw msg, w')
    end.

Definition throw {A} (msg : string) : M A := fun w => (Throw msg, w).

(** [try { m } catch (error) { h error.message }] *)
Definition try_catch {A} (m : M A) (h : string -> M A) : M A :=
  fun w =>
    match m w with
    | (Ok a, w') => (Ok a, w')
    | (Throw msg, w') => h msg w'
    end.

Declare Scope monad_scope.
Delimit Scope monad_scope with monad.
Notation "x <- m ;; k" := (bind m (fun x => k))
  (at level 61, m at next level, right associativity) : monad_scope.
Notation "m ;; k" := (bind m (fun _ => k))
  (at level 61, right associativity) : monad_scope.
Local Open Scope monad_scope.

Definition get {A} (f : World -> A) : M A := fun w => (Ok (f w), w).
Definition when (b : bool) (m : M unit) : M unit := if b then m else ret tt.
Definition is_some {A} (o : option A) : bool :=
  match o with Some _ => true | None => false end.

(** *** World updates *)

Definition set_ctr (c : Counters) (w : World) : World :=
  {| env := env w; ctr := c; svc := svc w; cache := cache w; rpc := rpc w;
     timers := timers w; calls := calls w; logs := logs w |}.
Definition set_svc (s : SvcState) (w : World) : World :=
  {| env := env w; ctr := ctr w; svc := s; cache := cache w; rpc := rpc w;
     timers := timers w; calls := calls w; logs := logs w |}.
Definition set_cache (c : Cache) (w : World) : World :=
  {| env := env w; ctr := ctr w; svc := svc w; cache := c; rpc := rpc w;
     timers := timers w; calls := calls w; logs := logs w |}.
Definition set_rpc (r : RpcState) (w : World) : World :=
  {| env := env w; ctr := ctr w; svc := svc w; cache := cache w; rpc := r;
     timers := timers w; calls := calls w; logs := logs w |}.
Definition set_timers (t : list Timer) (w : World) : World :=
  {| env := env w; ctr := ctr w; svc := svc w; cache := cache w; rpc := rpc w;
     timers := t; calls := calls w; logs := logs w |}.
Definition set_calls (c : list LibCall) (w : World) : World :=
  {| env := env w; ctr := ctr w; svc := svc w; cache := cache w; rpc := rpc w;
     timers := timers w; calls := c; logs := logs w |}.
Definition set_logs (l : list (Level * string)) (w : World) : World :=
  {| env := env w; ctr := ctr w; svc := svc w; cache := cache w; rpc := rpc w;
     timers := timers w; calls := calls w; logs := l |}.

Definition modify (f : World -> World) : M unit := fun w => (Ok tt, f w).
Definition upd_svc (f : SvcState -> SvcState) : M unit :=
  modify (fun w => set_svc (f (svc w)) w).
Definition upd_cache (f : Cache -> Cache) : M unit :=
  modify (fun w => set_cache (f (cache w)) w).
Definition upd_rpc (f : RpcState -> RpcState) : M unit :=
  modify (fun w => set_rpc (f (rpc w)) w).

(** *** The environment *)

(** [Date.now()] *)
Definition Date_now : M Z := fun w =>
  let c := ctr w in
  (Ok (clock (env w) (ticks c)),
   set_ctr {| ticks := S (ticks c); draws := draws c; libs := libs c;
              next_timer := next_timer c; next_client := next_client c |} w).

(** [Math.random().toString(36).substr(2, 9)], as the number drawn. *)
Definition Math_random : M N := fun w =>
  let c := ctr w in
  (Ok (random (env w) (draws c)),
   set_ctr {| ticks := ticks c; draws := S (draws c); libs := libs c;
              next_timer := next_timer c; next_client := next_client c |} w).

(** A call into the library that may reject. *)
Definition lib_call (call : LibCall) : M unit := fun w =>
  let c := ctr w in
  let w' :=
    set_calls (call :: calls w)
      (set_ctr {| ticks := ticks c; draws := draws c; libs := S (libs c);
                  next_timer := next_timer c; next_client := next_client c |} w) in
  match lib (env w) (libs c) with
  | None => (Ok tt, w')
  | Some msg => (Throw msg, w')
  end.

(** [new RPC.Client(...)] *)
Definition new_client : M nat := fun w =>
  let c := ctr w in
  (Ok (next_client c),
   set_ctr {| ticks := ticks c; draws := draws c; libs := libs c;
              next_timer := next_timer c; next_client := S (next_client c) |} w).

(** [setTimeout] and [setInterval] *)
Definition set_timer (cb : Callback) (ms : Z) (rep : bool) : M nat := fun w =>
  let c := ctr w in
  let t := {| tid := next_timer c; delay := ms; callback := cb; repeating := rep |} in
  (Ok (next_timer c),
   set_timers (t :: timers w)
     (set_ctr {| ticks := ticks c; draws := draws c; libs := libs c;
                 next_timer := S (next_timer c); next_client := next_client c |} w)).
Definition setTimeout (cb : Callback) (ms : Z) : M nat := set_timer cb ms false.
Definition setInterval (cb : Callback) (ms : Z) : M nat := set_timer cb ms true.

(** [clearTimeout] and [clearInterval] *)
Definition clearTimeout (id : nat) : M unit :=
  modify (fun w => set_timers (filter (fun t => negb (Nat.eqb (tid t) id)) (timers w)) w).
Definition clearInterval := clearTimeout.

Definition log (l : Level) (msg : string) : M unit :=
  modify (fun w => set_logs ((l, msg) :: logs w) w).

(** ** The Discord RPC client ([RPC/client.js]) *)

Module Rpc.

(** [config] *)
Definition retry : Z := 5000.
Definition reconnect_max : Z := 3.

Definition init : RpcState :=
  {| client := None; connected := false; ready := false; activity := None;
     r_timestamp := None; attempts := 0; r_id := None; ticker := None |}.

Definition set_client (c : option nat) (r : RpcState) : RpcState :=
  {| client := c; connected := connected r; ready := ready r;
     activity := activity r; r_timestamp := r_timestamp r;
     attempts := attempts r; r_id := r_id r; ticker := ticker r |}.
Definition set_link (c rd : bool) (r : RpcState) : RpcState :=
  {| client := client r; connected := c; ready := rd;
     activity := activity r; r_timestamp := r_timestamp r;
     attempts := attempts r; r_id := r_id r; ticker := ticker r |}.
Definition set_activity_field (a : option Act) (r : RpcState) : RpcState :=
  {| client := client r; connected := connected r; ready := ready r;
     activity := a; r_timestamp := r_timestamp r;
     attempts := attempts r; r_id := r_id r; ticker := ticker r |}.
Definition set_timestamp (t : option Z) (r : RpcState) : RpcState :=
  {| client := client r; connected := connected r; ready := ready r;
     activity := activity r; r_timestamp := t;
     attempts := attempts r; r_id := r_id r; ticker := ticker r |}.
Definition set_attempts (n : Z) (r : RpcState) : RpcState :=
  {| client := client r; connected := connected r; ready := ready r;
     activity := activity r; r_timestamp := r_timestamp r;
     attempts := n; r_id := r_id r; ticker := ticker r |}.
Definition set_id (i : option string) (r : RpcState) : RpcState :=
  {| client := client r; connected := connected r; ready := ready r;
     activity := activity r; r_timestamp := r_timestamp r;
     attempts := attempts r; r_id := i; ticker := ticker r |}.
Definition set_ticker (t : option nat) (r : RpcState) : RpcState :=
  {| client := client r; connected := connected r; ready := ready r;
     activity := activity r; r_timestamp := r_timestamp r;
     attempts := attempts r; r_id := r_id r; ticker := t |}.

(** The [if (state._ticker) { clearInterval(...); state._ticker = null; }]
    block shared by [destroy], [set_activity] and [clear_activity]. *)
Definition stop_ticker : M unit :=
  t <- get (fun w => ticker (rpc w)) ;;
  match t with
  | Some id => clearInterval id ;; upd_rpc (set_ticker None)
  | None => ret tt
  end.

Definition disconnect : M unit :=
  c <- get (fun w => client (rpc w)) ;;
  match c with
  | None => ret tt
  | Some c =>
      (* [state.client.destroy()]; what it throws is swallowed *)
      modify (fun w => set_calls (Destroy c :: calls w) w) ;;
      upd_rpc (set_link false false)
  end.

Definition destroy : M unit :=
  disconnect ;;
  stop_ticker ;;
  upd_rpc (set_client None) ;;
  upd_rpc (set_activity_field None) ;;
  upd_rpc (set_timestamp None) ;;
  upd_rpc (set_attempts 0) ;;
  upd_rpc (set_id None).

Definition create (id : option string) : M nat :=
  old <- get (fun w => client (rpc w)) ;;
  when (is_some old) destroy ;;
  c <- new_client ;;
  upd_rpc (set_client (Some c)) ;;
  upd_rpc (set_id id) ;;
  ret c.

Definition validate_data (data : ActData) : bool :=
  if String.eqb (d_title data) "" then false
  else if (d_current data <? 0)%float then false
  else if (d_duration data <=? 0)%float then false
  else true.

(** [format_activity(data)] reads [data.title] only. *)
Definition format_activity (title : string) : Activity :=
  match parse_title title with
  | None =>
      {| details := title; a_state := None;
         largeImageKey := "netflix_logo"; largeImageText := "Netflix";
         a_type := 3; instance := false;
         startTimestamp := None; endTimestamp := None |}
  | Some parsed =>
      let stateText :=
        match p_format parsed with
        | FSeason =>
            match nonempty (p_name parsed) with
            | Some name =>
                "S" ++ or_empty (p_season parsed) ++ "E" ++ p_episode parsed
                    ++ " - " ++ name
            | None =>
                "S" ++ or_empty (p_season parsed) ++ "E" ++ p_episode parsed
            end
        | FDisk =>
            "D" ++ String i_acute "l " ++ p_episode parsed ++ " - "
                ++ or_empty (p_name parsed)
        end in
      {| details := p_series parsed; a_state := Some stateText;
         largeImageKey := "netflix_logo"; largeImageText := "Netflix";
         a_type := 3; instance := false;
         startTimestamp := None; endTimestamp := None |}
  end.

Definition with_timestamps (s e : float) (a : Activity) : Activity :=
  {| details := details a; a_state := a_state a;
     largeImageKey := largeImageKey a; largeImageText := largeImageText a;
     a_type := a_type a; instance := instance a;
     startTimestamp := Some s; endTimestamp := Some e |}.

Definition set_activity (data : ActData) : M bool :=
  if negb (validate_data data) then ret false
  else
    c <- get (fun w => client (rpc w)) ;;
    rd <- get (fun w => ready (rpc w)) ;;
    match c, rd with
    | Some c, true =>
        try_catch
          (let activity0 := format_activity (d_title data) in
           now <- Date_now ;;
           let nowSec := Math_floor (of_Z now / 1000) in
           let currentSec :=
             if Number_isFinite (d_current data)
             then Math_floor (d_current data) else 0%float in
           let durationSec :=
             if Number_isFinite (d_duration data)
             then Math_floor (d_duration data) else 0%float in
           let start := (nowSec - currentSec)%float in
           let end_ := (start + durationSec)%float in
           let activity1 :=
             if ((0 <? durationSec)%float && d_playing data)%bool
             then with_timestamps start end_ activity0
             else activity0 in
           lib_call (SetActivity c activity1) ;;
           t1 <- Date_now ;;
           upd_rpc (set_activity_field
                      (Some {| act_title := d_title data;
                               act_current := currentSec;
                               act_duration := durationSec;
                               act_playing := d_playing data;
                               act_lastUpdate := t1 |})) ;;
           t2 <- Date_now ;;
           upd_rpc (set_timestamp (Some t2)) ;;
           stop_ticker ;;
           (if ((0 <? durationSec)%float && d_playing data)%bool
            then id <- setInterval CbTicker 15000 ;;
                 upd_rpc (set_ticker (Some id))
            else ret tt) ;;
           ret true)
          (fun _ => ret false)
    | _, _ =>
        (* cache the activity until the client is ready *)
        t1 <- Date_now ;;
        upd_rpc (set_activity_field
                   (Some {| act_title := d_title data;
                            act_current := d_current data;
                            act_duration := d_duration data;
                            act_playing := d_playing data;
                            act_lastUpdate := t1 |})) ;;
        t2 <- Date_now ;;
        upd_rpc (set_timestamp (Some t2)) ;;
        ret false
    end.

Definition data_of_act (a : Act) : ActData :=
  {| d_title := act_title a; d_current := act_current a;
     d_duration := act_duration a; d_playing := act_playing a |}.

(** The callback given to [setInterval] by [set_activity]. *)
Definition tick : M unit :=
  c <- get (fun w => client (rpc w)) ;;
  rd <- get (fun w => ready (rpc w)) ;;
  a <- get (fun w => activity (rpc w)) ;;
  match c, rd, a with
  | Some c, true, Some a =>
      now <- Date_now ;;
      let last := if Z.eqb (act_lastUpdate a) 0 then now else act_lastUpdate a in
      let elapsedSinceLast := (of_Z (now - last) / 1000)%float in
      let current' :=
        if act_playing a
        then Math_min (act_duration a) (act_current a + elapsedSinceLast)%float
        else act_current a in
      when (act_playing a)
        (upd_rpc (set_activity_field
                    (Some {| act_title := act_title a; act_current := current';
                             act_duration := act_duration a;
                             act_playing := act_playing a;
                             act_lastUpdate := now |}))) ;;
      now2 <- Date_now ;;
      let nowSecTick := Math_floor (of_Z now2 / 1000) in
      let startTick := (nowSecTick - Math_floor current')%float in
      let endTick := (startTick + Math_floor (act_duration a))%float in
      try_catch
        (lib_call (SetActivity c
                     (with_timestamps startTick endTick
                        (format_activity (act_title a)))))
        (fun _ => ret tt)
  | _, _, _ => ret tt
  end.

Definition handle_ready : M unit :=
  upd_rpc (set_link true true) ;;
  upd_rpc (set_attempts 0) ;;
  a <- get (fun w => activity (rpc w)) ;;
  match a with
  | Some a => try_catch (set_activity (data_of_act a) ;; ret tt) (fun _ => ret tt)
  | None => ret tt
  end.

Definition handle_disconnect : M unit :=
  upd_rpc (set_link false false) ;;
  n <- get (fun w => attempts (rpc w)) ;;
  when (n <? reconnect_max) (setTimeout CbReconnect retry ;; ret tt).

Definition handle_error : M unit :=
  upd_rpc (set_link false false).

Definition connect (id : option string) : M bool :=
  cn <- get (fun w => connected (rpc w)) ;;
  if cn then ret true
  else
    try_catch
      (c <- create id ;;
       lib_call (Login c id) ;;
       ret true)
      (fun _ =>
         upd_rpc (fun r => set_attempts (attempts r + 1) r) ;;
         n <- get (fun w => attempts (rpc w)) ;;
         when (n <? reconnect_max) (setTimeout CbReconnect retry ;; ret tt) ;;
         ret false).

Definition reconnect : M bool :=
  cn <- get (fun w => connected (rpc w)) ;;
  if cn then ret true
  else id <- get (fun w => r_id (rpc w)) ;; connect id.

Definition clear_activity : M bool :=
  c <- get (fun w => client (rpc w)) ;;
  rd <- get (fun w => ready (rpc w)) ;;
  match c, rd with
  | Some c, true =>
      try_catch
        (lib_call (ClearActivity c) ;;
         stop_ticker ;;
         upd_rpc (set_activity_field None) ;;
         upd_rpc (set_timestamp None) ;;
         ret true)
        (fun _ => ret false)
  | _, _ => ret false
  end.

Definition is_connected : M bool :=
  get (fun w => (connected (rpc w) && ready (rpc w))%bool).

Definition update (data : ActData) : M bool :=
  if negb (validate_data data) then ret false
  else
    ok <- is_connected ;;
    if negb ok then ret false
    else set_activity data.

Definition pause : M bool :=
  a <- get (fun w => activity (rpc w)) ;;
  match a with
  | None => ret false
  | Some a =>
      set_activity {| d_title := act_title a; d_current := act_current a;
                      d_duration := act_duration a; d_playing := false |}
  end.

Definition resume : M bool :=
  a <- get (fun w => activity (rpc w)) ;;
  match a with
  | None => ret false
  | Some a =>
      set_activity {| d_title := act_title a; d_current := act_current a;
                      d_duration := act_duration a; d_playing := true |}
  end.

Definition reset : M bool :=
  clear_activity ;;
  upd_rpc (set_activity_field None) ;;
  upd_rpc (set_timestamp None) ;;
  ret true.

Definition clear := clear_activity.

End Rpc.

(** ** The Netflix service ([Services/netflix.js]) *)

(** [{success, cached?, data?, session?, error?}] as returned by [process]. *)
Inductive Result : Type :=
| RError (error : string)                                (* success: false *)
| RCached                                                (* success: true, cached: true *)
| RUpdated (data : Sample) (session : option Session).  (* success: true *)

(** [{success, error?}] as returned by [pause], [resume] and [stop]. *)
Inductive Ack : Type :=
| AOk
| AError (error : string).

Record Status : Type := {
  active : bool;
  status_paused : bool;
  status_current : option Sample;
  status_session : option Session;
  status_lastUpdate : Z;
  status_hits : Z;
  status_misses : Z;
  status_ratio : Q
}.

Module Netflix.

(** [config] *)
Definition threshold : float := 5.
Definition timeout : Z := 60000.
Definition minDuration : float := 10.
Definition maxTitle : nat := 128.

Definition init : SvcState :=
  {| st_current := None; st_previous := None; lastUpdate := 0;
     st_session := None; paused := false; st_timeout := None |}.
Definition init_cache : Cache :=
  {| c_data := None; c_timestamp := 0; hits := 0; misses := 0 |}.

Definition set_current (c : option Sample) (s : SvcState) : SvcState :=
  {| st_current := c; st_previous := st_previous s; lastUpdate := lastUpdate s;
     st_session := st_session s; paused := paused s; st_timeout := st_timeout s |}.
Definition set_previous (p : option Sample) (s : SvcState) : SvcState :=
  {| st_current := st_current s; st_previous := p; lastUpdate := lastUpdate s;
     st_session := st_session s; paused := paused s; st_timeout := st_timeout s |}.
Definition set_lastUpdate (t : Z) (s : SvcState) : SvcState :=
  {| st_current := st_current s; st_previous := st_previous s; lastUpdate := t;
     st_session := st_session s; paused := paused s; st_timeout := st_timeout s |}.
Definition set_session (x : option Session) (s : SvcState) : SvcState :=
  {| st_current := st_current s; st_previous := st_previous s;
     lastUpdate := lastUpdate s;
     st_session := x; paused := paused s; st_timeout := st_timeout s |}.
Definition set_paused (b : bool) (s : SvcState) : SvcState :=
  {| st_current := st_current s; st_previous := st_previous s;
     lastUpdate := lastUpdate s;
     st_session := st_session s; paused := b; st_timeout := st_timeout s |}.
Definition set_timeout (t : option nat) (s : SvcState) : SvcState :=
  {| st_current := st_current s; st_previous := st_previous s;
     lastUpdate := lastUpdate s;
     st_session := st_session s; paused := paused s; st_timeout := t |}.

Definition validate (data : jsval) : bool :=
  match data with
  | JObj _ =>
      match field "title" data with
      | JStr s => if String.eqb s "" then false else
          match field "current" data with
          | JNum c => if (c <? 0)%float then false else
              match field "duration" data with
              | JNum d => if (d <? minDuration)%float then false else
                  match field "playing" data with
                  | JBool _ => true
                  | _ => false
                  end
              | _ => false
              end
          | _ => false
          end
      | _ => false
      end
  | _ => false
  end.

(** [String(v)] and the numeric value of [v], on the values [validate]
    lets through: [process] calls [normalize] after [validate] only. *)
Definition as_string (v : jsval) : string :=
  match v with JStr s => s | _ => "" end.
Definition as_number (v : jsval) : float :=
  match v with JNum x => x | _ => 0%float end.

Record Clean : Type := {
  cl_title : string;
  cl_current : float;
  cl_duration : float;
  cl_playing : bool;
  cl_timestamp : jsval
}.

Definition sanitize (data : jsval) : M Clean :=
  ts <- (if truthy (field "timestamp" data)
         then ret (field "timestamp" data)
         else now <- Date_now ;; ret (JNum (of_Z now))) ;;
  ret {| cl_title := slice0 maxTitle (as_string (field "title" data));
         cl_current := Math_max 0 (Math_floor (as_number (field "current" data)));
         cl_duration := Math_max 0 (Math_floor (as_number (field "duration" data)));
         cl_playing := truthy (field "playing" data);
         cl_timestamp := ts |}.

Definition normalize (data : jsval) : M Sample :=
  clean <- sanitize data ;;
  let percent := (cl_current clean / cl_duration clean * 100)%float in
  let remaining := (cl_duration clean - cl_current clean)%float in
  ret {| title := cl_title clean; current := cl_current clean;
         duration := cl_duration clean; playing := cl_playing clean;
         timestamp := cl_timestamp clean;
         percent := Math_floor percent; remaining := remaining;
         elapsed := cl_current clean |}.

Definition compare (prev next : option Sample) : bool :=
  match prev, next with
  | Some prev, Some next =>
      if negb (String.eqb (title prev) (title next)) then true
      else if negb (Bool.eqb (playing prev) (playing next)) then true
      else
        let diff := Math_abs (current prev - current next) in
        if (threshold <? diff)%float then true else false
  | _, _ => true
  end.

Definition should_update (data : Sample) : M bool :=
  cur <- get (fun w => st_current (svc w)) ;;
  match cur with
  | None => ret true
  | Some _ =>
      let changed := compare cur (Some data) in
      if negb changed then ret false
      else
        now <- Date_now ;;
        last <- get (fun w => lastUpdate (svc w)) ;;
        let elapsed := now - last in
        if elapsed <? 1000 then ret false else ret true
  end.

Definition generate_id : M (Z * N) :=
  now <- Date_now ;;
  r <- Math_random ;;
  ret (now, r).

Definition create_session (data : Sample) : M Session :=
  id <- generate_id ;;
  t1 <- Date_now ;;
  t2 <- Date_now ;;
  let session :=
    {| s_id := id; s_title := title data; started := t1; updated := t2;
       s_duration := duration data; watched := 0; pauses := 0; seeks := 0 |} in
  upd_svc (set_session (Some session)) ;;
  log LInfo "Session created" ;;
  ret session.

Definition end_session : M (option Session) :=
  s <- get (fun w => st_session (svc w)) ;;
  match s with
  | None => ret None
  | Some session =>
      _now <- Date_now ;;
      log LInfo "Session ended" ;;
      upd_svc (set_session None) ;;
      ret (Some session)
  end.

Definition with_updated (t : Z) (s : Session) : Session :=
  {| s_id := s_id s; s_title := s_title s; started := started s; updated := t;
     s_duration := s_duration s; watched := watched s; pauses := pauses s;
     seeks := seeks s |}.
Definition with_seeks (n : Z) (s : Session) : Session :=
  {| s_id := s_id s; s_title := s_title s; started := started s;
     updated := updated s; s_duration := s_duration s; watched := watched s;
     pauses := pauses s; seeks := n |}.
Definition with_pauses (n : Z) (s : Session) : Session :=
  {| s_id := s_id s; s_title := s_title s; started := started s;
     updated := updated s; s_duration := s_duration s; watched := watched s;
     pauses := n; seeks := seeks s |}.
Definition with_watched (q : float) (s : Session) : Session :=
  {| s_id := s_id s; s_title := s_title s; started := started s;
     updated := updated s; s_duration := s_duration s; watched := q;
     pauses := pauses s; seeks := seeks s |}.

Definition update_session (data : Sample) : M Session :=
  s <- get (fun w => st_session (svc w)) ;;
  match s with
  | None => create_session data
  | Some session =>
      if negb (String.eqb (s_title session) (title data)) then
        end_session ;; create_session data
      else
        now <- Date_now ;;
        let session := with_updated now session in
        cur <- get (fun w => st_current (svc w)) ;;
        session <-
          match cur with
          | Some cur =>
              let diff := (current data - current cur)%float in
              let session :=
                if (threshold <? Math_abs diff)%float
                then with_seeks (seeks session + 1) session else session in
              let session :=
                if (playing data && negb (playing cur))%bool
                then with_pauses (pauses session + 1) session else session in
              if playing data then
                now <- Date_now ;;
                last <- get (fun w => lastUpdate (svc w)) ;;
                let elapsed := (of_Z (now - last) / 1000)%float in
                ret (with_watched
                       (watched session + Math_min elapsed threshold)%float
                       session)
              else ret session
          | None => ret session
          end ;;
        upd_svc (set_session (Some session)) ;;
        ret session
  end.

Definition reset_timeout : M unit :=
  t <- get (fun w => st_timeout (svc w)) ;;
  match t with Some id => clearTimeout id | None => ret tt end ;;
  id <- setTimeout CbWatchdog timeout ;;
  upd_svc (set_timeout (Some id)).

Definition handle_timeout : M unit :=
  log LWarn "Session timeout" ;;
  end_session ;;
  try_catch (Rpc.clear ;; ret tt) (fun _ => log LError "Failed to clear RPC") ;;
  upd_svc (set_current None) ;;
  upd_svc (set_previous None) ;;
  upd_svc (set_paused false).

Definition act_data (n : Sample) : ActData :=
  {| d_title := title n; d_current := current n;
     d_duration := duration n; d_playing := playing n |}.

Definition process (data : jsval) : M Result :=
  if negb (validate data) then
    log LWarn "Invalid data received" ;;
    ret (RError "invalid")
  else
    normalized <- normalize data ;;
    go <- should_update normalized ;;
    if negb go then
      upd_cache (fun c => {| c_data := c_data c; c_timestamp := c_timestamp c;
                             hits := hits c + 1; misses := misses c |}) ;;
      ret RCached
    else
      upd_cache (fun c => {| c_data := c_data c; c_timestamp := c_timestamp c;
                             hits := hits c; misses := misses c + 1 |}) ;;
      update_session normalized ;;
      reset_timeout ;;
      cur <- get (fun w => st_current (svc w)) ;;
      upd_svc (set_previous cur) ;;
      upd_svc (set_current (Some normalized)) ;;
      now <- Date_now ;;
      upd_svc (set_lastUpdate now) ;;
      upd_svc (set_paused (negb (playing normalized))) ;;
      try_catch
        (Rpc.update (act_data normalized) ;;
         log LInfo "RPC updated" ;;
         t <- Date_now ;;
         upd_cache (fun c => {| c_data := Some normalized; c_timestamp := t;
                                hits := hits c; misses := misses c |}) ;;
         s <- get (fun w => st_session (svc w)) ;;
         ret (RUpdated normalized s))
        (fun msg =>
           log LError "Failed to update RPC" ;;
           ret (RError msg)).

Definition pause : M Ack :=
  cur <- get (fun w => st_current (svc w)) ;;
  match cur with
  | None => ret (AError "no_active")
  | Some _ =>
      try_catch
        (Rpc.pause ;;
         upd_svc (set_paused true) ;;
         log LInfo "Paused" ;;
         ret AOk)
        (fun msg => log LError "Failed to pause" ;; ret (AError msg))
  end.

Definition resume : M Ack :=
  cur <- get (fun w => st_current (svc w)) ;;
  match cur with
  | None => ret (AError "no_active")
  | Some _ =>
      try_catch
        (Rpc.resume ;;
         upd_svc (set_paused false) ;;
         log LInfo "Resumed" ;;
         ret AOk)
        (fun msg => log LError "Failed to resume" ;; ret (AError msg))
  end.

Definition stop : M Ack :=
  try_catch
    (Rpc.clear ;;
     end_session ;;
     t <- get (fun w => st_timeout (svc w)) ;;
     match t with
     | Some id => clearTimeout id ;; upd_svc (set_timeout None)
     | None => ret tt
     end ;;
     upd_svc (set_current None) ;;
     upd_svc (set_previous None) ;;
     upd_svc (set_paused false) ;;
     log LInfo "Stopped" ;;
     ret AOk)
    (fun msg => log LError "Failed to stop" ;; ret (AError msg)).

(** [hits / (hits + misses) || 0], as the exact quotient: the division
    of [Q] is 0 where the JavaScript one is NaN. *)
Definition status (w : World) : Status :=
  {| active := is_some (st_current (svc w));
     status_paused := paused (svc w);
     status_current := st_current (svc w);
     status_session := st_session (svc w);
     status_lastUpdate := lastUpdate (svc w);
     status_hits := hits (cache w);
     status_misses := misses (cache w);
     status_ratio :=
       (inject_Z (hits (cache w))
        / inject_Z (hits (cache w) + misses (cache w)))%Q |}.

Definition reset : M unit :=
  t <- get (fun w => st_timeout (svc w)) ;;
  match t with Some id => clearTimeout id | None => ret tt end ;;
  end_session ;;
  upd_svc (set_current None) ;;
  upd_svc (set_previous None) ;;
  upd_svc (set_lastUpdate 0) ;;
  upd_svc (set_session None) ;;
  upd_svc (set_paused false) ;;
  upd_svc (set_timeout None) ;;
  upd_cache (fun _ => {| c_data := None; c_timestamp := 0; hits := 0; misses := 0 |}) ;;
  log LInfo "Service reset".

End Netflix.

(** ** Events

    What can happen to the system from outside: a call of the service's or
    the client's interface, a callback of the Discord client, a timer that
    fires. *)

Inductive Event : Type :=
| EProcess (data : jsval)
| EPause
| EResume
| EStop
| EReset
| EConnect (id : option string)
| EDisconnect
| EDestroy
| EReady
| EDisconnected
| EError
| EFire (id : nat).

(** A timer fires: a timeout is consumed, an interval stays. *)
Definition fire (id : nat) : M unit :=
  ts <- get timers ;;
  match find (fun t => Nat.eqb (tid t) id) ts with
  | None => ret tt
  | Some t =>
      (if repeating t then ret tt else clearTimeout id) ;;
      match callback t with
      | CbWatchdog => Netflix.handle_timeout
      | CbReconnect => Rpc.reconnect ;; ret tt
      | CbTicker => Rpc.tick
      end
  end.

Definition run (e : Event) : M unit :=
  match e with
  | EProcess data => Netflix.process data ;; ret tt
  | EPause => Netflix.pause ;; ret tt
  | EResume => Netflix.resume ;; ret tt
  | EStop => Netflix.stop ;; ret tt
  | EReset => Netflix.reset
  | EConnect id => Rpc.connect id ;; ret tt
  | EDisconnect => Rpc.disconnect
  | EDestroy => Rpc.destroy
  | EReady => Rpc.handle_ready
  | EDisconnected => Rpc.handle_disconnect
  | EError => Rpc.handle_error
  | EFire id => fire id
  end.

Definition exec {A} (m : M A) (w : World) : World := snd (m w).
Definition result {A} (m : M A) (w : World) : Res A := fst (m w).

Definition step (e : Event) (w : World) : World := exec (run e) w.

Definition steps (es : list Event) (w : World) : World :=
  fold_left (fun w e => step e w) es w.

Definition init_world (e : Env) : World :=
  {| env := e;
     ctr := {| ticks := 0; draws := 0; libs := 0; next_timer := 0; next_client := 0 |};
     svc := Netflix.init; cache := Netflix.init_cache; rpc := Rpc.init;
     timers := []; calls := []; logs := [] |}.

(** ** The HTTP server ([Services/server.js])

    The application that [create] builds: its middleware in their order,
    the routes and the error handlers.  What Express does itself is read
    from the request: whether its method is [OPTIONS], what the body
    parsers make of it, and the route its method and path select.
    The bodies of the responses are the objects serialized by [res.json]:
    a field that is [undefined] is absent.  The [logs] of the [World] hold
    what is logged at the levels [info], [warn] and [error]; the
    [logger.debug] line of the request counter is not among them. *)

Inductive Body : Type :=
| BUpdate (success : bool) (data : option Sample) (session : option Session)
          (cached : bool)   (* {success, data, session, cached}; [cached] is
                               true or absent *)
| BAck (a : Ack)                          (* {success, error} *)
| BStatus (data : Status) (running : bool) (requests errors : Z)
| BDone                                   (* {success: true} *)
| BFail (error : string)                  (* {success: false, error} *)
| BRoot                                   (* the description of the API *)
| BPong (timestamp : Z)                   (* {pong: true, timestamp} *)
| BText (text : string).                  (* the text of [sendStatus] *)

Record Response : Type := {
  rs_code : Z;
  rs_body : Body
}.

(** [state] of the server. *)
Record SrvState : Type := {
  sv_running : bool;
  sv_requests : Z;
  sv_errors : Z
}.

Inductive Route : Type :=
| PostUpdate | PostPause | PostResume | PostStop | PostReset | GetStatus
| GetRoot | GetPing
| NoRoute.

(** What [express.json] and [express.urlencoded] make of a request: the
    [req.body] the handlers see, or the error they pass to [next]
    (malformed JSON, a JSON text that is no object or array, a body over
    the limit). *)
Inductive Parse : Type :=
| ParseOk (body : jsval)
| ParseError (error : string).

Record Request : Type := {
  rq_options : bool;     (* [req.method === 'OPTIONS'] *)
  rq_parse : Parse;
  rq_route : Route       (* the route its method and path select *)
}.

Module Server.

Definition init : SrvState :=
  {| sv_running := false; sv_requests := 0; sv_errors := 0 |}.

Definition count_request (s : SrvState) : SrvState :=
  {| sv_running := sv_running s; sv_requests := sv_requests s + 1;
     sv_errors := sv_errors s |}.

Definition count_error (s : SrvState) : SrvState :=
  {| sv_running := sv_running s; sv_requests := sv_requests s;
     sv_errors := sv_errors s + 1 |}.

Definition reset_counters (s : SrvState) : SrvState :=
  {| sv_running := sv_running s; sv_requests := 0; sv_errors := 0 |}.

(** [res.json(...)] and [res.status(n).json(...)] *)
Definition json (b : Body) : Response := {| rs_code := 200; rs_body := b |}.
Definition status_json (n : Z) (b : Body) : Response :=
  {| rs_code := n; rs_body := b |}.

(** The [catch] block the handlers share. *)
Definition failed (what : string) (s : SrvState) (msg : string)
  : M (Response * SrvState) :=
  log LError what ;;
  ret (status_json 500 (BFail msg), count_error s).

Definition update_body (r : Result) : Body :=
  match r with
  | RError _ => BUpdate false None None false
  | RCached => BUpdate true None None true
  | RUpdated n s => BUpdate true (Some n) s false
  end.

Definition handle_root (s : SrvState) : M (Response * SrvState) :=
  ret (json BRoot, s).

Definition handle_ping (s : SrvState) : M (Response * SrvState) :=
  now <- Date_now ;;
  ret (json (BPong now), s).

Definition handle_status (s : SrvState) : M (Response * SrvState) :=
  try_catch
    (status <- get Netflix.status ;;
     ret (json (BStatus status (sv_running s) (sv_requests s) (sv_errors s)),
          s))
    (failed "Status error" s).

Definition handle_update (body : jsval) (s : SrvState)
  : M (Response * SrvState) :=
  try_catch
    (if negb (truthy body) then
       ret (status_json 400 (BFail "Missing data"), s)
     else
       result <- Netflix.process body ;;
       ret (json (update_body result), s))
    (failed "Update error" s).

Definition handle_pause (s : SrvState) : M (Response * SrvState) :=
  try_catch
    (result <- Netflix.pause ;; ret (json (BAck result), s))
    (failed "Pause error" s).

Definition handle_resume (s : SrvState) : M (Response * SrvState) :=
  try_catch
    (result <- Netflix.resume ;; ret (json (BAck result), s))
    (failed "Resume error" s).

Definition handle_stop (s : SrvState) : M (Response * SrvState) :=
  try_catch
    (result <- Netflix.stop ;; ret (json (BAck result), s))
    (failed "Stop error" s).

Definition handle_reset (s : SrvState) : M (Response * SrvState) :=
  try_catch
    (Netflix.reset ;;
     ret (json BDone, reset_counters s))
    (failed "Reset error" s).

Definition handle_not_found (s : SrvState) : M (Response * SrvState) :=
  ret (status_json 404 (BFail "Not found"), s).

Definition handle_error (msg : string) (s : SrvState)
  : M (Response * SrvState) :=
  log LError "Request error" ;;
  ret (status_json 500 (BFail msg), count_error s).

(** [attach_routes], then [handle_not_found]. *)
Definition route (r : Route) (body : jsval) (s : SrvState)
  : M (Response * SrvState) :=
  match r with
  | GetRoot => handle_root s
  | GetPing => handle_ping s
  | GetStatus => handle_status s
  | PostUpdate => handle_update body s
  | PostPause => handle_pause s
  | PostResume => handle_resume s
  | PostStop => handle_stop s
  | PostReset => handle_reset s
  | NoRoute => handle_not_found s
  end.

(** The application: the CORS middleware answers [OPTIONS] itself; an
    error of the body parsers skips to [handle_error]; any other request
    goes through the request counter, then to its route. *)
Definition serve (rq : Request) (s : SrvState) : M (Response * SrvState) :=
  if rq_options rq then ret (status_json 200 (BText "OK"), s)
  else
    match rq_parse rq with
    | ParseError msg => handle_error msg s
    | ParseOk body => route (rq_route rq) body (count_request s)
    end.

End Server.

(** ** The logger ([Utils/logger.js])

    The logger keeps a state of its own.  What it formats (a timestamp, the
    level, the message and its data) is a string the environment provides;
    the log file and its archives are the lists of the lines appended to
    them; a call of [fs.appendFile] is pending until its callback runs.
    [configure], which assigns arbitrary options, is left out: the level is
    set through [level] only. *)

Inductive LogLevel : Type := LvDebug | LvInfo | LvWarn | LvError | LvFatal.

(** [console.log], [console.warn], [console.error] *)
Inductive Stream : Type := SLog | SWarn | SErr.

Record LogStats : Type := {
  n_debug : Z;
  n_info : Z;
  n_warn : Z;
  n_error : Z;
  n_fatal : Z
}.

(** [state] of the logger, with [config.level]. *)
Record LogState : Type := {
  lg_enabled : bool;
  lg_console : bool;
  lg_file : bool;
  lg_buffer : list string;
  lg_writing : bool;
  lg_stats : LogStats;
  lg_level : LogLevel
}.

Record LogWorld : Type := {
  lg_format : nat -> LogLevel -> string -> string;   (* [format_message] *)
  lg_formats : nat;                                  (* calls of it so far *)
  lg_state : LogState;
  lg_out : list (Stream * string);                   (* the console *)
  lg_files : nat -> option (list string);            (* 0: the log, i: archive i *)
  lg_pending : list (list string)                    (* appends under way *)
}.

(** [get_stats()] *)
Record StatsReport : Type := {
  sr_stats : LogStats;
  sr_total : Z;
  sr_buffered : nat
}.

Module Logger.

(** [config] *)
Definition maxSize : Z := 10 * 1024 * 1024.
Definition maxFiles : nat := 5.

(** [levels] *)
Definition levels (l : LogLevel) : Z :=
  match l with
  | LvDebug => 0 | LvInfo => 1 | LvWarn => 2 | LvError => 3 | LvFatal => 4
  end.

(** The own properties of [levels]. *)
Definition level_of_name (name : string) : option LogLevel :=
  if String.eqb name "debug" then Some LvDebug
  else if String.eqb name "info" then Some LvInfo
  else if String.eqb name "warn" then Some LvWarn
  else if String.eqb name "error" then Some LvError
  else if String.eqb name "fatal" then Some LvFatal
  else None.

Definition esc : string := String (ascii_of_nat 27) "".

(** [colors] *)
Definition color (l : LogLevel) : string :=
  match l with
  | LvDebug => esc ++ "[36m"
  | LvInfo => esc ++ "[32m"
  | LvWarn => esc ++ "[33m"
  | LvError => esc ++ "[31m"
  | LvFatal => esc ++ "[35m"
  end.
Definition color_reset : string := esc ++ "[0m".

Definition no_stats : LogStats :=
  {| n_debug := 0; n_info := 0; n_warn := 0; n_error := 0; n_fatal := 0 |}.

Definition init_state : LogState :=
  {| lg_enabled := true; lg_console := true; lg_file := true;
     lg_buffer := []; lg_writing := false; lg_stats := no_stats;
     lg_level := LvInfo |}.

Definition init (fmt : nat -> LogLevel -> string -> string) : LogWorld :=
  {| lg_format := fmt; lg_formats := 0; lg_state := init_state;
     lg_out := []; lg_files := fun _ => None; lg_pending := [] |}.

Definition set_state (s : LogState) (w : LogWorld) : LogWorld :=
  {| lg_format := lg_format w; lg_formats := lg_formats w; lg_state := s;
     lg_out := lg_out w; lg_files := lg_files w;
     lg_pending := lg_pending w |}.
Definition set_out (o : list (Stream * string)) (w : LogWorld) : LogWorld :=
  {| lg_format := lg_format w; lg_formats := lg_formats w;
     lg_state := lg_state w; lg_out := o; lg_files := lg_files w;
     lg_pending := lg_pending w |}.
Definition set_files (f : nat -> option (list string)) (w : LogWorld)
  : LogWorld :=
  {| lg_format := lg_format w; lg_formats := lg_formats w;
     lg_state := lg_state w; lg_out := lg_out w; lg_files := f;
     lg_pending := lg_pending w |}.
Definition set_pending (p : list (list string)) (w : LogWorld) : LogWorld :=
  {| lg_format := lg_format w; lg_formats := lg_formats w;
     lg_state := lg_state w; lg_out := lg_out w; lg_files := lg_files w;
     lg_pending := p |}.

Definition set_enabled (b : bool) (s : LogState) : LogState :=
  {| lg_enabled := b; lg_console := lg_console s; lg_file := lg_file s;
     lg_buffer := lg_buffer s; lg_writing := lg_writing s;
     lg_stats := lg_stats s; lg_level := lg_level s |}.
Definition set_console (b : bool) (s : LogState) : LogState :=
  {| lg_enabled := lg_enabled s; lg_console := b; lg_file := lg_file s;
     lg_buffer := lg_buffer s; lg_writing := lg_writing s;
     lg_stats := lg_stats s; lg_level := lg_level s |}.
Definition set_file (b : bool) (s : LogState) : LogState :=
  {| lg_enabled := lg_enabled s; lg_console := lg_console s; lg_file := b;
     lg_buffer := lg_buffer s; lg_writing := lg_writing s;
     lg_stats := lg_stats s; lg_level := lg_level s |}.
Definition set_buffer (b : list string) (s : LogState) : LogState :=
  {| lg_enabled := lg_enabled s; lg_console := lg_console s;
     lg_file := lg_file s; lg_buffer := b; lg_writing := lg_writing s;
     lg_stats := lg_stats s; lg_level := lg_level s |}.
Definition set_writing (b : bool) (s : LogState) : LogState :=
  {| lg_enabled := lg_enabled s; lg_console := lg_console s;
     lg_file := lg_file s; lg_buffer := lg_buffer s; lg_writing := b;
     lg_stats := lg_stats s; lg_level := lg_level s |}.
Definition set_stats (st : LogStats) (s : LogState) : LogState :=
  {| lg_enabled := lg_enabled s; lg_console := lg_console s;
     lg_file := lg_file s; lg_buffer := lg_buffer s;
     lg_writing := lg_writing s; lg_stats := st; lg_level := lg_level s |}.
Definition set_min_level (l : LogLevel) (s : LogState) : LogState :=
  {| lg_enabled := lg_enabled s; lg_console := lg_console s;
     lg_file := lg_file s; lg_buffer := lg_buffer s;
     lg_writing := lg_writing s; lg_stats := lg_stats s; lg_level := l |}.

Definition upd (f : LogState -> LogState) (w : LogWorld) : LogWorld :=
  set_state (f (lg_state w)) w.

Definition format_message (level : LogLevel) (message : string)
    (w : LogWorld) : string * LogWorld :=
  (lg_format w (lg_formats w) level message,
   {| lg_format := lg_format w; lg_formats := S (lg_formats w);
      lg_state := lg_state w; lg_out := lg_out w; lg_files := lg_files w;
      lg_pending := lg_pending w |}).

(** [config.colors] is set. *)
Definition colorize (level : LogLevel) (text : string) : string :=
  color level ++ text ++ color_reset.

Definition should_log (level : LogLevel) (w : LogWorld) : bool :=
  if negb (lg_enabled (lg_state w)) then false
  else levels (lg_level (lg_state w)) <=? levels level.

Definition write_console (level : LogLevel) (message : string)
    (w : LogWorld) : LogWorld :=
  if negb (lg_console (lg_state w)) then w
  else
    let (formatted, w) := format_message level message w in
    let colored := colorize level formatted in
    let stream :=
      match level with
      | LvError | LvFatal => SErr
      | LvWarn => SWarn
      | _ => SLog
      end in
    set_out ((stream, colored) :: lg_out w) w.

Definition flush_buffer (w : LogWorld) : LogWorld :=
  match lg_buffer (lg_state w) with
  | [] => upd (set_writing false) w
  | _ =>
      let w := upd (set_writing true) w in
      (* up to 100 lines at a time *)
      let lines := firstn 100 (lg_buffer (lg_state w)) in
      let w := upd (set_buffer (skipn 100 (lg_buffer (lg_state w)))) w in
      set_pending (lg_pending w ++ [lines])%list w
  end.

Definition write_file (level : LogLevel) (message : string)
    (w : LogWorld) : LogWorld :=
  if negb (lg_file (lg_state w)) then w
  else
    let (formatted, w) := format_message level message w in
    let line := formatted ++ String (ascii_of_nat 10) "" in
    let w := upd (fun s => set_buffer (lg_buffer s ++ [line])%list s) w in
    if negb (lg_writing (lg_state w)) then flush_buffer w else w.

Definition file_size (content : list string) : Z :=
  Z.of_nat (String.length (String.concat "" content)).

Definition unlink (i : nat) (fs : nat -> option (list string))
  : nat -> option (list string) :=
  fun j => if Nat.eqb j i then None else fs j.

(** [fs.renameSync] of an existing file. *)
Definition rename (a b : nat) (fs : nat -> option (list string))
  : nat -> option (list string) :=
  fun j => if Nat.eqb j b then fs a else if Nat.eqb j a then None else fs j.

(** The loop of [rotate_logs], from [i] down to 1. *)
Fixpoint shift (i : nat) (fs : nat -> option (list string))
  : nat -> option (list string) :=
  match i with
  | O => fs
  | S j =>
      shift j
        match fs i with
        | Some _ =>
            if Nat.eqb i (maxFiles - 1) then unlink i fs
            else rename i (i + 1) fs
        | None => fs
        end
  end.

Definition rotate_logs (fs : nat -> option (list string))
  : nat -> option (list string) :=
  rename 0 1 (shift (maxFiles - 1) fs).

Definition check_rotation (w : LogWorld) : LogWorld :=
  match lg_files w 0%nat with
  | None => w                           (* [statSync] throws *)
  | Some content =>
      if maxSize <=? file_size content
      then set_files (rotate_logs (lg_files w)) w
      else w
  end.

(** The [k]-th pending [fs.appendFile] completes, with or without an
    error, and its callback runs. *)
Definition append_done (k : nat) (ok : bool) (w : LogWorld) : LogWorld :=
  match nth_error (lg_pending w) k with
  | None => w
  | Some lines =>
      let w := set_pending (firstn k (lg_pending w)
                            ++ skipn (S k) (lg_pending w))%list w in
      let w :=
        if ok then
          set_files
            (fun j => if Nat.eqb j 0
                      then Some (match lg_files w 0%nat with
                                 | Some c => c ++ lines
                                 | None => lines
                                 end)%list
                      else lg_files w j) w
        else set_out ((SErr, "Failed to write log:") :: lg_out w) w in
      let w := check_rotation w in
      match lg_buffer (lg_state w) with
      | [] => upd (set_writing false) w
      | _ => flush_buffer w
      end
  end.

Definition bump (level : LogLevel) (s : LogStats) : LogStats :=
  match level with
  | LvDebug => {| n_debug := n_debug s + 1; n_info := n_info s;
                  n_warn := n_warn s; n_error := n_error s;
                  n_fatal := n_fatal s |}
  | LvInfo => {| n_debug := n_debug s; n_info := n_info s + 1;
                 n_warn := n_warn s; n_error := n_error s;
                 n_fatal := n_fatal s |}
  | LvWarn => {| n_debug := n_debug s; n_info := n_info s;
                 n_warn := n_warn s + 1; n_error := n_error s;
                 n_fatal := n_fatal s |}
  | LvError => {| n_debug := n_debug s; n_info := n_info s;
                  n_warn := n_warn s; n_error := n_error s + 1;
                  n_fatal := n_fatal s |}
  | LvFatal => {| n_debug := n_debug s; n_info := n_info s;
                  n_warn := n_warn s; n_error := n_error s;
                  n_fatal := n_fatal s + 1 |}
  end.

Definition log (level : LogLevel) (message : string) (w : LogWorld)
  : LogWorld :=
  if negb (should_log level w) then w
  else
    let w := upd (fun s => set_stats (bump level (lg_stats s)) s) w in
    let w := write_console level message w in
    write_file level message w.

(** [set_level]: [None] when it throws. *)
Definition set_level (name : string) (w : LogWorld) : option LogWorld :=
  match level_of_name name with
  | None => None
  | Some l => Some (upd (set_min_level l) w)
  end.

Definition get_stats (w : LogWorld) : StatsReport :=
  let s := lg_stats (lg_state w) in
  {| sr_stats := s;
     sr_total := n_debug s + n_info s + n_warn s + n_error s + n_fatal s;
     sr_buffered := List.length (lg_buffer (lg_state w)) |}.

Definition clear_stats (w : LogWorld) : LogWorld :=
  upd (set_stats no_stats) w.

Definition clear_buffer (w : LogWorld) : LogWorld :=
  upd (set_writing false) (upd (set_buffer []) w).

End Logger.

(** What happens to the logger: a call of its interface, or the completion
    of a pending append. *)
Inductive LogEvent : Type :=
| LLog (level : LogLevel) (message : string)
| LSetLevel (name : string)
| LEnable (b : bool)
| LConsole (b : bool)
| LFile (b : bool)
| LClearStats
| LClearBuffer
| LAppendDone (k : nat) (ok : bool).

Definition log_step (e : LogEvent) (w : LogWorld) : LogWorld :=
  match e with
  | LLog level message => Logger.log level message w
  | LSetLevel name =>
      match Logger.set_level name w with Some w' => w' | None => w end
  | LEnable b => Logger.upd (Logger.set_enabled b) w
  | LConsole b => Logger.upd (Logger.set_console b) w
  | LFile b => Logger.upd (Logger.set_file b) w
  | LClearStats => Logger.clear_stats w
  | LClearBuffer => Logger.clear_buffer w
  | LAppendDone k ok => Logger.append_done k ok w
  end.

(** ** Vocabulary of the properties *)

(** [wp m Q w]: running [m] in the world [w] ends, with a value or an
    exception, in a world where [Q] holds. *)
Definition wp {A} (m : M A) (Q : Res A -> World -> Prop) (w : World) : Prop :=
  Q (fst (m w)) (snd (m w)).

Definition tick_ctr (c : Counters) : Counters :=
  {| ticks := S (ticks c); draws := draws c; libs := libs c;
     next_timer := next_timer c; next_client := next_client c |}.

(** The next reading of the clock. *)
Definition next_now (w : World) : Z := clock (env w) (ticks (ctr w)).

Definition stranger_things : ActData :=
  {| d_title := "Stranger Things: S04E09 - The Piggyback";
     d_current := 0; d_duration := 3000; d_playing := true |}.

Definition inception : ActData :=
  {| d_title := "Inception"; d_current := 500; d_duration := 7200;
     d_playing := false |}.

(** The whole seconds of a position or a duration, 0 if it is not finite. *)
Definition seconds (x : float) : float :=
  if Number_isFinite x then Math_floor x else 0%float.

(** The clock in whole seconds. *)
Definition now_sec (now : Z) : float := Math_floor (of_Z now / 1000).

(** What [set_activity] hands to the client when it is ready. *)
Definition rendered (now : Z) (data : ActData) : Activity :=
  let a := Rpc.format_activity (d_title data) in
  if ((0 <? seconds (d_duration data))%float && d_playing data)%bool
  then Rpc.with_timestamps
         (now_sec now - seconds (d_current data))%float
         (now_sec now - seconds (d_current data) + seconds (d_duration data))%float
         a
  else a.

(** [m] returned a value. *)
Definition returned {A} (r : Res A) : Prop := exists a, r = Ok a.

(** The worlds agree on everything the Netflix service owns. *)
Definition service_untouched (w w' : World) : Prop :=
  env w' = env w /\ svc w' = svc w /\ cache w' = cache w /\ logs w' = logs w.

(** The worlds agree on everything the RPC client owns and on the calls it
    made. *)
Definition client_untouched (w w' : World) : Prop :=
  env w' = env w /\ rpc w' = rpc w /\ calls w' = calls w
  /\ libs (ctr w') = libs (ctr w) /\ next_client (ctr w') = next_client (ctr w).

(** The change detector's verdict on the normalized sample [n] against the
    current sample [c]. *)
Definition changed (c n : Sample) : Prop :=
  title c <> title n \/ playing c <> playing n
  \/ (Netflix.threshold <? Math_abs (current c - current n))%float = true.

(** The condition under which a sample is propagated, [now] being the
    reading of the clock when it is examined. *)
Definition propagates (w : World) (n : Sample) (now : Z) : Prop :=
  st_current (svc w) = None
  \/ exists c, st_current (svc w) = Some c /\ changed c n
               /\ 1000 <= now - lastUpdate (svc w).

Definition hit (c : Cache) : Cache :=
  {| c_data := c_data c; c_timestamp := c_timestamp c;
     hits := hits c + 1; misses := misses c |}.

(** What an accepted sample [n] leaves behind: the result of [process] and
    the state it committed. *)
Definition accepted (w : World) (n : Sample) (r : Res Result) (w' : World) : Prop :=
  exists s,
    r = Ok (RUpdated n (Some s))
    /\ st_session (svc w') = Some s /\ s_title s = title n
    /\ st_current (svc w') = Some n
    /\ st_previous (svc w') = st_current (svc w)
    /\ paused (svc w') = negb (playing n)
    /\ hits (cache w') = hits (cache w)
    /\ misses (cache w') = misses (cache w) + 1.

(** The time [process] records in [state.lastUpdate] when it accepts the
    sample [n], [w1] being the world in which [n] came out of [normalize]:
    the reading of the clock that follows those of the change detector and
    of the session tracker. *)
Definition recorded (w1 : World) (n : Sample) : Z :=
  next_now (exec (Netflix.update_session n)
              (exec (Netflix.should_update n) w1)).

Definition miss (c : Cache) : Cache :=
  {| c_data := c_data c; c_timestamp := c_timestamp c;
     hits := hits c; misses := misses c + 1 |}.

(** A session is only ever open over a current sample. *)
Definition session_inv (w : World) : Prop :=
  st_session (svc w) <> None -> st_current (svc w) <> None.

(** *** Scenarios *)

Definition client_id : option string := Some "1472931378441228308".

(** A clock that advances by one second per reading; a library in which
    every call resolves. *)
Definition env_up : Env :=
  {| clock := fun k => 1700000000000 + 1000 * Z.of_nat k;
     random := fun _ => 0%N;
     lib := fun _ => None |}.

(** The same, but the second call into the library is rejected. *)
Definition env_send_fails : Env :=
  {| clock := clock env_up; random := random env_up;
     lib := fun k => if Nat.eqb k 1 then Some "RPC_CONNECTION_TIMEOUT" else None |}.

(** The same, but every call into the library is rejected: Discord is not
    running. *)
Definition env_down : Env :=
  {| clock := clock env_up; random := random env_up;
     lib := fun _ => Some "Could not connect" |}.

Definition inception_raw : jsval :=
  JObj [("title", JStr "Inception"); ("current", JNum 500);
        ("duration", JNum 7200); ("playing", JBool true)].

(** Connected and ready. *)
Definition ready_world (e : Env) : World :=
  steps [EConnect client_id; EReady] (init_world e).

(** [clearTimeout] of the timer in [state.timeout], if there is one. *)
Definition cancelled (o : option nat) (ts : list Timer) : list Timer :=
  match o with
  | Some id => filter (fun t => negb (Nat.eqb (tid t) id)) ts
  | None => ts
  end.

(** What the presence connection is asked when it is told to clear. *)
Definition clear_sent (w : World) : list LibCall :=
  match client (rpc w), ready (rpc w) with
  | Some c, true => ClearActivity c :: calls w
  | _, _ => calls w
  end.

(** The connection is ready and the next call into the library resolves. *)
Definition clear_succeeds (w : World) : bool :=
  (is_some (client (rpc w)) && ready (rpc w)
   && negb (is_some (lib (env w) (libs (ctr w)))))%bool.

(** A presence is on display: connected, ready, and one sample accepted. *)
Definition showing : World :=
  exec (Netflix.process inception_raw) (ready_world env_up).

(** The spec's reading of [reset]: [stop] plus zeroed counters. *)
Definition reset_as_claimed (w : World) : Prop :=
  let w' := exec Netflix.reset w in
  activity (rpc w') = None
  /\ st_session (svc w') = None /\ st_timeout (svc w') = None
  /\ st_current (svc w') = None /\ st_previous (svc w') = None
  /\ hits (cache w') = 0 /\ misses (cache w') = 0.

(** The worlds the system can be in: the initial one and those an event
    leads to. *)
Inductive reachable (e : Env) : World -> Prop :=
| reach_init : reachable e (init_world e)
| reach_step ev w : reachable e w -> reachable e (step ev w).

(** One round of automatic reconnection: the pending timer fires. *)
Definition retry_round (w : World) : World :=
  match timers w with
  | t :: _ => step (EFire (tid t)) w
  | [] => w
  end.

(** Discord is not running: a first [connect], then [n] rounds. *)
Definition down_after (n : nat) : World :=
  Nat.iter n retry_round (step (EConnect client_id) (init_world env_down)).

Definition reconnect_timer (id : nat) : Timer :=
  {| tid := id; delay := Rpc.retry; callback := CbReconnect; repeating := false |}.

(** What every round leaves behind when Discord is not running. *)
Definition down_inv (n : nat) (w : World) : Prop :=
  env w = env_down
  /\ rpc w = {| client := Some n; connected := false; ready := false;
                activity := None; r_timestamp := None; attempts := 1;
                r_id := client_id; ticker := None |}
  /\ timers w = [reconnect_timer n]
  /\ next_timer (ctr w) = S n /\ next_client (ctr w) = S n
  /\ hd_error (calls w) = Some (Login n client_id).

(** The library resolves every call but the third, fourth and fifth: the
    three logins that follow the drop of the connection. *)
Definition env_drop : Env :=
  {| clock := clock env_up; random := random env_up;
     lib := fun k => if (Nat.leb 2 k && Nat.leb k 4)%bool
                     then Some "Could not connect" else None |}.

(** A presence is on display, the connection drops, three automatic
    reconnections fail. *)
Definition dropped : World :=
  steps [EConnect client_id; EReady; EProcess inception_raw; EDisconnected;
         EFire 2; EFire 3; EFire 4] (init_world env_drop).

(** A manual [connect] then succeeds and the client becomes ready. *)
Definition reconnected : World := steps [EConnect client_id; EReady] dropped.

(** The clock of [env_up] slowed down to 10 ms per reading. *)
Definition env_fast : Env :=
  {| clock := fun k => 1700000000000 + 10 * Z.of_nat k;
     random := random env_up; lib := lib env_up |}.

(** The same film, twenty seconds further. *)
Definition inception_later : jsval :=
  JObj [("title", JStr "Inception"); ("current", JNum 520);
        ("duration", JNum 7200); ("playing", JBool true)].

(** A presence is on display under the slow clock. *)
Definition showing_fast : World :=
  exec (Netflix.process inception_raw) (ready_world env_fast).

(** [inception_later] normalized in [showing_fast]. *)
Definition inception_later_fast : Sample :=
  {| title := "Inception"; current := 520; duration := 7200; playing := true;
     timestamp := JNum 1700000000090; percent := 7; remaining := 6680;
     elapsed := 520 |}.

(** [inception_raw] normalized at the first reading of the clock. *)
Definition inception_sample : Sample :=
  {| title := "Inception"; current := 500; duration := 7200; playing := true;
     timestamp := JNum 1700000000000; percent := 6; remaining := 6700;
     elapsed := 500 |}.

(** [inception_later] normalized in [showing]. *)
Definition inception_later_sample : Sample :=
  {| title := "Inception"; current := 520; duration := 7200; playing := true;
     timestamp := JNum 1700000009000; percent := 7; remaining := 6680;
     elapsed := 520 |}.

Definition watchdog_timer (id : nat) : Timer :=
  {| tid := id; delay := Netflix.timeout; callback := CbWatchdog;
     repeating := false |}.

(** The session open in [showing]. *)
Definition inception_session : Session :=
  {| s_id := (1700000001000, 0%N); s_title := "Inception";
     started := 1700000002000; updated := 1700000003000;
     s_duration := 7200; watched := 0; pauses := 0; seeks := 0 |}.

(** ** Vocabulary of the further properties *)

(** The open session always bears the title of the current sample. *)
Definition session_title_inv (w : World) : Prop :=
  forall s, st_session (svc w) = Some s ->
            exists c, st_current (svc w) = Some c /\ s_title s = title c.

(** A hundred seconds of film, twenty-nine in: [29 / 100 * 100] is not 29
    in the arithmetic of the doubles. *)
Definition short_raw : jsval :=
  JObj [("title", JStr "Inception"); ("current", JNum 29);
        ("duration", JNum 100); ("playing", JBool true)].

(** [short_raw] normalized at the first reading of the clock. *)
Definition short_sample : Sample :=
  {| title := "Inception"; current := 29; duration := 100; playing := true;
     timestamp := JNum 1700000000000; percent := 28; remaining := 71;
     elapsed := 29 |}.

(** A stream without an end: the JSON number [1e999] is read as infinity. *)
Definition endless_raw : jsval :=
  JObj [("title", JStr "Inception"); ("current", JNum 29);
        ("duration", JNum infinity); ("playing", JBool true)].

(** [endless_raw] normalized at the first reading of the clock. *)
Definition endless_sample : Sample :=
  {| title := "Inception"; current := 29; duration := infinity;
     playing := true; timestamp := JNum 1700000000000; percent := 0;
     remaining := infinity; elapsed := 29 |}.

(** The same, as [process] hands it to the client. *)
Definition endless : ActData :=
  {| d_title := "Inception"; d_current := 29; d_duration := infinity;
     d_playing := true |}.

(** Another title, from its start. *)
Definition stranger_raw : jsval :=
  JObj [("title", JStr "Stranger Things: S04E09 - The Piggyback");
        ("current", JNum 0); ("duration", JNum 3000); ("playing", JBool true)].

(** [stranger_raw] normalized in [showing]. *)
Definition stranger_sample : Sample :=
  {| title := "Stranger Things: S04E09 - The Piggyback"; current := 0;
     duration := 3000; playing := true; timestamp := JNum 1700000009000;
     percent := 0; remaining := 3000; elapsed := 0 |}.

Definition ticker_timer (id : nat) : Timer :=
  {| tid := id; delay := 15000; callback := CbTicker; repeating := true |}.

(** The discipline of the timers.  A pending timer was given an identifier
    that is not given again; a pending watchdog is the one-shot timer of
    [Netflix.timeout] ms that [state.timeout] holds, a pending ticker the
    15 s interval that [state._ticker] holds, a pending reconnection a
    one-shot timer of [Rpc.retry] ms. *)
Definition timer_ok (nt : nat) (wd tk : option nat) (t : Timer) : Prop :=
  (tid t < nt)%nat
  /\ match callback t with
     | CbWatchdog => wd = Some (tid t) /\ t = watchdog_timer (tid t)
     | CbTicker => tk = Some (tid t) /\ t = ticker_timer (tid t)
     | CbReconnect => t = reconnect_timer (tid t)
     end.

Definition timers_ok (ts : list Timer) (nt : nat) (wd tk : option nat) : Prop :=
  NoDup (map tid ts)
  /\ Forall (timer_ok nt wd tk) ts
  /\ (forall j, wd = Some j ->
        (j < nt)%nat
        /\ forall t, In t ts -> tid t = j -> callback t = CbWatchdog)
  /\ (forall i, tk = Some i -> In (ticker_timer i) ts).

Definition timers_inv (w : World) : Prop :=
  timers_ok (timers w) (next_timer (ctr w)) (st_timeout (svc w))
    (ticker (rpc w)).

(** The watchdog is armed: the timer [state.timeout] names is pending. *)
Definition armed_at (ts : list Timer) (wd : option nat) : Prop :=
  exists j, wd = Some j /\ In (watchdog_timer j) ts.

Definition armed (w : World) : Prop :=
  armed_at (timers w) (st_timeout (svc w)).

Definition guarded (w : World) : Prop := timers_inv w /\ armed w.

(** An active service has its watchdog armed. *)
Definition active_inv (w : World) : Prop :=
  st_current (svc w) <> None -> armed w.

(** [m] keeps [I], however it ends. *)
Definition keeps (I : World -> Prop) {A} (m : M A) : Prop :=
  forall w, I w -> wp m (fun _ w' => I w') w.

(** [I] is kept by what the client does to the world: it reads the clock,
    calls the library, writes its own state but for the ticker, which it
    clears with its interval before it sets the next one, and schedules
    reconnections; and by what the service does to its own state but for
    [state.timeout]. *)
Record closed (I : World -> Prop) : Prop := {
  cl_ctr : forall w c, next_timer c = next_timer (ctr w) -> I w -> I (set_ctr c w);
  cl_calls : forall w cs, I w -> I (set_calls cs w);
  cl_logs : forall w l, I w -> I (set_logs l w);
  cl_cache : forall w c, I w -> I (set_cache c w);
  cl_svc : forall w s, st_timeout s = st_timeout (svc w) -> I w -> I (set_svc s w);
  cl_rpc : forall w r, ticker r = ticker (rpc w) -> I w -> I (set_rpc r w);
  cl_retry : keeps I (setTimeout CbReconnect Rpc.retry);
  cl_stop : keeps I Rpc.stop_ticker;
  cl_rearm : forall (b : bool) (k : M bool),
      keeps I k ->
      keeps I (Rpc.stop_ticker ;;
               (if b
                then id <- setInterval CbTicker 15000 ;;
                     upd_rpc (Rpc.set_ticker (Some id))
                else ret tt) ;; k)
}.

Definition is_watchdog (t : Timer) : bool :=
  match callback t with CbWatchdog => true | _ => false end.

Definition is_ticker (t : Timer) : bool :=
  match callback t with CbTicker => true | _ => false end.

(** What [pause] and [resume] hand to [set_activity]. *)
Definition replayed (a : Act) (playing : bool) : ActData :=
  {| d_title := act_title a; d_current := act_current a;
     d_duration := act_duration a; d_playing := playing |}.

(** The loop of [Regex.match_here] over one quantified class, [k] being the
    match of the rest of the pattern. *)
Definition rep_loop (it : item) (k : list ascii -> option (list (list ascii)))
  : list ascii -> list ascii -> nat -> option (list (list ascii)) :=
  fix loop (s : list ascii) (taken : list ascii) (n : nat) {struct s}
    : option (list (list ascii)) :=
    let stop :=
      if Nat.leb (i_min it) n then
        match k s with
        | Some caps => Some (if i_capture it then rev taken :: caps else caps)
        | None => None
        end
      else None in
    let more :=
      match s with
      | c :: s' =>
          if (cls_match (i_cls it) c && below (i_max it) n)%bool
          then loop s' (c :: taken) (S n)
          else None
      | [] => None
      end in
    if i_greedy it then orelse more stop else orelse stop more.

(** What a successful match tells: the text splits into one run per item of
    the pattern, each run within its class and of the least length at least,
    the captured runs being the captures. *)
Fixpoint matches (its : list item) (s : list ascii) (caps : list (list ascii))
  : Prop :=
  match its with
  | [] => caps = []
  | it :: rest =>
      exists s1 s2 caps',
        s = (s1 ++ s2)%list
        /\ forallb (cls_match (i_cls it)) s1 = true
        /\ (i_min it <= List.length s1)%nat
        /\ matches rest s2 caps'
        /\ caps = if i_capture it then s1 :: caps' else caps'
  end.

Definition has_colon (t : string) : bool :=
  existsb (Ascii.eqb ":") (list_ascii_of_string t).

Definition digits (s : string) : bool :=
  forallb is_digit (list_ascii_of_string s).

(** What a request asks of the service. *)
Definition service_effect (r : Route) (body : jsval) (w : World) : World :=
  match r with
  | PostUpdate => if truthy body then exec (Netflix.process body) w else w
  | PostPause => exec Netflix.pause w
  | PostResume => exec Netflix.resume w
  | PostStop => exec Netflix.stop w
  | PostReset => exec Netflix.reset w
  | GetPing => exec Date_now w
  | GetStatus | GetRoot | NoRoute => w
  end.

(** What a request leaves of the world: nothing if the CORS middleware
    answers it, one line of the log if the body parsers refuse it. *)
Definition request_effect (rq : Request) (w : World) : World :=
  if rq_options rq then w
  else
    match rq_parse rq with
    | ParseError _ => set_logs ((LError, "Request error") :: logs w) w
    | ParseOk body => service_effect (rq_route rq) body w
    end.

(** *** The logger *)

Definition log_run (es : list LogEvent) (w : LogWorld) : LogWorld :=
  fold_left (fun w e => log_step e w) es w.

(** [flush()], which is [clear_buffer], is not called. *)
Definition no_flush (e : LogEvent) : bool :=
  match e with LClearBuffer => false | _ => true end.

(** One append at a time: while the logger is writing exactly one append is
    pending, of 1 to 100 lines; when it is not, none is and the buffer is
    empty. *)
Definition single_writer (w : LogWorld) : Prop :=
  if lg_writing (lg_state w)
  then exists chunk,
         lg_pending w = [chunk]
         /\ (1 <= List.length chunk <= 100)%nat
  else lg_pending w = [] /\ lg_buffer (lg_state w) = [].

Definition file_lines (w : LogWorld) (i : nat) : list string :=
  match lg_files w i with Some c => c | None => [] end.

(** The lines the logger holds, oldest first: the archives from the fourth
    to the first, the log, the append under way, the buffer. *)
Definition stored (w : LogWorld) : list string :=
  (file_lines w 4 ++ file_lines w 3 ++ file_lines w 2 ++ file_lines w 1
   ++ file_lines w 0 ++ List.concat (lg_pending w)
   ++ lg_buffer (lg_state w))%list.

(** The events that keep the count and the console in step. *)
Definition in_step (e : LogEvent) : bool :=
  match e with
  | LConsole false | LClearStats | LAppendDone _ false => false
  | _ => true
  end.

(** * Properties *)

(** ** Reasoning about computations *)

Section WpRules.
Context {A B : Type}.
Implicit Types (w : World).

Lemma wp_ret (a : A) Q w : Q (Ok a) w -> wp (ret a) Q w.
Proof. exact (fun H => H). Qed.

Lemma wp_throw msg (Q : Res A -> World -> Prop) w :
  Q (Throw msg) w -> wp (throw msg) Q w.
Proof. exact (fun H => H). Qed.

Lemma wp_bind (m : M A) (k : A -> M B) Q w :
  wp m (fun r w' => match r with
                    | Ok a => wp (k a) Q w'
                    | Throw msg => Q (Throw msg) w'
                    end) w ->
  wp (bind m k) Q w.
Proof. unfold wp, bind. destruct (m w) as [[a | msg] w']; auto. Qed.

Lemma wp_try (m : M A) (h : string -> M A) Q w :
  wp m (fun r w' => match r with
                    | Ok a => Q (Ok a) w'
                    | Throw msg => wp (h msg) Q w'
                    end) w ->
  wp (try_catch m h) Q w.
Proof. unfold wp, try_catch. destruct (m w) as [[a | msg] w']; auto. Qed.

Lemma wp_get (f : World -> A) Q w : Q (Ok (f w)) w -> wp (get f) Q w.
Proof. exact (fun H => H). Qed.

Lemma wp_conseq (m : M A) (Q Q' : Res A -> World -> Prop) w :
  wp m Q w -> (forall r w', Q r w' -> Q' r w') -> wp m Q' w.
Proof. unfold wp. auto. Qed.

Lemma wp_eq (m : M A) Q w r w' : m w = (r, w') -> Q r w' -> wp m Q w.
Proof. unfold wp. intros ->. auto. Qed.

End WpRules.

Lemma wp_inv {A} (Q : Res A -> World -> Prop) (m : M A) (w : World) :
  wp m Q w -> Q (result m w) (exec m w).
Proof. exact (fun H => H). Qed.

Lemma wp_modify (f : World -> World) Q w : Q (Ok tt) (f w) -> wp (modify f) Q w.
Proof. exact (fun H => H). Qed.

Lemma wp_Date_now Q w :
  Q (Ok (next_now w)) (set_ctr (tick_ctr (ctr w)) w) -> wp Date_now Q w.
Proof. exact (fun H => H). Qed.

Lemma wp_lib_call (c : LibCall) Q w :
  let w' := set_calls (c :: calls w)
              (set_ctr {| ticks := ticks (ctr w); draws := draws (ctr w);
                          libs := S (libs (ctr w));
                          next_timer := next_timer (ctr w);
                          next_client := next_client (ctr w) |} w) in
  (lib (env w) (libs (ctr w)) = None -> Q (Ok tt) w') ->
  (forall msg, lib (env w) (libs (ctr w)) = Some msg -> Q (Throw msg) w') ->
  wp (lib_call c) Q w.
Proof.
  unfold wp, lib_call. cbn. intros H1 H2.
  destruct (lib (env w) (libs (ctr w))); cbn; auto.
Qed.

Arguments wp : simpl never.
Arguments bind : simpl never.
Arguments try_catch : simpl never.
Arguments lib_call : simpl never.
Arguments Date_now : simpl never.
Arguments Rpc.format_activity : simpl never.
Arguments Math_floor : simpl never.
Arguments Math_max : simpl never.
Arguments Math_min : simpl never.
Arguments Math_abs : simpl never.
Arguments Number_isFinite : simpl never.
Arguments of_Z : simpl never.
Arguments seconds : simpl never.
Arguments now_sec : simpl never.
Arguments is_nan : simpl never.
Arguments is_zero : simpl never.
Arguments Z.div : simpl never.
Arguments Z.add : simpl never.
Arguments Z.sub : simpl never.
Arguments Z.ltb : simpl never.
Arguments Z.abs : simpl never.
Arguments String.eqb : simpl never.
Arguments slice0 : simpl never.

(** Symbolic execution: [wp_step] runs the computation at the head of the
    goal by one step, branching where the code branches. *)
Ltac wp_prim :=
  eapply wp_eq;
  [ unfold upd_svc, upd_cache, upd_rpc, modify, Math_random, new_client,
      setTimeout, setInterval, set_timer, clearInterval, clearTimeout, log, get, ret;
    reflexivity
  | ].

Ltac wp_step :=
  lazymatch goal with
  | |- wp (bind _ _) _ _ => apply wp_bind
  | |- wp (try_catch _ _) _ _ => apply wp_try
  | |- wp Date_now _ _ => apply wp_Date_now
  | |- wp (lib_call _) _ _ => apply wp_lib_call; cbn; [intros ? | intros ? ?]
  | |- wp (when ?b _) _ _ => unfold when at 1
  | |- wp (if ?b then _ else _) _ _ => destruct b eqn:?
  | |- wp (match ?x with _ => _ end) _ _ => destruct x eqn:?
  | |- wp (ret _) _ _ => wp_prim
  | |- wp (get _) _ _ => wp_prim
  | |- wp (modify _) _ _ => wp_prim
  | |- wp (upd_svc _) _ _ => wp_prim
  | |- wp (upd_cache _) _ _ => wp_prim
  | |- wp (upd_rpc _) _ _ => wp_prim
  | |- wp (log _ _) _ _ => wp_prim
  | |- wp (setTimeout _ _) _ _ => wp_prim
  | |- wp (setInterval _ _) _ _ => wp_prim
  | |- wp (clearTimeout _) _ _ => wp_prim
  | |- wp (clearInterval _) _ _ => wp_prim
  | |- wp Math_random _ _ => wp_prim
  | |- wp new_client _ _ => wp_prim
  end; cbn.

Ltac wp_at H := eapply wp_eq; [exact H |]; cbn.

Ltac absurd_branch :=
  match goal with
  | H1 : ?x = _, H2 : ?x = _ |- _ => rewrite H1 in H2; discriminate H2
  | H : _ = _ |- _ => discriminate H
  end.

Ltac wp_run := repeat (wp_step; try absurd_branch).

(** The same, rewriting with known facts about the world after each step. *)
Tactic Notation "wp_run" "with" tactic3(tac) :=
  repeat (tac; wp_step; try absurd_branch).

(** Use the specification [L] of the computation at the head of the goal. *)
Ltac wp_use L :=
  eapply wp_conseq; [apply L | cbn; intros ? ? ?].

Ltac frame_done :=
  unfold returned, service_untouched, client_untouched in *; cbn in *;
  intuition (eauto; try congruence).

(** ** Numbers *)

(** The functions of [Math] at work. *)
Lemma Math_examples :
  Math_floor 2.5 = 2%float /\ Math_floor (-2.5) = (-3)%float
  /\ Math_floor 0.5 = 0%float /\ Math_floor (-0.5) = (-1)%float
  /\ Math_floor infinity = infinity /\ Math_floor nan = nan
  /\ Math_floor (29 / 100 * 100) = 28%float
  /\ Math_max 0 (-3) = 0%float /\ Math_max 0 7200 = 7200%float
  /\ Math_max 0 infinity = infinity /\ Math_max 0 nan = nan
  /\ Math_min 8 5 = 5%float /\ Math_min 2.5 5 = 2.5%float
  /\ Math_min nan 5 = nan
  /\ Number_isFinite 7200 = true /\ Number_isFinite infinity = false
  /\ Number_isFinite nan = false
  /\ of_Z 1700000000123 = 1700000000123%float.
Proof. repeat split; reflexivity. Qed.

Lemma SF_zero : Prim2SF 0 = S754_zero false.
Proof. reflexivity. Qed.

Lemma sub_zero (x : float) : (x - 0)%float = x.
Proof.
  apply Prim2SF_inj. rewrite sub_spec, SF_zero.
  destruct (Prim2SF x) as [[|] | [|] | | s m e]; reflexivity.
Qed.

Lemma SFltb_asym (a b : spec_float) : SFltb a b = true -> SFltb b a = false.
Proof.
  unfold SFltb, SFcompare.
  destruct a as [sa | sa | | sa ma ea], b as [sb | sb | | sb mb eb];
    try destruct sa; try destruct sb; cbn; try congruence.
  all: rewrite (Z.compare_antisym ea eb); destruct (ea ?= eb); cbn;
    try congruence.
  all: change (Pos.compare_cont Eq mb ma)
         with (Pos.compare_cont (CompOpp Eq) mb ma);
    rewrite <- Pos.compare_cont_antisym;
    destruct (Pos.compare_cont Eq ma mb); cbn; congruence.
Qed.

Lemma ltb_asym (a b : float) : (a <? b)%float = true -> (b <? a)%float = false.
Proof. rewrite !ltb_spec. apply SFltb_asym. Qed.

(** An integer that is not negative is not rounded below zero. *)
Lemma round_sign (z : Z) :
  0 <= z ->
  SFltb (S754_zero false) (SFopp (binary_normalize prec emax z 0 false)) = false.
Proof.
  intros Hz. destruct z as [| p | p]; [reflexivity | | lia].
  unfold binary_normalize, binary_round.
  destruct (shl_align _ _ _) as [mz ez].
  unfold binary_round_aux.
  destruct (shr_fexp _ _ _ _ _) as [m1 e1].
  destruct (shr_fexp _ _ _ _ _) as [m2 e2].
  destruct (shr_m m2); [reflexivity | | reflexivity].
  destruct (e2 <=? _); reflexivity.
Qed.

Lemma floor_pos (x : float) :
  (0 <? Math_floor x)%float = true -> (0 <? x)%float = true.
Proof.
  unfold Math_floor. destruct (Prim2SF x) as [s | s | | s m e] eqn:E; auto.
  destruct (0 <=? e); auto.
  destruct s.
  - rewrite ltb_spec, opp_spec, of_uint63_spec, SF_zero.
    rewrite round_sign; [discriminate |].
    apply Uint63.to_Z_bounded.
  - intros _. rewrite ltb_spec, SF_zero, E. reflexivity.
Qed.

Lemma seconds_pos (x : float) :
  (0 <? seconds x)%float = true -> (0 <? x)%float = true.
Proof.
  unfold seconds. destruct (Number_isFinite x).
  - apply floor_pos.
  - discriminate.
Qed.

Lemma ltb_nan (x : float) : (x <? nan)%float = false.
Proof.
  rewrite ltb_spec. change (Prim2SF nan) with S754_nan.
  destruct (Prim2SF x) as [[|] | [|] | | [|] m e]; reflexivity.
Qed.

Lemma ltb_irrefl (x : float) : (x <? x)%float = false.
Proof.
  destruct (x <? x)%float eqn:E; [| reflexivity].
  pose proof (@ltb_asym _ _ E). congruence.
Qed.

(** [Math.min] never exceeds its second argument. *)
Lemma min_cap (a b : float) : (b <? Math_min a b)%float = false.
Proof.
  unfold Math_min.
  destruct (is_nan a || is_nan b)%bool; [apply ltb_nan |].
  destruct (a <? b)%float eqn:E1; [now apply ltb_asym |].
  destruct (b <? a)%float eqn:E2; [apply ltb_irrefl |].
  destruct (is_neg_zero b); [apply ltb_irrefl | exact E2].
Qed.

(** No position is more than five seconds from itself. *)
Lemma same_position (x : float) : (5 <? abs (x - x))%float = false.
Proof.
  rewrite ltb_spec, abs_spec, sub_spec.
  destruct (Prim2SF x) as [[|] | [|] | | s m e]; try reflexivity.
  unfold SF64sub, SFsub. rewrite Z.sub_diag. reflexivity.
Qed.

(** ** The whole part of a duration

    A duration that [validate] lets through is NaN or at least 10; its
    whole part is then NaN or above 0, so that the client's own validation
    lets it through as well. *)

Lemma digits2_pos_low (p : positive) :
  2 ^ (Zpos (digits2_pos p) - 1) <= Zpos p.
Proof.
  induction p as [p IH | p IH |]; cbn [digits2_pos]; [| | cbn; lia].
  all: rewrite Pos2Z.inj_succ.
  all: replace (Z.succ (Zpos (digits2_pos p)) - 1)
         with (Z.succ (Zpos (digits2_pos p) - 1)) by lia.
  all: rewrite Z.pow_succ_r by lia; lia.
Qed.

Lemma digits2_pos_high (p : positive) :
  Zpos p < 2 ^ Zpos (digits2_pos p).
Proof.
  induction p as [p IH | p IH |]; cbn [digits2_pos]; [| | cbn; lia].
  all: rewrite Pos2Z.inj_succ, Z.pow_succ_r by lia; lia.
Qed.

Lemma digits2_pos_shift (p k : positive) :
  digits2_pos (Pos.iter xO p k) = (digits2_pos p + k)%positive.
Proof.
  induction k as [| k IH] using Pos.peano_ind.
  - cbn. lia.
  - rewrite Pos.iter_succ. cbn [digits2_pos]. rewrite IH. lia.
Qed.

(** A positive integer below [2^53] is a number above 0. *)
Lemma normalize_pos (p : positive) :
  Zpos p < 2 ^ 53 ->
  exists m e, binary_normalize prec emax (Zpos p) 0 false = S754_finite false m e.
Proof.
  intros Hp.
  assert (Hd : 1 <= Zpos (digits2_pos p) <= 53).
  { split; [lia |].
    pose proof (digits2_pos_low p) as Hl.
    destruct (Z_le_gt_dec (Zpos (digits2_pos p)) 53) as [H | H]; [exact H |].
    exfalso.
    assert (2 ^ 53 <= 2 ^ (Zpos (digits2_pos p) - 1))
      by (apply Z.pow_le_mono_r; lia).
    lia. }
  unfold binary_normalize, binary_round.
  assert (Hf : fexp prec emax (Zpos (digits2_pos p) + 0)
               = Zpos (digits2_pos p) - 53).
  { unfold fexp, SpecFloat.emin, prec, emax. lia. }
  rewrite Hf. unfold shl_align.
  assert (Haux : forall mz ez,
             Zpos (digits2_pos mz) = 53 -> ez = Zpos (digits2_pos p) - 53 ->
             binary_round_aux prec emax false (Zpos mz) ez loc_Exact
             = S754_finite false mz ez).
  { intros mz ez Hmz Hez. unfold binary_round_aux.
    assert (Hs : shr_fexp prec emax (Zpos mz) ez loc_Exact
                 = ({| shr_m := Zpos mz; shr_r := false; shr_s := false |}, ez)).
    { unfold shr_fexp. cbn [Zdigits2]. rewrite Hmz.
      replace (fexp prec emax (53 + ez) - ez) with 0
        by (unfold fexp, SpecFloat.emin, prec, emax; lia).
      reflexivity. }
    rewrite Hs. cbn [shr_m loc_of_shr_record round_nearest_even]. rewrite Hs.
    cbn [shr_m].
    replace (ez <=? emax - prec) with true
      by (symmetry; apply Z.leb_le; unfold emax, prec; lia).
    reflexivity. }
  destruct (Zpos (digits2_pos p) - 53 - 0) as [| k | k] eqn:Hk; [| lia |].
  - eexists _, _. apply Haux; lia.
  - eexists _, _. apply Haux; [| reflexivity].
    rewrite digits2_pos_shift. lia.
Qed.

Lemma SF_ten : Prim2SF 10 = S754_finite false 5629499534213120 (-49).
Proof. reflexivity. Qed.

Lemma is_nan_spec (x : float) :
  is_nan x = match Prim2SF x with S754_nan => true | _ => false end.
Proof.
  unfold is_nan. rewrite FloatAxioms.eqb_spec. unfold SFeqb, SFcompare.
  destruct (Prim2SF x) as [[|] | [|] | | [|] m e]; try reflexivity.
  all: rewrite Z.compare_refl, Pos.compare_cont_refl; reflexivity.
Qed.

Lemma SFltb_not_leb (a b : spec_float) : SFltb a b = true -> SFleb b a = false.
Proof.
  unfold SFltb, SFleb, SFcompare.
  destruct a as [sa | sa | | sa ma ea], b as [sb | sb | | sb mb eb];
    try destruct sa; try destruct sb; cbn; try congruence.
  all: rewrite (Z.compare_antisym ea eb); destruct (ea ?= eb); cbn;
    try congruence.
  all: change (Pos.compare_cont Eq mb ma)
         with (Pos.compare_cont (CompOpp Eq) mb ma);
    rewrite <- Pos.compare_cont_antisym;
    destruct (Pos.compare_cont Eq ma mb); cbn; congruence.
Qed.

Lemma max0_pos (y : float) :
  (0 <? y)%float = true -> (Math_max 0 y <=? 0)%float = false.
Proof.
  intros H. unfold Math_max. change (is_nan 0) with false. cbn [orb].
  destruct (is_nan y); [reflexivity |]. rewrite H.
  rewrite leb_spec. apply SFltb_not_leb. now rewrite <- ltb_spec.
Qed.

Lemma max0_nan (y : float) :
  is_nan y = true -> (Math_max 0 y <=? 0)%float = false.
Proof.
  intros H. unfold Math_max. rewrite H, orb_true_r. reflexivity.
Qed.

(** The whole part of a number that is not below 10 is NaN or above 0. *)
Lemma floor_big (x : float) :
  (x <? 10)%float = false ->
  is_nan (Math_floor x) = true \/ (0 <? Math_floor x)%float = true.
Proof.
  intros H. rewrite ltb_spec, SF_ten in H.
  pose proof (Prim2SF_valid x) as Hvalid.
  unfold Math_floor.
  destruct (Prim2SF x) as [s | s | | s m e] eqn:E.
  - destruct s; discriminate H.
  - destruct s; [discriminate H |]. right.
    rewrite ltb_spec, SF_zero, E. reflexivity.
  - left. rewrite is_nan_spec, E. reflexivity.
  - destruct s; [discriminate H |]. right.
    destruct (0 <=? e) eqn:He.
    + rewrite ltb_spec, SF_zero, E. reflexivity.
    + apply Z.leb_gt in He.
      assert (Hlow : -49 <= e).
      { unfold SFltb, SFcompare in H.
        destruct (Z.compare_spec e (-49)); [lia | discriminate H | lia]. }
      assert (Hdig : Zpos (digits2_pos m) = 53).
      { cbn [valid_binary] in Hvalid. unfold bounded in Hvalid.
        apply andb_prop in Hvalid as [Hc _].
        unfold canonical_mantissa in Hc. apply Z.eqb_eq in Hc.
        unfold fexp, SpecFloat.emin, prec, emax in Hc. lia. }
      pose proof (digits2_pos_low m) as Hm1.
      pose proof (digits2_pos_high m) as Hm2.
      rewrite Hdig in Hm1, Hm2. change (53 - 1) with 52 in Hm1.
      set (q := Z.shiftr (Zpos m) (- e)).
      assert (Hq : 1 <= q < 2 ^ 53).
      { subst q. rewrite Z.shiftr_div_pow2 by lia.
        assert (Hpow : 0 < 2 ^ (- e)) by (apply Z.pow_pos_nonneg; lia).
        assert (Hle : 2 ^ (- e) <= 2 ^ 52) by (apply Z.pow_le_mono_r; lia).
        split.
        - apply Z.div_le_lower_bound; lia.
        - apply Z.div_lt_upper_bound; [lia |]. nia. }
      rewrite ltb_spec, SF_zero, of_uint63_spec.
      rewrite Uint63.of_Z_spec, Z.mod_small
        by (split; [lia |];
            apply Z.lt_trans with (2 ^ 53); [lia | reflexivity]).
      destruct q as [| p | p]; try lia.
      destruct (@normalize_pos p (proj2 Hq)) as (mz & ez & ->). reflexivity.
Qed.

(** ** Rendering *)

Lemma set_activity_sends (data : ActData) (w : World) (c : nat) :
  Rpc.validate_data data = true ->
  client (rpc w) = Some c ->
  ready (rpc w) = true ->
  calls (exec (Rpc.set_activity data) w) =
  SetActivity c (rendered (next_now w) data) :: calls w.
Proof.
  intros Hv Hc Hr.
  apply (wp_inv (fun _ w' => calls w' = _ :: calls w)).
  unfold Rpc.set_activity. rewrite Hv. cbn [negb].
  do 4 wp_step. rewrite Hc, Hr.
  unfold rendered, seconds, now_sec, Rpc.stop_ticker.
  wp_run; reflexivity.
Qed.

Lemma format_stranger_things :
  Rpc.format_activity (d_title stranger_things) =
  {| details := "Stranger Things"; a_state := Some "S04E09 - The Piggyback";
     largeImageKey := "netflix_logo"; largeImageText := "Netflix";
     a_type := 3; instance := false;
     startTimestamp := None; endTimestamp := None |}.
Proof. vm_compute. reflexivity. Qed.

Lemma format_inception :
  Rpc.format_activity (d_title inception) =
  {| details := "Inception"; a_state := None;
     largeImageKey := "netflix_logo"; largeImageText := "Netflix";
     a_type := 3; instance := false;
     startTimestamp := None; endTimestamp := None |}.
Proof. vm_compute. reflexivity. Qed.

Lemma rendered_timestamps (now : Z) (data : ActData) :
  is_some (startTimestamp (rendered now data)) =
    ((0 <? seconds (d_duration data))%float && d_playing data)%bool /\
  is_some (endTimestamp (rendered now data)) =
    ((0 <? seconds (d_duration data))%float && d_playing data)%bool.
Proof.
  unfold rendered, Rpc.format_activity.
  destruct ((0 <? seconds (d_duration data))%float && d_playing data)%bool; cbn;
    [auto |].
  destruct (parse_title (d_title data)); cbn; auto.
Qed.

(** C7. With a ready client, the Stranger Things sample is rendered with
    details "Stranger Things", state "S04E09 - The Piggyback", a start
    timestamp of now (in seconds) and an end timestamp 3000 seconds later;
    the paused Inception sample is rendered with details "Inception", no
    state and no timestamps.  Whatever the sample, the timestamps are sent
    together, and only when it is playing and its duration is positive. *)
Theorem render_scenarios (w : World) (c : nat) :
  client (rpc w) = Some c ->
  ready (rpc w) = true ->
  let nowSec := now_sec (next_now w) in
  calls (exec (Rpc.set_activity stranger_things) w) =
    SetActivity c
      {| details := "Stranger Things"; a_state := Some "S04E09 - The Piggyback";
         largeImageKey := "netflix_logo"; largeImageText := "Netflix";
         a_type := 3; instance := false;
         startTimestamp := Some nowSec;
         endTimestamp := Some (nowSec + 3000)%float |}
    :: calls w
  /\ calls (exec (Rpc.set_activity inception) w) =
    SetActivity c
      {| details := "Inception"; a_state := None;
         largeImageKey := "netflix_logo"; largeImageText := "Netflix";
         a_type := 3; instance := false;
         startTimestamp := None; endTimestamp := None |}
    :: calls w
  /\ forall data : ActData,
      Rpc.validate_data data = true ->
      exists a : Activity,
        calls (exec (Rpc.set_activity data) w) = SetActivity c a :: calls w
        /\ is_some (startTimestamp a) = is_some (endTimestamp a)
        /\ (is_some (startTimestamp a) = true ->
            d_playing data = true /\ (0 <? d_duration data)%float = true).
Proof.
  intros Hc Hr nowSec. repeat split.
  - rewrite (@set_activity_sends stranger_things w c) by (reflexivity || assumption).
    unfold rendered. rewrite format_stranger_things.
    change (seconds (d_current stranger_things)) with 0%float.
    change (seconds (d_duration stranger_things)) with 3000%float.
    cbn. fold nowSec. now rewrite sub_zero.
  - rewrite (@set_activity_sends inception w c) by (reflexivity || assumption).
    unfold rendered. rewrite format_inception. reflexivity.
  - intros data Hv. exists (rendered (next_now w) data).
    destruct (rendered_timestamps (next_now w) data) as [Hs He].
    split; [now apply set_activity_sends |].
    split; [congruence |].
    rewrite Hs. intros H. apply andb_prop in H. destruct H as [Hd Hp].
    split; [exact Hp |]. now apply seconds_pos.
Qed.

(** ** The RPC client never throws and never touches the service *)

Lemma stop_ticker_frame w :
  wp Rpc.stop_ticker (fun r w' => returned r /\ service_untouched w w') w.
Proof. unfold Rpc.stop_ticker. wp_run; frame_done. Qed.

Lemma set_activity_frame data w :
  wp (Rpc.set_activity data) (fun r w' => returned r /\ service_untouched w w') w.
Proof.
  unfold Rpc.set_activity, Rpc.stop_ticker. wp_run; frame_done.
Qed.

Lemma clear_activity_frame w :
  wp Rpc.clear_activity (fun r w' => returned r /\ service_untouched w w') w.
Proof.
  unfold Rpc.clear_activity, Rpc.stop_ticker. wp_run; frame_done.
Qed.

Lemma update_frame data w :
  wp (Rpc.update data) (fun r w' => returned r /\ service_untouched w w') w.
Proof.
  unfold Rpc.update, Rpc.is_connected. wp_run; try solve [frame_done].
  apply set_activity_frame.
Qed.

Lemma pause_frame w :
  wp Rpc.pause (fun r w' => returned r /\ service_untouched w w') w.
Proof.
  unfold Rpc.pause. wp_run; try solve [frame_done]. apply set_activity_frame.
Qed.

Lemma resume_frame w :
  wp Rpc.resume (fun r w' => returned r /\ service_untouched w w') w.
Proof.
  unfold Rpc.resume. wp_run; try solve [frame_done]. apply set_activity_frame.
Qed.

Lemma destroy_frame w :
  wp Rpc.destroy (fun r w' => returned r /\ service_untouched w w') w.
Proof.
  unfold Rpc.destroy, Rpc.disconnect, Rpc.stop_ticker. wp_run; frame_done.
Qed.

Lemma disconnect_frame w :
  wp Rpc.disconnect (fun r w' => returned r /\ service_untouched w w') w.
Proof. unfold Rpc.disconnect. wp_run; frame_done. Qed.

Lemma create_frame id w :
  wp (Rpc.create id) (fun r w' => returned r /\ service_untouched w w') w.
Proof.
  unfold Rpc.create. do 3 wp_step. unfold when.
  destruct (is_some (client (rpc w))).
  - wp_use destroy_frame. destruct H as [[a ->] F]. wp_run; frame_done.
  - wp_run; frame_done.
Qed.

Lemma connect_frame id w :
  wp (Rpc.connect id) (fun r w' => returned r /\ service_untouched w w') w.
Proof.
  unfold Rpc.connect. do 3 wp_step; [wp_run; frame_done |].
  do 2 wp_step. wp_use create_frame. destruct H as [[a ->] F].
  wp_run; frame_done.
Qed.

Lemma reconnect_frame w :
  wp Rpc.reconnect (fun r w' => returned r /\ service_untouched w w') w.
Proof.
  unfold Rpc.reconnect. wp_run; try solve [frame_done]. apply connect_frame.
Qed.

Lemma handle_ready_frame w :
  wp Rpc.handle_ready (fun r w' => returned r /\ service_untouched w w') w.
Proof.
  unfold Rpc.handle_ready. wp_run; try solve [frame_done].
  wp_use set_activity_frame. destruct r; wp_run; frame_done.
Qed.

Lemma handle_disconnect_frame w :
  wp Rpc.handle_disconnect (fun r w' => returned r /\ service_untouched w w') w.
Proof. unfold Rpc.handle_disconnect. wp_run; frame_done. Qed.

Lemma handle_error_frame w :
  wp Rpc.handle_error (fun r w' => returned r /\ service_untouched w w') w.
Proof. unfold Rpc.handle_error. wp_run; frame_done. Qed.

Lemma tick_frame w :
  wp Rpc.tick (fun r w' => returned r /\ service_untouched w w') w.
Proof. unfold Rpc.tick. wp_run; frame_done. Qed.

(** Not connected: [update] reports it and does nothing. *)
Lemma update_not_connected data w :
  (connected (rpc w) && ready (rpc w))%bool = false ->
  Rpc.update data w = (Ok false, w).
Proof.
  intros H. unfold Rpc.update, Rpc.is_connected, bind, get.
  destruct (Rpc.validate_data data); cbn; [rewrite H |]; reflexivity.
Qed.

(** ** The service's helpers never throw and never touch the client *)

Lemma end_session_frame w :
  wp Netflix.end_session
    (fun r w' => returned r /\ client_untouched w w' /\ timers w' = timers w
                 /\ cache w' = cache w
                 /\ svc w' = Netflix.set_session None (svc w)) w.
Proof.
  unfold Netflix.end_session. wp_run; try solve [frame_done].
  repeat split; try solve [frame_done].
  revert Heqo. destruct (svc w); cbn. now intros ->.
Qed.

Lemma create_session_frame n w :
  wp (Netflix.create_session n)
    (fun r w' => client_untouched w w' /\ timers w' = timers w
                 /\ cache w' = cache w
                 /\ exists s, r = Ok s /\ s_title s = title n
                      /\ watched s = 0%float
                      /\ svc w' = Netflix.set_session (Some s) (svc w)) w.
Proof.
  unfold Netflix.create_session, Netflix.generate_id. wp_run.
  split; [frame_done |]. do 2 (split; [reflexivity |]).
  eexists. repeat split.
Qed.

Lemma normalize_frame d w :
  wp (Netflix.normalize d)
    (fun r w' => returned r /\ service_untouched w w' /\ client_untouched w w'
                 /\ timers w' = timers w) w.
Proof. unfold Netflix.normalize, Netflix.sanitize. wp_run; frame_done. Qed.

Lemma should_update_frame n w :
  wp (Netflix.should_update n)
    (fun r w' => returned r /\ service_untouched w w' /\ client_untouched w w'
                 /\ timers w' = timers w) w.
Proof. unfold Netflix.should_update. wp_run; frame_done. Qed.

(** ** The change detector *)

Lemma compare_changed c n :
  Netflix.compare (Some c) (Some n) = true <-> changed c n.
Proof.
  unfold Netflix.compare, changed.
  destruct (String.eqb_spec (title c) (title n)) as [Ht | Ht]; cbn.
  2: { split; auto. }
  destruct (playing c) eqn:Hc, (playing n) eqn:Hn; cbn;
    try (split; [intros _; right; left; congruence | reflexivity]).
  all: destruct (_ <? _)%float;
    split; auto; try discriminate;
    intros [H1 | [H1 | H1]]; congruence.
Qed.

Lemma should_update_spec n w :
  exists b w',
    Netflix.should_update n w = (Ok b, w')
    /\ (b = true <-> propagates w n (next_now w))
    /\ service_untouched w w' /\ client_untouched w w' /\ timers w' = timers w.
Proof.
  unfold Netflix.should_update, propagates, bind, get, ret.
  destruct (st_current (svc w)) as [c |] eqn:Hc.
  2: { exists true, w. repeat split; auto. }
  destruct (Netflix.compare (Some c) (Some n)) eqn:Hcmp; cbn.
  - unfold Date_now. cbn. fold (next_now w).
    destruct (Z.ltb_spec (next_now w - lastUpdate (svc w)) 1000).
    + eexists false, _. split; [reflexivity |]. split; [| frame_done].
      split; [discriminate |]. intros [? | (c' & _ & _ & ?)]; [discriminate | lia].
    + eexists true, _. split; [reflexivity |]. split; [| frame_done].
      split; auto. intros _. right. exists c. repeat split; auto.
      now apply compare_changed.
  - exists false, w. split; [reflexivity |]. split; [| frame_done].
    split; [discriminate |].
    intros [? | (c' & Hc' & Hch & _)]; [discriminate |].
    injection Hc' as <-. apply compare_changed in Hch. congruence.
Qed.

(** ** [process] *)

Lemma bind_ok {A B} {m : M A} (k : A -> M B) {w a w'} :
  m w = (Ok a, w') -> bind m k w = k a w'.
Proof. unfold bind. now intros ->. Qed.

Lemma normalize_total d w :
  exists n w', Netflix.normalize d w = (Ok n, w').
Proof.
  pose proof (normalize_frame d w) as H. unfold wp in H.
  destruct (Netflix.normalize d w) as [[n | msg] w'].
  - eauto.
  - destruct H as [[a Ha] _]. discriminate.
Qed.

Lemma process_invalid d w :
  Netflix.validate d = false ->
  Netflix.process d w =
  (Ok (RError "invalid"), set_logs ((LWarn, "Invalid data received") :: logs w) w).
Proof. intros H. unfold Netflix.process. rewrite H. reflexivity. Qed.

Lemma process_suppressed d w n w1 w2 :
  Netflix.validate d = true ->
  Netflix.normalize d w = (Ok n, w1) ->
  Netflix.should_update n w1 = (Ok false, w2) ->
  Netflix.process d w = (Ok RCached, set_cache (hit (cache w2)) w2).
Proof.
  intros Hv Hn Hs. unfold Netflix.process. rewrite Hv. cbn [negb].
  rewrite (bind_ok _ Hn), (bind_ok _ Hs). reflexivity.
Qed.

Lemma update_session_frame n w :
  wp (Netflix.update_session n)
    (fun r w' => client_untouched w w' /\ timers w' = timers w
                 /\ cache w' = cache w
                 /\ exists s, r = Ok s /\ s_title s = title n
                      /\ svc w' = Netflix.set_session (Some s) (svc w)) w.
Proof.
  unfold Netflix.update_session. wp_step. wp_step. wp_step.
  - wp_step.
    + wp_step. wp_use end_session_frame.
      destruct H as ([a ->] & Hc & Ht & Hca & Hs).
      wp_use create_session_frame.
      destruct H as (Hc' & Ht' & Hca' & s' & -> & Hti & _ & Hs').
      split; [frame_done |]. do 2 (split; [congruence |]).
      exists s'. repeat split; auto. rewrite Hs', Hs. reflexivity.
    + apply negb_false_iff, String.eqb_eq in Heqb.
      wp_run;
        (split; [frame_done |]); do 2 (split; [reflexivity |]);
        eexists; (split; [reflexivity |]); (split; [| reflexivity]);
        repeat match goal with
               | |- context [if ?b then _ else _] => destruct b
               end; exact Heqb.
  - wp_use create_session_frame.
    destruct H as (Hc' & Ht' & Hca' & s' & -> & Hti & _ & Hs').
    do 3 (split; [assumption |]). eauto.
Qed.

Lemma reset_timeout_arms w :
  wp Netflix.reset_timeout
    (fun r w' =>
       r = Ok tt /\ client_untouched w w' /\ cache w' = cache w
       /\ logs w' = logs w
       /\ svc w' = Netflix.set_timeout (Some (next_timer (ctr w))) (svc w)
       /\ exists rest,
           timers w' =
           {| tid := next_timer (ctr w); delay := 60000;
              callback := CbWatchdog; repeating := false |} :: rest) w.
Proof.
  unfold Netflix.reset_timeout. wp_run; (repeat split; try solve [frame_done]); eauto.
Qed.

Lemma process_accepted d w n w1 w2 :
  Netflix.validate d = true ->
  Netflix.normalize d w = (Ok n, w1) ->
  Netflix.should_update n w1 = (Ok true, w2) ->
  wp (Netflix.process d) (accepted w n) w.
Proof.
  intros Hv Hn Hs. unfold Netflix.process. rewrite Hv. cbn [negb].
  pose proof (normalize_frame d w) as F1. unfold wp in F1. rewrite Hn in F1.
  pose proof (should_update_frame n w1) as F2. unfold wp in F2. rewrite Hs in F2.
  cbn in F1, F2.
  destruct F1 as (_ & (E1 & S1 & C1 & L1) & _).
  destruct F2 as (_ & (E2 & S2 & C2 & L2) & _).
  wp_step. wp_at Hn. wp_step. wp_at Hs.
  do 2 wp_step.
  wp_step. wp_use update_session_frame.
  destruct H as (_ & _ & Hca & s & -> & Hti & Hsv).
  wp_step. wp_use reset_timeout_arms.
  destruct H as (-> & _ & Hca' & _ & Hsv' & _).
  do 12 wp_step.
  wp_step. wp_step. wp_use update_frame.
  destruct H as ([b ->] & _ & Hsv'' & Hca'' & _).
  cbn in Hsv'', Hca''.
  wp_run. unfold accepted. exists s. cbn.
  rewrite Hsv'', Hca'', Hca', Hca, Hsv', Hsv. cbn.
  rewrite C2, C1, S2, S1. repeat split; assumption || reflexivity.
Qed.

Lemma propagates_svc w w' n t :
  svc w' = svc w -> propagates w' n t <-> propagates w n t.
Proof. unfold propagates. now intros ->. Qed.

Lemma normalize_fields d w n w' :
  Netflix.normalize d w = (Ok n, w') ->
  title n = slice0 Netflix.maxTitle (Netflix.as_string (field "title" d))
  /\ current n = Math_max 0 (Math_floor (Netflix.as_number (field "current" d)))
  /\ duration n = Math_max 0 (Math_floor (Netflix.as_number (field "duration" d)))
  /\ playing n = truthy (field "playing" d).
Proof.
  unfold Netflix.normalize, Netflix.sanitize, bind, ret, Date_now.
  destruct (truthy (field "timestamp" d)); cbn; intros [= <- _]; cbn; auto.
Qed.

(** The session tracker reads nothing of the cache. *)
Lemma update_session_cache n w c :
  Netflix.update_session n (set_cache c w) =
  (result (Netflix.update_session n) w,
   set_cache c (exec (Netflix.update_session n) w)).
Proof.
  unfold result, exec, Netflix.update_session, Netflix.create_session,
    Netflix.end_session, Netflix.generate_id, bind, get, ret, Date_now,
    Math_random, upd_svc, modify, log.
  cbn.
  destruct (st_session (svc w)) as [s |] eqn:Hs; cbn; [| reflexivity].
  destruct (negb (String.eqb (s_title s) (title n))); cbn.
  { rewrite Hs. reflexivity. }
  destruct (st_current (svc w)) as [c0 |]; cbn; [| reflexivity].
  destruct (playing n); reflexivity.
Qed.

(** An accepted sample records the time at which it was accepted. *)
Lemma process_records d w n w1 w2 :
  Netflix.validate d = true ->
  Netflix.normalize d w = (Ok n, w1) ->
  Netflix.should_update n w1 = (Ok true, w2) ->
  lastUpdate (svc (exec (Netflix.process d) w)) =
  next_now (exec (Netflix.update_session n) w2).
Proof.
  intros Hv Hn Hs.
  apply (wp_inv (fun _ w' => lastUpdate (svc w') = _)).
  unfold Netflix.process. rewrite Hv. cbn [negb].
  wp_step. wp_at Hn. wp_step. wp_at Hs.
  do 2 wp_step. fold (miss (cache w2)).
  wp_step. eapply wp_eq; [apply update_session_cache |].
  set (wu := exec (Netflix.update_session n) w2).
  pose proof (update_session_frame n w2) as F. unfold wp in F.
  fold (result (Netflix.update_session n) w2) in F.
  fold (exec (Netflix.update_session n) w2) in F. fold wu in F.
  destruct F as (_ & _ & _ & s & -> & _ & _).
  unfold Netflix.reset_timeout.
  wp_run.
  all: wp_use update_frame.
  all: destruct H as ([b ->] & _ & Hsv & _); cbn in Hsv.
  all: wp_run.
  all: rewrite Hsv; reflexivity.
Qed.

(** The two ways out of [process] for a valid sample. *)
Lemma process_cases d w n w1 :
  Netflix.validate d = true ->
  Netflix.normalize d w = (Ok n, w1) ->
  let r := result (Netflix.process d) w in
  let w' := exec (Netflix.process d) w in
  (propagates w n (next_now w1) /\ accepted w n r w')
  \/ (~ propagates w n (next_now w1)
      /\ r = Ok RCached
      /\ svc w' = svc w /\ timers w' = timers w /\ rpc w' = rpc w
      /\ calls w' = calls w /\ logs w' = logs w /\ cache w' = hit (cache w)).
Proof.
  intros Hv Hn r w'.
  pose proof (normalize_frame d w) as F1. unfold wp in F1. rewrite Hn in F1.
  destruct F1 as (_ & (_ & S1 & C1 & L1) & (_ & R1 & K1 & _) & T1). cbn in *.
  destruct (should_update_spec n w1)
    as (b & w2 & Hs & Hb & (_ & S2 & C2 & L2) & (_ & R2 & K2 & _) & T2).
  rewrite (@propagates_svc w w1 n (next_now w1) S1) in Hb.
  destruct b.
  - left. split; [now apply Hb |].
    exact (@process_accepted d w n w1 w2 Hv Hn Hs).
  - right. split; [intros H; apply Hb in H; discriminate |].
    subst r w'. unfold result, exec.
    rewrite (@process_suppressed d w n w1 w2 Hv Hn Hs). cbn.
    repeat split; congruence.
Qed.

(** C1. A sample accepted by the normalizer is propagated exactly when there
    is no current sample, or when it differs from the current sample (title,
    playing flag, or position by more than 5) and at least 1000 ms elapsed
    since the last propagated update; in every other case it is answered
    from the cache and the state of the service is left as it is.  The time
    of the last propagated update is what a propagated sample records: the
    reading of the clock that follows those of the change detector and of
    the session tracker; a suppressed sample leaves it as it was. *)
Theorem process_propagates_iff (d : jsval) (w : World) (n : Sample) (w1 : World) :
  Netflix.validate d = true ->
  Netflix.normalize d w = (Ok n, w1) ->
  let now := next_now w1 in
  let r := result (Netflix.process d) w in
  let w' := exec (Netflix.process d) w in
  (propagates w n now <->
   accepted w n r w' /\ lastUpdate (svc w') = recorded w1 n)
  /\ (~ propagates w n now <-> r = Ok RCached /\ svc w' = svc w).
Proof.
  intros Hv Hn now r w'.
  destruct (@process_cases d w n w1 Hv Hn)
    as [[Hp Ha] | (Hp & Hr & Hsvc & _)]; fold now r w' in Hp |- *.
  - split.
    + split; [| tauto]. intros _. split; [exact Ha |].
      destruct (should_update_spec n w1) as (b & w2 & Hs & Hb & _).
      assert (b = true) as ->.
      { apply Hb.
        pose proof (normalize_frame d w) as F1. unfold wp in F1.
        rewrite Hn in F1. destruct F1 as (_ & (_ & S1 & _) & _). cbn in S1.
        now apply (@propagates_svc w w1 n now S1). }
      subst w'. rewrite (@process_records d w n w1 w2 Hv Hn Hs).
      unfold recorded.
      replace (exec (Netflix.should_update n) w1) with w2
        by (unfold exec; now rewrite Hs).
      reflexivity.
    + split; [tauto |].
      intros [Hr _]. destruct Ha as (s & Hr' & _). fold r in Hr'. congruence.
  - split; [| tauto].
    split; [tauto |]. intros [(s & Hr' & _) _]. fold r in Hr. congruence.
Qed.

Lemma process_leaves_current d w :
  Netflix.validate d = true ->
  st_current (svc (exec (Netflix.process d) w)) <> None.
Proof.
  intros Hv. destruct (normalize_total d w) as (n & w1 & Hn).
  destruct (@process_cases d w n w1 Hv Hn)
    as [[_ (s & _ & _ & _ & Hc & _)] | (Hp & _ & Hsvc & _)].
  - congruence.
  - rewrite Hsvc. intros E. apply Hp. now left.
Qed.

(** A sample that was just propagated is not propagated again, whatever the
    clock says: it does not differ from the current sample. *)
Lemma process_same_sample_cached d w n w1 :
  Netflix.validate d = true ->
  Netflix.normalize d w = (Ok n, w1) ->
  propagates w n (next_now w1) ->
  result (Netflix.process d) (exec (Netflix.process d) w) = Ok RCached.
Proof.
  intros Hv Hn Hp.
  destruct (@process_cases d w n w1 Hv Hn) as [[_ Ha] | [Hnp _]]; [| tauto].
  destruct Ha as (s & _ & _ & _ & Hcur & _).
  set (wa := exec (Netflix.process d) w) in *.
  destruct (normalize_total d wa) as (n' & wb & Hn').
  destruct (@process_cases d wa n' wb Hv Hn') as [[Hp' _] | (_ & Hr & _)];
    [exfalso | exact Hr].
  destruct (@normalize_fields d w n w1 Hn) as (Ht & Hc & _ & Hpl).
  destruct (@normalize_fields d wa n' wb Hn') as (Ht' & Hc' & _ & Hpl').
  destruct Hp' as [Hnone | (c & Hc0 & Hch & _)]; [congruence |].
  assert (c = n) by congruence. subst c.
  destruct Hch as [H | [H | H]].
  - apply H. congruence.
  - apply H. congruence.
  - rewrite Hc, Hc' in H. unfold Netflix.threshold, Math_abs in H.
    rewrite same_position in H. discriminate H.
Qed.

(** C2. A second call of [process] with the same valid sample, examined
    within the throttle window, returns the cached answer and changes
    nothing but the hit counter: no session mutation, no watchdog reset, no
    call to the presence connection. *)
Theorem process_twice_cached (d : jsval) (w : World) :
  Netflix.validate d = true ->
  let w1 := exec (Netflix.process d) w in
  let now := next_now (exec (Netflix.normalize d) w1) in
  now - lastUpdate (svc w1) < 1000 ->
  let w2 := exec (Netflix.process d) w1 in
  result (Netflix.process d) w1 = Ok RCached
  /\ svc w2 = svc w1 /\ timers w2 = timers w1
  /\ rpc w2 = rpc w1 /\ calls w2 = calls w1 /\ logs w2 = logs w1
  /\ cache w2 = hit (cache w1).
Proof.
  intros Hv w1 now Hwin w2.
  destruct (normalize_total d w1) as (n' & wb & Hn').
  assert (Hnow : now = next_now wb).
  { subst now. unfold exec. now rewrite Hn'. }
  destruct (@process_cases d w1 n' wb Hv Hn') as [[Hp _] | (_ & H)].
  - exfalso. destruct Hp as [Hnone | (c & _ & _ & Hel)].
    + exact (@process_leaves_current d w Hv Hnone).
    + rewrite <- Hnow in Hel. lia.
  - exact H.
Qed.
(** ** The session tracker *)

Lemma update_session_same_title n w s c :
  st_session (svc w) = Some s ->
  s_title s = title n ->
  st_current (svc w) = Some c ->
  let elapsed :=
    (of_Z (clock (env w) (S (ticks (ctr w))) - lastUpdate (svc w)) / 1000)%float in
  let w' := exec (Netflix.update_session n) w in
  exists s',
    st_session (svc w') = Some s'
    /\ watched s' =
       (if playing n
        then (watched s + Math_min elapsed Netflix.threshold)%float
        else watched s)
    /\ next_now w' =
       clock (env w) (ticks (ctr w) + (if playing n then 2 else 1)).
Proof.
  intros Hs Ht Hc elapsed w'. subst w'.
  apply (wp_inv (fun _ w' =>
           exists s', st_session (svc w') = Some s'
             /\ watched s' =
                (if playing n
                 then (watched s + Math_min elapsed Netflix.threshold)%float
                 else watched s)
             /\ next_now w' =
                clock (env w) (ticks (ctr w) + (if playing n then 2 else 1)))).
  unfold Netflix.update_session. do 2 wp_step. rewrite Hs.
  rewrite Ht, String.eqb_refl. cbn [negb].
  do 4 wp_step. rewrite Hc. subst elapsed.
  wp_run; eexists; (split; [reflexivity |]); unfold next_now; cbn;
    rewrite ?Nat.add_1_r;
    (split; [| try reflexivity]);
    repeat match goal with
           | |- context [if ?b then _ else _] => destruct b
           end; try reflexivity; f_equal; lia.
Qed.

Lemma process_session d w n w1 w2 :
  Netflix.validate d = true ->
  Netflix.normalize d w = (Ok n, w1) ->
  Netflix.should_update n w1 = (Ok true, w2) ->
  st_session (svc (exec (Netflix.process d) w)) =
  st_session (svc (exec (Netflix.update_session n) w2)).
Proof.
  intros Hv Hn Hs.
  apply (wp_inv (fun _ w' => st_session (svc w') = _)).
  unfold Netflix.process. rewrite Hv. cbn [negb].
  wp_step. wp_at Hn. wp_step. wp_at Hs.
  do 2 wp_step. fold (miss (cache w2)).
  wp_step. eapply wp_eq; [apply update_session_cache |].
  set (wu := exec (Netflix.update_session n) w2).
  pose proof (update_session_frame n w2) as F. unfold wp in F.
  fold (result (Netflix.update_session n) w2) in F.
  fold (exec (Netflix.update_session n) w2) in F. fold wu in F.
  destruct F as (_ & _ & _ & s & -> & _ & _).
  unfold Netflix.reset_timeout.
  wp_run.
  all: wp_use update_frame.
  all: destruct H as ([b ->] & _ & Hsv & _); cbn in Hsv.
  all: wp_run.
  all: rewrite Hsv; reflexivity.
Qed.

(** C6. An accepted sample applied to the open session of the same title
    adds watch time only when it is playing, and then adds the seconds
    elapsed since the last update, capped at the threshold of 5: what is
    added never exceeds 5.  The seconds are counted from
    [state.lastUpdate], where the sample records its own time in turn, the
    reading of the clock that follows those of the session tracker: the
    next gap is counted from this sample.  The session is open over a
    current sample, as it is in every reachable world
    ([reachable_session_inv]). *)
Theorem watch_time_accrual (d : jsval) (w : World) (n : Sample) (w1 w2 : World)
    (s : Session) :
  Netflix.validate d = true ->
  Netflix.normalize d w = (Ok n, w1) ->
  Netflix.should_update n w1 = (Ok true, w2) ->
  session_inv w ->
  st_session (svc w) = Some s ->
  s_title s = title n ->
  let now := clock (env w) (S (ticks (ctr w2))) in
  let elapsed := (of_Z (now - lastUpdate (svc w)) / 1000)%float in
  let added := Math_min elapsed 5 in
  let w' := exec (Netflix.process d) w in
  exists s',
    st_session (svc w') = Some s'
    /\ watched s' = (if playing n then (watched s + added)%float else watched s)
    /\ (5 <? added)%float = false
    /\ lastUpdate (svc w') =
       clock (env w) (ticks (ctr w2) + (if playing n then 2 else 1)).
Proof.
  intros Hv Hn Hs Hinv Hse Ht now elapsed added w'.
  pose proof (normalize_frame d w) as F1. unfold wp in F1. rewrite Hn in F1.
  pose proof (should_update_frame n w1) as F2. unfold wp in F2. rewrite Hs in F2.
  cbn in F1, F2.
  destruct F1 as (_ & (E1 & S1 & _) & _).
  destruct F2 as (_ & (E2 & S2 & _) & _).
  destruct (st_current (svc w)) as [c |] eqn:Hc.
  2: { exfalso. apply Hinv; congruence. }
  subst w'.
  rewrite (@process_session d w n w1 w2 Hv Hn Hs).
  rewrite (@process_records d w n w1 w2 Hv Hn Hs).
  destruct (@update_session_same_title n w2 s c) as (s' & Hs' & Hw & Hk);
    try congruence.
  exists s'. split; [exact Hs' |].
  rewrite E2, E1, S2, S1 in Hw. rewrite E2, E1 in Hk.
  split; [exact Hw |]. split; [apply min_cap | exact Hk].
Qed.

(** ** Stopping, resetting, timing out *)

Ltac rew_all :=
  repeat match goal with
         | H : _ = _ |- _ => progress (rewrite H in * )
         end.

Ltac post_done :=
  cbn; repeat split; cbn; intros; rew_all; cbn in *;
  unfold Netflix.set_paused, Netflix.set_previous, Netflix.set_current,
    Netflix.set_session, Netflix.set_timeout, Netflix.set_lastUpdate in *;
  cbn in *; try reflexivity; try congruence; try discriminate.

Lemma handle_timeout_spec w :
  wp Netflix.handle_timeout
    (fun r w' =>
       r = Ok tt
       /\ svc w' = {| st_current := None; st_previous := None;
                      lastUpdate := lastUpdate (svc w);
                      st_session := None; paused := false;
                      st_timeout := st_timeout (svc w) |}
       /\ cache w' = cache w
       /\ timers w' =
          cancelled (if clear_succeeds w then ticker (rpc w) else None) (timers w)
       /\ calls w' = clear_sent w
       /\ (clear_succeeds w = true ->
           activity (rpc w') = None /\ ticker (rpc w') = None)) w.
Proof.
  unfold Netflix.handle_timeout, Netflix.end_session, Rpc.clear,
    Rpc.clear_activity, Rpc.stop_ticker, clear_sent, clear_succeeds.
  wp_run. all: post_done.
Qed.

Lemma stop_spec w :
  wp Netflix.stop
    (fun r w' =>
       r = Ok AOk
       /\ svc w' = {| st_current := None; st_previous := None;
                      lastUpdate := lastUpdate (svc w);
                      st_session := None; paused := false;
                      st_timeout := None |}
       /\ cache w' = cache w
       /\ calls w' = clear_sent w
       /\ (clear_succeeds w = true ->
           activity (rpc w') = None /\ ticker (rpc w') = None)) w.
Proof.
  unfold Netflix.stop, Netflix.end_session, Rpc.clear,
    Rpc.clear_activity, Rpc.stop_ticker, clear_sent, clear_succeeds.
  wp_run. all: post_done.
Qed.

Lemma reset_spec w :
  wp Netflix.reset
    (fun r w' =>
       r = Ok tt
       /\ svc w' = Netflix.init /\ cache w' = Netflix.init_cache
       /\ timers w' = cancelled (st_timeout (svc w)) (timers w)
       /\ rpc w' = rpc w /\ calls w' = calls w /\ env w' = env w) w.
Proof.
  unfold Netflix.reset, Netflix.end_session, cancelled.
  wp_run. all: post_done.
Qed.

Lemma fire_watchdog (w : World) (t : Timer) :
  find (fun t' => Nat.eqb (tid t') (tid t)) (timers w) = Some t ->
  callback t = CbWatchdog ->
  wp (fire (tid t))
    (fun _ w' =>
       svc w' = {| st_current := None; st_previous := None;
                   lastUpdate := lastUpdate (svc w);
                   st_session := None; paused := false;
                   st_timeout := st_timeout (svc w) |}
       /\ calls w' = clear_sent w
       /\ (clear_succeeds w = true -> activity (rpc w') = None)) w.
Proof.
  intros Hf Hc.
  unfold fire. do 2 wp_step. rewrite Hf, Hc.
  wp_step.
  assert (Hframe : forall w0 : World,
             rpc w0 = rpc w -> calls w0 = calls w -> env w0 = env w ->
             libs (ctr w0) = libs (ctr w) ->
             clear_sent w0 = clear_sent w /\ clear_succeeds w0 = clear_succeeds w).
  { intros w0 H1 H2 H3 H4. unfold clear_sent, clear_succeeds.
    now rewrite H1, H2, H3, H4. }
  destruct (repeating t); wp_step; cbn;
    (wp_use handle_timeout_spec;
     destruct H as (-> & Hsvc & _ & _ & Hcalls & Hact);
     match type of Hcalls with
     | _ = clear_sent ?w0 =>
         destruct (Hframe w0) as [E1 E2]; try reflexivity
     end;
     try rewrite E1 in Hcalls; try rewrite E2 in Hact;
     split; [exact Hsvc |]; split; [exact Hcalls |]; apply Hact).
Qed.

(** C5. When the watchdog timer fires, the session is ended, the presence
    connection is told to clear its activity (and clears it when it is ready
    and the call succeeds), the current and previous samples are dropped, and
    [status()] reports an inactive service without a session. *)
Theorem watchdog_fires (w : World) (t : Timer) :
  find (fun t' => Nat.eqb (tid t') (tid t)) (timers w) = Some t ->
  callback t = CbWatchdog ->
  let w' := exec (fire (tid t)) w in
  st_session (svc w') = None
  /\ calls w' = clear_sent w
  /\ (clear_succeeds w = true -> activity (rpc w') = None)
  /\ st_current (svc w') = None /\ st_previous (svc w') = None
  /\ active (Netflix.status w') = false
  /\ status_session (Netflix.status w') = None.
Proof.
  intros Hf Hc w'.
  destruct (@fire_watchdog w t Hf Hc) as (Hsvc & Hcalls & Hact).
  fold (exec (fire (tid t)) w) in Hsvc, Hcalls, Hact. fold w' in Hsvc, Hcalls, Hact.
  unfold Netflix.status. rewrite Hsvc. cbn. repeat split; auto.
Qed.

(** C4, as the code has it. [reset] ends the session, cancels the watchdog
    timer, drops the current and previous samples (the whole state of the
    service is back to its initial value) and clears the cache, counters
    included; it does not touch the presence connection: the activity on
    display stays and nothing is sent to the client. *)
Theorem reset_effect (w : World) :
  let w' := exec Netflix.reset w in
  result Netflix.reset w = Ok tt
  /\ st_session (svc w') = None /\ st_timeout (svc w') = None
  /\ timers w' = cancelled (st_timeout (svc w)) (timers w)
  /\ st_current (svc w') = None /\ st_previous (svc w') = None
  /\ hits (cache w') = 0 /\ misses (cache w') = 0
  /\ svc w' = Netflix.init /\ cache w' = Netflix.init_cache
  /\ rpc w' = rpc w /\ calls w' = calls w.
Proof.
  intros w'. subst w'.
  destruct (reset_spec w) as (Hr & Hs & Hc & Ht & Hrpc & Hcalls & _).
  fold (result Netflix.reset w) in Hr. fold (exec Netflix.reset w) in *.
  rewrite Hs, Hc. repeat split; auto.
Qed.

(** C4, as the spec states it, fails: a presence on display survives
    [reset], where [stop] clears it. *)
Lemma reset_keeps_presence :
  ~ reset_as_claimed showing
  /\ activity (rpc (exec Netflix.reset showing)) = activity (rpc showing)
  /\ activity (rpc showing) <> None
  /\ activity (rpc (exec Netflix.stop showing)) = None.
Proof.
  assert (H : activity (rpc (exec Netflix.reset showing)) <> None)
    by (vm_compute; discriminate).
  split; [intros (Ha & _); exact (H Ha) |].
  split; [vm_compute; reflexivity |].
  split; [vm_compute; discriminate | vm_compute; reflexivity].
Qed.

(** ** A session is only open over a current sample *)

Lemma exec_then_ret {A B} (m : M A) (b : B) (w : World) :
  exec (bind m (fun _ => ret b)) w = exec m w.
Proof. unfold exec, bind, ret. destruct (m w) as [[a | msg] w']; reflexivity. Qed.

Lemma session_inv_svc w w' : svc w' = svc w -> session_inv w -> session_inv w'.
Proof. unfold session_inv. now intros ->. Qed.

Lemma untouched_session_inv {A} (m : M A) w :
  wp m (fun r w' => returned r /\ service_untouched w w') w ->
  session_inv w -> session_inv (exec m w).
Proof.
  intros (_ & _ & H & _). apply session_inv_svc. exact H.
Qed.

Lemma pause_svc w :
  wp Netflix.pause
    (fun _ w' => st_session (svc w') = st_session (svc w)
                 /\ st_current (svc w') = st_current (svc w)) w.
Proof.
  unfold Netflix.pause. wp_run; [| split; congruence].
  wp_use pause_frame. destruct H as ([b ->] & _ & Hs & _).
  wp_run. cbn. rewrite Hs. split; congruence.
Qed.

Lemma resume_svc w :
  wp Netflix.resume
    (fun _ w' => st_session (svc w') = st_session (svc w)
                 /\ st_current (svc w') = st_current (svc w)) w.
Proof.
  unfold Netflix.resume. wp_run; [| split; congruence].
  wp_use resume_frame. destruct H as ([b ->] & _ & Hs & _).
  wp_run. cbn. rewrite Hs. split; congruence.
Qed.

Lemma fire_session_inv id w : session_inv w -> session_inv (exec (fire id) w).
Proof.
  intros Hinv. unfold session_inv.
  apply (wp_inv (fun _ w' => st_session (svc w') <> None -> st_current (svc w') <> None)).
  unfold fire. wp_run; try exact Hinv.
  all: lazymatch goal with
       | |- wp Rpc.tick _ _ =>
           wp_use tick_frame; destruct H as (_ & _ & -> & _); exact Hinv
       | |- wp Rpc.reconnect _ _ =>
           wp_use reconnect_frame; destruct H as ([b ->] & _ & Hs & _);
           wp_run; cbn; rewrite Hs; exact Hinv
       | |- wp Netflix.handle_timeout _ _ =>
           wp_use handle_timeout_spec; destruct H as (_ & -> & _); cbn; congruence
       end.
Qed.

Lemma step_session_inv ev w : session_inv w -> session_inv (step ev w).
Proof.
  intros Hinv. unfold step. destruct ev; cbn [run]; rewrite ?exec_then_ret.
  - destruct (Netflix.validate data) eqn:Hv.
    + intros _. now apply process_leaves_current.
    + unfold exec. rewrite (process_invalid _ w Hv). exact Hinv.
  - destruct (pause_svc w) as [Hs Hc]. unfold session_inv. fold (exec Netflix.pause w) in *.
    rewrite Hs, Hc. exact Hinv.
  - destruct (resume_svc w) as [Hs Hc]. unfold session_inv. fold (exec Netflix.resume w) in *.
    rewrite Hs, Hc. exact Hinv.
  - destruct (stop_spec w) as (_ & Hs & _). unfold session_inv.
    fold (exec Netflix.stop w) in *. rewrite Hs. cbn. congruence.
  - destruct (reset_spec w) as (_ & Hs & _). unfold session_inv.
    fold (exec Netflix.reset w) in *. rewrite Hs. cbn. congruence.
  - exact (untouched_session_inv (connect_frame id w) Hinv).
  - exact (untouched_session_inv (disconnect_frame w) Hinv).
  - exact (untouched_session_inv (destroy_frame w) Hinv).
  - exact (untouched_session_inv (handle_ready_frame w) Hinv).
  - exact (untouched_session_inv (handle_disconnect_frame w) Hinv).
  - exact (untouched_session_inv (handle_error_frame w) Hinv).
  - now apply fire_session_inv.
Qed.

Lemma reachable_session_inv e w : reachable e w -> session_inv w.
Proof.
  induction 1 as [| ev w _ IH].
  - intros H. now contradiction H.
  - now apply step_session_inv.
Qed.

(** ** Delivery failures *)

Lemma process_returns d w : returned (result (Netflix.process d) w).
Proof.
  destruct (Netflix.validate d) eqn:Hv.
  - destruct (normalize_total d w) as (n & w1 & Hn).
    destruct (@process_cases d w n w1 Hv Hn) as [[_ (s & -> & _)] | (_ & -> & _)];
      eexists; reflexivity.
  - unfold result. rewrite (process_invalid _ w Hv). eexists; reflexivity.
Qed.

Lemma process_error_invalid d w msg :
  result (Netflix.process d) w = Ok (RError msg) ->
  Netflix.validate d = false /\ msg = "invalid".
Proof.
  destruct (Netflix.validate d) eqn:Hv.
  - destruct (normalize_total d w) as (n & w1 & Hn).
    destruct (@process_cases d w n w1 Hv Hn) as [[_ (s & -> & _)] | (_ & -> & _)];
      discriminate.
  - unfold result. rewrite (process_invalid _ w Hv). cbn.
    intros [= <-]. split; reflexivity.
Qed.

Lemma set_activity_returns data w : returned (result (Rpc.set_activity data) w).
Proof. exact (proj1 (set_activity_frame data w)). Qed.

Lemma update_returns data w : returned (result (Rpc.update data) w).
Proof. exact (proj1 (update_frame data w)). Qed.

Lemma process_not_connected d w n w1 w2 :
  Netflix.validate d = true ->
  Netflix.normalize d w = (Ok n, w1) ->
  Netflix.should_update n w1 = (Ok true, w2) ->
  (connected (rpc w) && ready (rpc w))%bool = false ->
  wp (Netflix.process d) (fun _ w' => rpc w' = rpc w /\ calls w' = calls w) w.
Proof.
  intros Hv Hn Hs Hoff. unfold Netflix.process. rewrite Hv. cbn [negb].
  pose proof (normalize_frame d w) as F1. unfold wp in F1. rewrite Hn in F1.
  pose proof (should_update_frame n w1) as F2. unfold wp in F2. rewrite Hs in F2.
  cbn in F1, F2.
  destruct F1 as (_ & _ & (_ & R1 & K1 & _) & _).
  destruct F2 as (_ & _ & (_ & R2 & K2 & _) & _).
  wp_step. wp_at Hn. wp_step. wp_at Hs.
  do 2 wp_step.
  wp_step. wp_use update_session_frame.
  destruct H as ((_ & R3 & K3 & _) & _ & _ & s & -> & _).
  wp_step. wp_use reset_timeout_arms.
  destruct H as (-> & (_ & R4 & K4 & _) & _).
  do 12 wp_step.
  wp_step. wp_step.
  eapply wp_eq.
  { apply update_not_connected. cbn. rewrite R4, R3. cbn. rewrite R2, R1. exact Hoff. }
  cbn. wp_run. cbn in *. split; congruence.
Qed.

(** C10. An accepted sample processed while the presence connection is not
    connected or not ready is still answered with success, its data and its
    session; nothing reaches the client.  [update] reports non-delivery
    by returning [false], neither it nor [set_activity] ever throws, and the
    only error [process] ever returns is the one for invalid data. *)
Theorem process_without_connection (d : jsval) (w : World) (n : Sample)
    (w1 w2 : World) :
  Netflix.validate d = true ->
  Netflix.normalize d w = (Ok n, w1) ->
  Netflix.should_update n w1 = (Ok true, w2) ->
  (connected (rpc w) && ready (rpc w))%bool = false ->
  let r := result (Netflix.process d) w in
  let w' := exec (Netflix.process d) w in
  (exists s, r = Ok (RUpdated n (Some s)) /\ st_session (svc w') = Some s)
  /\ rpc w' = rpc w /\ calls w' = calls w
  /\ (forall data w0,
        (connected (rpc w0) && ready (rpc w0))%bool = false ->
        Rpc.update data w0 = (Ok false, w0))
  /\ (forall data w0,
        returned (result (Rpc.update data) w0)
        /\ returned (result (Rpc.set_activity data) w0))
  /\ (forall d0 w0 msg,
        result (Netflix.process d0) w0 = Ok (RError msg) ->
        Netflix.validate d0 = false /\ msg = "invalid").
Proof.
  intros Hv Hn Hs Hoff r w'.
  destruct (@process_accepted d w n w1 w2 Hv Hn Hs) as (s & Hr & Hse & _).
  destruct (@process_not_connected d w n w1 w2 Hv Hn Hs Hoff) as [Hrpc Hcalls].
  split; [exists s; split; assumption |].
  split; [exact Hrpc |]. split; [exact Hcalls |].
  split; [exact update_not_connected |].
  split; [intros; split; [apply update_returns | apply set_activity_returns] |].
  exact process_error_invalid.
Qed.

(** C3 fails on the code.  The client is ready and the library rejects the
    [setActivity] call; [process] nevertheless answers with success. The
    sample, the session and the flags are committed, as the claim says. *)
Theorem send_failure_reported_as_success :
  let w := ready_world env_send_fails in
  let w' := exec (Netflix.process inception_raw) w in
  lib (env w) (libs (ctr w)) = Some "RPC_CONNECTION_TIMEOUT"
  /\ (exists n s, result (Netflix.process inception_raw) w = Ok (RUpdated n (Some s))
                  /\ st_current (svc w') = Some n
                  /\ st_session (svc w') = Some s
                  /\ paused (svc w') = negb (playing n))
  /\ st_previous (svc w') = st_current (svc w)
  /\ lastUpdate (svc w) = 0 /\ lastUpdate (svc w') = 1700000004000
  /\ (exists c a, calls w' = SetActivity c a :: calls w)
  /\ activity (rpc w') = None.
Proof.
  cbv zeta. split; [vm_compute; reflexivity |].
  split; [do 2 eexists; vm_compute; repeat split |].
  do 3 (split; [vm_compute; reflexivity |]).
  split; [do 2 eexists; vm_compute; reflexivity | vm_compute; reflexivity].
Qed.

(** ** Reconnecting *)

Lemma handle_disconnect_schedules w :
  let w' := exec Rpc.handle_disconnect w in
  connected (rpc w') = false /\ ready (rpc w') = false
  /\ attempts (rpc w') = attempts (rpc w)
  /\ timers w' =
     if attempts (rpc w) <? Rpc.reconnect_max
     then reconnect_timer (next_timer (ctr w)) :: timers w
     else timers w.
Proof.
  cbv zeta.
  apply (wp_inv (fun _ w' =>
           connected (rpc w') = false /\ ready (rpc w') = false
           /\ attempts (rpc w') = attempts (rpc w)
           /\ timers w' = if attempts (rpc w) <? Rpc.reconnect_max
                          then reconnect_timer (next_timer (ctr w)) :: timers w
                          else timers w)).
  unfold Rpc.handle_disconnect. wp_run; cbn; rewrite ?Heqb; repeat split.
Qed.

(** Every [connect] over an existing client starts from a clean slate: whatever
    the attempts made so far, a failed login leaves the counter at 1, a new
    reconnection scheduled, and no cached activity. *)
Lemma connect_failure_forgets w id c msg :
  connected (rpc w) = false ->
  client (rpc w) = Some c ->
  lib (env w) (libs (ctr w)) = Some msg ->
  let w' := exec (Rpc.connect id) w in
  attempts (rpc w') = 1 /\ activity (rpc w') = None
  /\ exists rest, timers w' = reconnect_timer (next_timer (ctr w)) :: rest.
Proof.
  intros Hcn Hc Hl. cbv zeta.
  apply (wp_inv (fun _ w' =>
           attempts (rpc w') = 1 /\ activity (rpc w') = None
           /\ exists rest, timers w' = reconnect_timer (next_timer (ctr w)) :: rest)).
  unfold Rpc.connect, Rpc.create, Rpc.destroy, Rpc.disconnect, Rpc.stop_ticker.
  wp_run with (rewrite ?Hcn, ?Hc; cbn).
  all: cbn in *; try congruence; repeat split; eauto.
Qed.

Lemma down_inv_first : down_inv 0 (down_after 0).
Proof. unfold down_inv. repeat split; reflexivity. Qed.

Lemma down_inv_round n w : down_inv n w -> down_inv (S n) (retry_round w).
Proof.
  intros (He & Hr & Ht & Hnt & Hnc & Hcalls).
  unfold retry_round. rewrite Ht. cbn [tid reconnect_timer].
  unfold step. cbn [run].
  apply (wp_inv (fun _ w' => down_inv (S n) w')).
  unfold fire, Rpc.reconnect, Rpc.connect, Rpc.create, Rpc.destroy,
    Rpc.disconnect, Rpc.stop_ticker, reconnect_timer in *.
  wp_run with
    (rewrite ?Ht, ?Hr, ?He, ?Hnt, ?Hnc; cbn; rewrite ?Nat.eqb_refl; cbn).
  all: try (exfalso;
            match goal with
            | H : lib _ _ = None |- _ => cbn in H; rewrite He in H; discriminate H
            end).
  all: unfold down_inv, reconnect_timer; cbn;
    rewrite ?Ht, ?Hr, ?He, ?Hnt, ?Hnc, ?Nat.eqb_refl; cbn; repeat split.
Qed.
Lemma down_inv_after n : down_inv n (down_after n).
Proof.
  induction n as [| n IH]; [exact down_inv_first |].
  change (down_after (S n)) with (retry_round (down_after n)).
  now apply down_inv_round.
Qed.

(** C8 fails on the code.  With Discord not running, a first [connect] is
    followed by automatic reconnections without end: after any number of
    failed rounds the attempt counter is 1, the login was tried once more, and
    the next reconnection is scheduled, 5000 ms later. *)
Theorem reconnect_never_ceases (n : nat) :
  let w := down_after n in
  connected (rpc w) = false
  /\ attempts (rpc w) = 1
  /\ hd_error (calls w) = Some (Login n client_id)
  /\ timers w = [reconnect_timer n]
  /\ delay (reconnect_timer n) = 5000.
Proof.
  destruct (down_inv_after n) as (_ & Hr & Ht & _ & _ & Hc).
  cbv zeta. rewrite Hr, Ht, Hc. repeat split.
Qed.

(** ** Replay on reconnect *)

Lemma handle_ready_replays w c a :
  client (rpc w) = Some c ->
  activity (rpc w) = Some a ->
  Rpc.validate_data (Rpc.data_of_act a) = true ->
  let w' := exec Rpc.handle_ready w in
  calls w' = SetActivity c (rendered (next_now w) (Rpc.data_of_act a)) :: calls w.
Proof.
  intros Hc Ha Hv. cbv zeta.
  apply (wp_inv (fun _ w' => calls w' = _ :: calls w)).
  unfold Rpc.handle_ready.
  wp_run with (rewrite ?Ha; cbn).
  eapply wp_eq; [apply surjective_pairing |].
  match goal with
  | |- context [snd (Rpc.set_activity ?d ?w0)] =>
      pose proof (@set_activity_sends d w0 c Hv) as Hs;
      pose proof (set_activity_returns d w0) as [b Hb];
      unfold exec, result in Hs, Hb; rewrite Hb; cbn in Hs |- *
  end.
  wp_run. cbn. rewrite Hs; [reflexivity | exact Hc | reflexivity].
Qed.

(** [connect] over an existing client forgets the cached activity, whatever
    the outcome of the login. *)
Lemma connect_forgets_activity w id c :
  connected (rpc w) = false ->
  client (rpc w) = Some c ->
  activity (rpc (exec (Rpc.connect id) w)) = None.
Proof.
  intros Hcn Hc.
  apply (wp_inv (fun _ w' => activity (rpc w') = None)).
  unfold Rpc.connect, Rpc.create, Rpc.destroy, Rpc.disconnect, Rpc.stop_ticker.
  wp_run with (rewrite ?Hcn, ?Hc; cbn).
  all: cbn in *; congruence.
Qed.

(** C9 fails on the code.  A presence is on display when the connection
    drops; the cached activity is still there after the drop, but the first
    reconnection forgets it, so that when a manual [connect] succeeds and the
    client becomes ready, the attempt counter is reset and nothing is
    replayed: the login is the last call the client received. *)
Theorem reconnect_replays_nothing :
  activity (rpc (steps [EConnect client_id; EReady; EProcess inception_raw;
                        EDisconnected] (init_world env_drop))) <> None
  /\ activity (rpc dropped) = None
  /\ connected (rpc reconnected) = true /\ ready (rpc reconnected) = true
  /\ attempts (rpc reconnected) = 0
  /\ activity (rpc reconnected) = None
  /\ calls reconnected = Login 4 client_id :: Destroy 3 :: calls dropped.
Proof.
  split; [vm_compute; discriminate |].
  repeat split; vm_compute; reflexivity.
Qed.

(** ** The theorems at work *)

Lemma run_eq {A} (m : M A) (w : World) (a : A) :
  result m w = Ok a -> m w = (Ok a, exec m w).
Proof. unfold result, exec. destruct (m w) as [r w']. cbn. now intros ->. Qed.

Lemma render_scenarios_witness :
  let w := ready_world env_up in
  client (rpc w) = Some 0%nat /\ ready (rpc w) = true
  /\ exists a, calls (exec (Rpc.set_activity stranger_things) w) = SetActivity 0 a :: calls w
               /\ details a = "Stranger Things"
               /\ a_state a = Some "S04E09 - The Piggyback"
               /\ startTimestamp a = Some 1700000000%float
               /\ endTimestamp a = Some 1700003000%float.
Proof.
  cbv zeta.
  assert (Hc : client (rpc (ready_world env_up)) = Some 0%nat) by reflexivity.
  assert (Hr : ready (rpc (ready_world env_up)) = true) by reflexivity.
  split; [exact Hc |]. split; [exact Hr |].
  destruct (@render_scenarios (ready_world env_up) 0%nat Hc Hr) as [H _].
  eexists. split; [exact H |]. repeat split.
Defined.

Lemma process_propagates_iff_witness :
  (let w := ready_world env_up in
   Netflix.validate inception_raw = true
   /\ propagates w inception_sample
        (next_now (exec (Netflix.normalize inception_raw) w))
   /\ accepted w inception_sample (result (Netflix.process inception_raw) w)
        showing
   /\ lastUpdate (svc showing) = 1700000004000)
  /\ (let w1 := exec (Netflix.normalize inception_later) showing in
      let w' := exec (Netflix.process inception_later) showing in
      st_current (svc showing) = Some inception_sample
      /\ changed inception_sample inception_later_sample
      /\ next_now w1 - lastUpdate (svc showing) = 6000
      /\ accepted showing inception_later_sample
           (result (Netflix.process inception_later) showing) w'
      /\ lastUpdate (svc w') = 1700000013000)
  /\ (let w1 := exec (Netflix.normalize inception_later) showing_fast in
      let w' := exec (Netflix.process inception_later) showing_fast in
      st_current (svc showing_fast) = Some inception_sample
      /\ changed inception_sample inception_later_fast
      /\ next_now w1 - lastUpdate (svc showing_fast) = 60
      /\ result (Netflix.process inception_later) showing_fast = Ok RCached
      /\ svc w' = svc showing_fast).
Proof.
  cbv zeta.
  assert (Hv : Netflix.validate inception_raw = true) by reflexivity.
  assert (Hv' : Netflix.validate inception_later = true) by reflexivity.
  assert (Hn : Netflix.normalize inception_raw (ready_world env_up)
               = (Ok inception_sample,
                  exec (Netflix.normalize inception_raw) (ready_world env_up)))
    by (refine (@run_eq _ _ _ _ _); vm_compute; reflexivity).
  assert (Hp : propagates (ready_world env_up) inception_sample
                 (next_now (exec (Netflix.normalize inception_raw) (ready_world env_up))))
    by (left; reflexivity).
  assert (Hn1 : Netflix.normalize inception_later showing
                = (Ok inception_later_sample,
                   exec (Netflix.normalize inception_later) showing))
    by (refine (@run_eq _ _ _ _ _); vm_compute; reflexivity).
  assert (Hc1 : st_current (svc showing) = Some inception_sample)
    by (vm_compute; reflexivity).
  assert (Hch1 : changed inception_sample inception_later_sample)
    by (right; right; reflexivity).
  assert (He1 : next_now (exec (Netflix.normalize inception_later) showing)
                - lastUpdate (svc showing) = 6000)
    by (vm_compute; reflexivity).
  assert (Hp1 : propagates showing inception_later_sample
                  (next_now (exec (Netflix.normalize inception_later) showing))).
  { right. exists inception_sample. split; [exact Hc1 |].
    split; [exact Hch1 |]. rewrite He1. discriminate. }
  assert (Hn2 : Netflix.normalize inception_later showing_fast
                = (Ok inception_later_fast,
                   exec (Netflix.normalize inception_later) showing_fast))
    by (refine (@run_eq _ _ _ _ _); vm_compute; reflexivity).
  assert (Hc2 : st_current (svc showing_fast) = Some inception_sample)
    by (vm_compute; reflexivity).
  assert (Hch2 : changed inception_sample inception_later_fast)
    by (right; right; reflexivity).
  assert (He2 : next_now (exec (Netflix.normalize inception_later) showing_fast)
                - lastUpdate (svc showing_fast) = 60)
    by (vm_compute; reflexivity).
  assert (Hp2 : ~ propagates showing_fast inception_later_fast
                    (next_now (exec (Netflix.normalize inception_later)
                                 showing_fast))).
  { intros [H | (c & _ & _ & H)].
    - rewrite Hc2 in H. discriminate H.
    - rewrite He2 in H. apply H. reflexivity. }
  split; [| split].
  - split; [exact Hv |]. split; [exact Hp |].
    destruct (proj1 (proj1 (@process_propagates_iff _ _ _ _ Hv Hn)) Hp)
      as [Ha Hl].
    split; [exact Ha |]. unfold showing. rewrite Hl. vm_compute. reflexivity.
  - split; [exact Hc1 |]. split; [exact Hch1 |]. split; [exact He1 |].
    destruct (proj1 (proj1 (@process_propagates_iff _ _ _ _ Hv' Hn1)) Hp1)
      as [Ha Hl].
    split; [exact Ha |]. rewrite Hl. vm_compute. reflexivity.
  - split; [exact Hc2 |]. split; [exact Hch2 |]. split; [exact He2 |].
    exact (proj1 (proj2 (@process_propagates_iff _ _ _ _ Hv' Hn2)) Hp2).
Defined.

Lemma process_twice_cached_witness :
  let w := ready_world env_fast in
  let w1 := exec (Netflix.process inception_raw) w in
  Netflix.validate inception_raw = true
  /\ next_now (exec (Netflix.normalize inception_raw) w1) - lastUpdate (svc w1) < 1000
  /\ result (Netflix.process inception_raw) w1 = Ok RCached
  /\ svc (exec (Netflix.process inception_raw) w1) = svc w1.
Proof.
  cbv zeta.
  assert (Hv : Netflix.validate inception_raw = true) by reflexivity.
  assert (Hw : next_now (exec (Netflix.normalize inception_raw)
                           (exec (Netflix.process inception_raw) (ready_world env_fast)))
               - lastUpdate (svc (exec (Netflix.process inception_raw)
                                    (ready_world env_fast))) < 1000)
    by (vm_compute; reflexivity).
  split; [exact Hv |]. split; [exact Hw |].
  destruct (@process_twice_cached inception_raw (ready_world env_fast) Hv Hw)
    as (Hr & Hs & _).
  split; assumption.
Defined.

Lemma watchdog_fires_witness :
  find (fun t' => Nat.eqb (tid t') 0) (timers showing) = Some (watchdog_timer 0)
  /\ active (Netflix.status showing) = true
  /\ active (Netflix.status (exec (fire 0) showing)) = false
  /\ status_session (Netflix.status (exec (fire 0) showing)) = None
  /\ calls (exec (fire 0) showing) = ClearActivity 0 :: calls showing.
Proof.
  assert (Hf : find (fun t' => Nat.eqb (tid t') (tid (watchdog_timer 0)))
                 (timers showing) = Some (watchdog_timer 0)) by reflexivity.
  assert (Hc : callback (watchdog_timer 0) = CbWatchdog) by reflexivity.
  split; [exact Hf |]. split; [reflexivity |].
  destruct (@watchdog_fires showing (watchdog_timer 0) Hf Hc)
    as (_ & Hcalls & _ & _ & _ & Ha & Hs).
  split; [exact Ha |]. split; [exact Hs |]. exact Hcalls.
Defined.

Lemma reachable_process e d w :
  reachable e w -> reachable e (exec (Netflix.process d) w).
Proof.
  intros H. rewrite <- (exec_then_ret (Netflix.process d) tt).
  exact (reach_step (EProcess d) H).
Qed.

Lemma ready_world_reachable e : reachable e (ready_world e).
Proof.
  unfold ready_world, steps. cbn [fold_left].
  do 2 apply reach_step. apply reach_init.
Qed.

Lemma showing_reachable : reachable env_up showing.
Proof. apply reachable_process, ready_world_reachable. Qed.

Lemma watch_time_accrual_witness :
  let w := showing in
  let w1 := exec (Netflix.normalize inception_later) w in
  let w2 := exec (Netflix.should_update inception_later_sample) w1 in
  Netflix.validate inception_later = true
  /\ Netflix.normalize inception_later w = (Ok inception_later_sample, w1)
  /\ Netflix.should_update inception_later_sample w1 = (Ok true, w2)
  /\ lastUpdate (svc w) = 1700000004000
  /\ lastUpdate (svc (exec (Netflix.process inception_later) w)) = 1700000013000
  /\ exists s s',
       st_session (svc w) = Some s
       /\ st_session (svc (exec (Netflix.process inception_later) w)) = Some s'
       /\ watched s = 0%float /\ watched s' = 5%float.
Proof.
  cbv zeta.
  set (w1 := exec (Netflix.normalize inception_later) showing).
  set (w2 := exec (Netflix.should_update inception_later_sample) w1).
  assert (Hv : Netflix.validate inception_later = true) by reflexivity.
  assert (Hn : Netflix.normalize inception_later showing
               = (Ok inception_later_sample, w1))
    by (refine (@run_eq _ _ _ _ _); vm_compute; reflexivity).
  assert (Hs : Netflix.should_update inception_later_sample w1 = (Ok true, w2)).
  { refine (@run_eq _ (Netflix.should_update inception_later_sample) w1 true _).
    vm_compute. reflexivity. }
  assert (Hi : session_inv showing)
    by exact (reachable_session_inv showing_reachable).
  assert (Hse : st_session (svc showing) = Some inception_session)
    by (vm_compute; reflexivity).
  assert (Hti : s_title inception_session = title inception_later_sample)
    by reflexivity.
  split; [exact Hv |]. split; [exact Hn |]. split; [exact Hs |].
  destruct (@watch_time_accrual inception_later showing inception_later_sample
              w1 w2 inception_session Hv Hn Hs Hi Hse Hti)
    as (s' & Hs' & Hw & _ & Hk).
  split; [vm_compute; reflexivity |].
  split; [rewrite Hk; vm_compute; reflexivity |].
  exists inception_session, s'. split; [exact Hse |]. split; [exact Hs' |].
  split; [reflexivity |]. rewrite Hw. vm_compute. reflexivity.
Defined.

Lemma process_without_connection_witness :
  let w := init_world env_up in
  let w1 := exec (Netflix.normalize inception_raw) w in
  Netflix.validate inception_raw = true
  /\ Netflix.normalize inception_raw w = (Ok inception_sample, w1)
  /\ Netflix.should_update inception_sample w1 = (Ok true, w1)
  /\ (connected (rpc w) && ready (rpc w))%bool = false
  /\ (exists s, result (Netflix.process inception_raw) w
                = Ok (RUpdated inception_sample (Some s)))
  /\ calls (exec (Netflix.process inception_raw) w) = [].
Proof.
  cbv zeta.
  set (w1 := exec (Netflix.normalize inception_raw) (init_world env_up)).
  assert (Hv : Netflix.validate inception_raw = true) by reflexivity.
  assert (Hn : Netflix.normalize inception_raw (init_world env_up)
               = (Ok inception_sample, w1))
    by (refine (@run_eq _ _ _ _ _); vm_compute; reflexivity).
  assert (Hs : Netflix.should_update inception_sample w1 = (Ok true, w1))
    by reflexivity.
  assert (Ho : (connected (rpc (init_world env_up))
                && ready (rpc (init_world env_up)))%bool = false) by reflexivity.
  split; [exact Hv |]. split; [exact Hn |]. split; [exact Hs |].
  split; [exact Ho |].
  destruct (@process_without_connection inception_raw (init_world env_up)
              inception_sample w1 w1 Hv Hn Hs Ho)
    as ((s & Hr & _) & _ & Hc & _).
  split; [exists s; exact Hr | exact Hc].
Defined.

(** * Further properties of the service *)

(** ** The normalizer *)

Lemma max0_nonneg (y : float) : (Math_max 0 y <? 0)%float = false.
Proof.
  unfold Math_max. change (is_nan 0) with false. cbn [orb].
  destruct (is_nan y); [reflexivity |].
  destruct (0 <? y)%float eqn:E; [now apply ltb_asym |].
  destruct (y <? 0)%float; reflexivity.
Qed.

Lemma validate_fields d :
  Netflix.validate d = true ->
  exists s c du b,
    field "title" d = JStr s /\ s <> ""
    /\ field "current" d = JNum c /\ (c <? 0)%float = false
    /\ field "duration" d = JNum du /\ (du <? Netflix.minDuration)%float = false
    /\ field "playing" d = JBool b.
Proof.
  unfold Netflix.validate. destruct d; try discriminate.
  destruct (field "title" (JObj fields)) as [| | | | s |]; try discriminate.
  destruct (String.eqb_spec s "") as [| Hs]; [discriminate |].
  destruct (field "current" (JObj fields)) as [| | | c | |]; try discriminate.
  destruct (c <? 0)%float eqn:Hc; [discriminate |].
  destruct (field "duration" (JObj fields)) as [| | | du | |]; try discriminate.
  destruct (du <? Netflix.minDuration)%float eqn:Hd; [discriminate |].
  destruct (field "playing" (JObj fields)) as [| | b | | |]; try discriminate.
  intros _. exists s, c, du, b. repeat split; auto.
Qed.

Lemma substring_length_le (n : nat) (s : string) :
  (String.length (substring 0 n s) <= n)%nat.
Proof.
  revert s. induction n as [| n IH]; intros [| c s]; cbn; try lia.
  specialize (IH s). lia.
Qed.

Lemma substring_nonempty (n : nat) (s : string) :
  s <> "" -> substring 0 (S n) s <> "".
Proof. destruct s; [congruence | discriminate]. Qed.

(** What the client's validation asks of a sample. *)
Lemma normalize_positive d w n w1 :
  Netflix.validate d = true ->
  Netflix.normalize d w = (Ok n, w1) ->
  title n <> "" /\ (current n <? 0)%float = false
  /\ (duration n <=? 0)%float = false.
Proof.
  intros Hv Hn.
  destruct (validate_fields d Hv)
    as (s & c & du & b & Ht & Hs & Hc & Hc0 & Hd & Hd0 & _).
  assert (Hdur : (Math_max 0 (Math_floor du) <=? 0)%float = false).
  { destruct (@floor_big du Hd0); [now apply max0_nan | now apply max0_pos]. }
  destruct (@normalize_fields d w n w1 Hn) as (Nt & Nc & Nd & _).
  rewrite Ht in Nt. rewrite Hc in Nc. rewrite Hd in Nd.
  cbn [Netflix.as_string Netflix.as_number] in Nt, Nc, Nd.
  rewrite Nt, Nc, Nd. split; [now apply substring_nonempty |].
  split; [apply max0_nonneg | exact Hdur].
Qed.

(** X1. A sample that passes validation is normalized to a non-empty title
    of at most 128 characters; a position and a duration that are
    [Math.max(0, Math.floor(x))] of those that came in, the position never
    negative and the duration never 0 or below;
    [remaining = duration - position], [elapsed = position], and
    the whole part of [position / duration * 100] as the percentage, all in
    the arithmetic of the doubles, in which 29 seconds of 100 are 28
    percent and what remains of a stream without an end is infinite. *)
Theorem normalize_bounds (d : jsval) (w : World) (n : Sample) (w1 : World) :
  Netflix.validate d = true ->
  Netflix.normalize d w = (Ok n, w1) ->
  title n <> "" /\ (String.length (title n) <= 128)%nat
  /\ current n = Math_max 0 (Math_floor (Netflix.as_number (field "current" d)))
  /\ duration n = Math_max 0 (Math_floor (Netflix.as_number (field "duration" d)))
  /\ (current n <? 0)%float = false /\ (duration n <=? 0)%float = false
  /\ remaining n = (duration n - current n)%float /\ elapsed n = current n
  /\ percent n = Math_floor (current n / duration n * 100).
Proof.
  intros Hv Hn.
  destruct (validate_fields d Hv) as (s & c & du & b & Ht & Hs & Hc & Hc0 & Hd & Hd0 & _).
  assert (Hdur : (Math_max 0 (Math_floor du) <=? 0)%float = false).
  { destruct (@floor_big du Hd0); [now apply max0_nan | now apply max0_pos]. }
  revert Hn.
  unfold Netflix.normalize, Netflix.sanitize, bind, ret, Date_now.
  rewrite Ht, Hc, Hd. cbn [Netflix.as_string Netflix.as_number].
  destruct (truthy (field "timestamp" d)); cbn; intros [= <- _]; cbn.
  all: repeat split; auto using max0_nonneg;
    try (now apply substring_nonempty); try apply substring_length_le.
Qed.

Lemma normalize_bounds_witness :
  Netflix.validate short_raw = true
  /\ (current short_sample <? 0)%float = false
  /\ percent short_sample = 28%float
  /\ Netflix.validate endless_raw = true
  /\ remaining endless_sample = infinity
  /\ percent endless_sample = 0%float.
Proof.
  assert (Hv : Netflix.validate short_raw = true) by reflexivity.
  assert (Hn : Netflix.normalize short_raw (init_world env_up)
               = (Ok short_sample,
                  exec (Netflix.normalize short_raw) (init_world env_up)))
    by (refine (@run_eq _ _ _ _ _); vm_compute; reflexivity).
  assert (Hv' : Netflix.validate endless_raw = true) by reflexivity.
  assert (Hn' : Netflix.normalize endless_raw (init_world env_up)
                = (Ok endless_sample,
                   exec (Netflix.normalize endless_raw) (init_world env_up)))
    by (refine (@run_eq _ _ _ _ _); vm_compute; reflexivity).
  destruct (@normalize_bounds _ _ _ _ Hv Hn)
    as (_ & _ & _ & _ & Hc & _ & _ & _ & Hp).
  destruct (@normalize_bounds _ _ _ _ Hv' Hn')
    as (_ & _ & _ & _ & _ & _ & Hr & _ & Hp').
  split; [exact Hv |]. split; [exact Hc |].
  split; [rewrite Hp; vm_compute; reflexivity |].
  split; [exact Hv' |].
  split; [rewrite Hr; vm_compute; reflexivity |].
  rewrite Hp'. vm_compute. reflexivity.
Defined.

(** ** The cache counters *)

(** X2. Every call of [process] with valid data increments exactly one of
    the two cache counters; a call with invalid data is answered with the
    error [invalid] and changes neither the counters nor the state of the
    service, the client, the timers or the calls made to the library. *)
Theorem process_counts (d : jsval) (w : World) :
  let w' := exec (Netflix.process d) w in
  if Netflix.validate d
  then hits (cache w') + misses (cache w') = hits (cache w) + misses (cache w) + 1
       /\ hits (cache w) <= hits (cache w') /\ misses (cache w) <= misses (cache w')
  else result (Netflix.process d) w = Ok (RError "invalid")
       /\ cache w' = cache w /\ svc w' = svc w /\ rpc w' = rpc w
       /\ timers w' = timers w /\ calls w' = calls w.
Proof.
  cbv zeta. destruct (Netflix.validate d) eqn:Hv.
  - destruct (normalize_total d w) as (n & w1 & Hn).
    destruct (@process_cases d w n w1 Hv Hn)
      as [[_ (s & _ & _ & _ & _ & _ & _ & Hh & Hm)] | (_ & _ & _ & _ & _ & _ & _ & Hc)].
    + rewrite Hh, Hm. lia.
    + rewrite Hc. cbn. lia.
  - unfold result, exec. rewrite (process_invalid _ w Hv). cbn. repeat split.
Qed.

Lemma pause_cache w :
  wp Netflix.pause (fun _ w' => cache w' = cache w) w.
Proof.
  unfold Netflix.pause. wp_run; [| reflexivity].
  wp_use pause_frame. destruct H as ([b ->] & _ & _ & Hc & _).
  wp_run. cbn. exact Hc.
Qed.

Lemma resume_cache w :
  wp Netflix.resume (fun _ w' => cache w' = cache w) w.
Proof.
  unfold Netflix.resume. wp_run; [| reflexivity].
  wp_use resume_frame. destruct H as ([b ->] & _ & _ & Hc & _).
  wp_run. cbn. exact Hc.
Qed.

Lemma fire_cache id w : cache (exec (fire id) w) = cache w.
Proof.
  apply (wp_inv (fun _ w' => cache w' = cache w)).
  unfold fire. wp_run; try reflexivity.
  all: lazymatch goal with
       | |- wp Rpc.tick _ _ =>
           wp_use tick_frame; destruct H as (_ & _ & _ & H & _); exact H
       | |- wp Rpc.reconnect _ _ =>
           wp_use reconnect_frame; destruct H as ([b ->] & _ & _ & Hs & _);
           wp_run; cbn; exact Hs
       | |- wp Netflix.handle_timeout _ _ =>
           wp_use handle_timeout_spec; destruct H as (_ & _ & H & _); exact H
       end.
Qed.

Lemma untouched_cache {A} (m : M A) w :
  wp m (fun r w' => returned r /\ service_untouched w w') w ->
  cache (exec m w) = cache w.
Proof. intros (_ & _ & _ & H & _). exact H. Qed.

Lemma step_counters ev w :
  0 <= hits (cache w) /\ 0 <= misses (cache w) ->
  0 <= hits (cache (step ev w)) /\ 0 <= misses (cache (step ev w)).
Proof.
  intros [Hh Hm]. unfold step. destruct ev; cbn [run]; rewrite ?exec_then_ret.
  - pose proof (process_counts data w) as H. cbv zeta in H.
    destruct (Netflix.validate data).
    + lia.
    + destruct H as (_ & -> & _). auto.
  - rewrite (pause_cache w : cache (exec Netflix.pause w) = _). auto.
  - rewrite (resume_cache w : cache (exec Netflix.resume w) = _). auto.
  - destruct (stop_spec w) as (_ & _ & Hc & _).
    fold (exec Netflix.stop w) in Hc. rewrite Hc. auto.
  - destruct (reset_spec w) as (_ & _ & Hc & _).
    fold (exec Netflix.reset w) in Hc. rewrite Hc. cbn. lia.
  - rewrite (untouched_cache (connect_frame id w)). auto.
  - rewrite (untouched_cache (disconnect_frame w)). auto.
  - rewrite (untouched_cache (destroy_frame w)). auto.
  - rewrite (untouched_cache (handle_ready_frame w)). auto.
  - rewrite (untouched_cache (handle_disconnect_frame w)). auto.
  - rewrite (untouched_cache (handle_error_frame w)). auto.
  - rewrite fire_cache. auto.
Qed.

(** X3. In every world the system can reach, the cache counters are
    non-negative and the hit ratio reported by [status()] lies between 0
    and 1. *)
Theorem status_ratio_bounds (e : Env) (w : World) :
  reachable e w ->
  0 <= status_hits (Netflix.status w) /\ 0 <= status_misses (Netflix.status w)
  /\ (0 <= status_ratio (Netflix.status w) <= 1)%Q.
Proof.
  intros Hr.
  assert (H : 0 <= hits (cache w) /\ 0 <= misses (cache w)).
  { induction Hr as [| ev w _ IH]; [cbn; lia | now apply step_counters]. }
  destruct H as [Hh Hm]. cbn. split; [exact Hh |]. split; [exact Hm |].
  set (h := hits (cache w)) in *. set (m := misses (cache w)) in *.
  destruct (Z.eq_dec (h + m) 0) as [E | E].
  - rewrite E. assert (h = 0) by lia. subst h. replace (hits (cache w)) with 0.
    split; discriminate.
  - assert (Hpos : (0 < inject_Z (h + m))%Q).
    { change 0%Q with (inject_Z 0). rewrite <- Zlt_Qlt. lia. }
    split.
    + apply Qle_shift_div_l; [exact Hpos |]. rewrite Qmult_0_l.
      change 0%Q with (inject_Z 0). now rewrite <- Zle_Qle.
    + apply Qle_shift_div_r; [exact Hpos |]. rewrite Qmult_1_l.
      rewrite <- Zle_Qle. lia.
Qed.

Lemma status_ratio_bounds_witness :
  reachable env_up showing
  /\ (0 <= status_ratio (Netflix.status showing) <= 1)%Q.
Proof.
  split; [exact showing_reachable |].
  exact (proj2 (proj2 (status_ratio_bounds showing_reachable))).
Defined.

(** ** The session tracker, further *)

Lemma update_session_counters n w s c :
  st_session (svc w) = Some s ->
  s_title s = title n ->
  st_current (svc w) = Some c ->
  exists s',
    st_session (svc (exec (Netflix.update_session n) w)) = Some s'
    /\ seeks s' = seeks s
                  + (if (Netflix.threshold <? Math_abs (current n - current c))%float
                     then 1 else 0)
    /\ pauses s' = pauses s
                   + (if (playing n && negb (playing c))%bool then 1 else 0)
    /\ s_id s' = s_id s /\ started s' = started s /\ s_title s' = s_title s
    /\ updated s' = next_now w.
Proof.
  intros Hs Ht Hc.
  apply (wp_inv (fun _ w' => exists s', st_session (svc w') = Some s' /\ _)).
  unfold Netflix.update_session. do 2 wp_step. rewrite Hs.
  rewrite Ht, String.eqb_refl. cbn [negb].
  do 4 wp_step. rewrite Hc.
  wp_run; eexists; (split; [reflexivity |]);
    repeat match goal with
           | |- context [if ?b then _ else _] => destruct b
           end; cbn; repeat split; try lia; exact Ht.
Qed.

(** X4. An accepted sample applied to the open session of the same title
    counts a seek exactly when its position is more than 5 away from the
    current one, and adds one to [pauses] exactly when it is playing while
    the current sample is not (the counter counts the returns from a pause);
    the identity, start and title of the session stay. *)
Theorem session_counters (d : jsval) (w : World) (n : Sample) (w1 w2 : World)
    (s : Session) (c : Sample) :
  Netflix.validate d = true ->
  Netflix.normalize d w = (Ok n, w1) ->
  Netflix.should_update n w1 = (Ok true, w2) ->
  st_session (svc w) = Some s ->
  s_title s = title n ->
  st_current (svc w) = Some c ->
  exists s',
    st_session (svc (exec (Netflix.process d) w)) = Some s'
    /\ seeks s' = seeks s
                  + (if (5 <? Math_abs (current n - current c))%float
                     then 1 else 0)
    /\ pauses s' = pauses s
                   + (if (playing n && negb (playing c))%bool then 1 else 0)
    /\ s_id s' = s_id s /\ started s' = started s /\ s_title s' = s_title s.
Proof.
  intros Hv Hn Hs Hse Ht Hc.
  pose proof (normalize_frame d w) as F1. unfold wp in F1. rewrite Hn in F1.
  pose proof (should_update_frame n w1) as F2. unfold wp in F2. rewrite Hs in F2.
  cbn in F1, F2.
  destruct F1 as (_ & (_ & S1 & _) & _). destruct F2 as (_ & (_ & S2 & _) & _).
  rewrite (@process_session d w n w1 w2 Hv Hn Hs).
  destruct (@update_session_counters n w2 s c) as (s' & Hs' & H1 & H2 & H3 & H4 & H5 & _).
  { congruence. } { exact Ht. } { congruence. }
  exists s'. repeat split; assumption.
Qed.

Lemma session_counters_witness :
  exists s',
    st_session (svc (exec (Netflix.process inception_later) showing)) = Some s'
    /\ seeks s' = 1 /\ pauses s' = 0.
Proof.
  set (w1 := exec (Netflix.normalize inception_later) showing).
  set (w2 := exec (Netflix.should_update inception_later_sample) w1).
  assert (Hv : Netflix.validate inception_later = true) by reflexivity.
  assert (Hn : Netflix.normalize inception_later showing
               = (Ok inception_later_sample, w1))
    by (refine (@run_eq _ _ _ _ _); vm_compute; reflexivity).
  assert (Hs : Netflix.should_update inception_later_sample w1 = (Ok true, w2)).
  { refine (@run_eq _ (Netflix.should_update inception_later_sample) w1 true _).
    vm_compute. reflexivity. }
  assert (Hse : st_session (svc showing) = Some inception_session)
    by (vm_compute; reflexivity).
  assert (Hti : s_title inception_session = title inception_later_sample)
    by reflexivity.
  assert (Hc : st_current (svc showing) = Some inception_sample)
    by (vm_compute; reflexivity).
  destruct (@session_counters inception_later showing inception_later_sample
              w1 w2 inception_session inception_sample Hv Hn Hs Hse Hti Hc)
    as (s' & Hs' & H1 & H2 & _).
  exists s'. split; [exact Hs' |]. split; [exact H1 | exact H2].
Defined.

Lemma update_session_fresh n w :
  (forall s, st_session (svc w) = Some s -> s_title s <> title n) ->
  exists s',
    st_session (svc (exec (Netflix.update_session n) w)) = Some s'
    /\ s_title s' = title n /\ s_duration s' = duration n
    /\ watched s' = 0%float /\ pauses s' = 0 /\ seeks s' = 0.
Proof.
  intros Hne.
  apply (wp_inv (fun _ w' => exists s', st_session (svc w') = Some s' /\ _)).
  unfold Netflix.update_session, Netflix.end_session, Netflix.create_session,
    Netflix.generate_id.
  do 2 wp_step. destruct (st_session (svc w)) as [s |] eqn:Hs.
  - destruct (String.eqb_spec (s_title s) (title n)) as [E | E];
      [now contradiction (Hne s eq_refl) |].
    cbn [negb]. wp_run with (rewrite ?Hs; cbn).
    all: eexists; repeat split.
  - wp_run. eexists; repeat split.
Qed.

(** X5. An accepted sample that finds no session, or a session of another
    title, opens a fresh session: it bears the title and the duration of the
    sample and starts with no watch time, no pause and no seek. *)
Theorem title_change_opens_session (d : jsval) (w : World) (n : Sample)
    (w1 w2 : World) :
  Netflix.validate d = true ->
  Netflix.normalize d w = (Ok n, w1) ->
  Netflix.should_update n w1 = (Ok true, w2) ->
  (forall s, st_session (svc w) = Some s -> s_title s <> title n) ->
  exists s',
    st_session (svc (exec (Netflix.process d) w)) = Some s'
    /\ s_title s' = title n /\ s_duration s' = duration n
    /\ watched s' = 0%float /\ pauses s' = 0 /\ seeks s' = 0.
Proof.
  intros Hv Hn Hs Hne.
  pose proof (normalize_frame d w) as F1. unfold wp in F1. rewrite Hn in F1.
  pose proof (should_update_frame n w1) as F2. unfold wp in F2. rewrite Hs in F2.
  cbn in F1, F2.
  destruct F1 as (_ & (_ & S1 & _) & _). destruct F2 as (_ & (_ & S2 & _) & _).
  rewrite (@process_session d w n w1 w2 Hv Hn Hs).
  apply update_session_fresh. rewrite S2, S1. exact Hne.
Qed.

Lemma title_change_opens_session_witness :
  exists s',
    st_session (svc (exec (Netflix.process stranger_raw) showing)) = Some s'
    /\ s_title s' = "Stranger Things: S04E09 - The Piggyback"
    /\ watched s' = 0%float.
Proof.
  set (w1 := exec (Netflix.normalize stranger_raw) showing).
  set (w2 := exec (Netflix.should_update stranger_sample) w1).
  assert (Hv : Netflix.validate stranger_raw = true) by reflexivity.
  assert (Hn : Netflix.normalize stranger_raw showing = (Ok stranger_sample, w1))
    by (refine (@run_eq _ _ _ _ _); vm_compute; reflexivity).
  assert (Hs : Netflix.should_update stranger_sample w1 = (Ok true, w2)).
  { refine (@run_eq _ (Netflix.should_update stranger_sample) w1 true _).
    vm_compute. reflexivity. }
  assert (Hse : st_session (svc showing) = Some inception_session)
    by (vm_compute; reflexivity).
  assert (Hne : forall s, st_session (svc showing) = Some s ->
                          s_title s <> title stranger_sample).
  { intros s H. rewrite Hse in H. injection H as <-. discriminate. }
  destruct (@title_change_opens_session stranger_raw showing stranger_sample
              w1 w2 Hv Hn Hs Hne) as (s' & Hs' & Ht & _ & Hw & _).
  exists s'. split; [exact Hs' |]. split; [exact Ht | exact Hw].
Defined.

(** ** The open session bears the title of the current sample *)

Lemma session_title_inv_svc w w' :
  svc w' = svc w -> session_title_inv w -> session_title_inv w'.
Proof. unfold session_title_inv. now intros ->. Qed.

Lemma session_title_inv_closed w :
  st_session (svc w) = None -> session_title_inv w.
Proof. intros H s Hs. congruence. Qed.

Lemma step_session_title_inv ev w :
  session_title_inv w -> session_title_inv (step ev w).
Proof.
  intros Hinv. unfold step. destruct ev; cbn [run]; rewrite ?exec_then_ret.
  - destruct (Netflix.validate data) eqn:Hv.
    + destruct (normalize_total data w) as (n & w1 & Hn).
      destruct (@process_cases data w n w1 Hv Hn)
        as [[_ (s & _ & Hs & Ht & Hc & _)] | (_ & _ & Hsvc & _)].
      * intros s0 Hs0. exists n. split; [exact Hc | congruence].
      * exact (@session_title_inv_svc _ _ Hsvc Hinv).
    + unfold exec. rewrite (process_invalid _ w Hv). exact Hinv.
  - destruct (pause_svc w) as [Hs Hc]. fold (exec Netflix.pause w) in *.
    intros s. rewrite Hs, Hc. apply Hinv.
  - destruct (resume_svc w) as [Hs Hc]. fold (exec Netflix.resume w) in *.
    intros s. rewrite Hs, Hc. apply Hinv.
  - destruct (stop_spec w) as (_ & Hs & _). fold (exec Netflix.stop w) in *.
    apply session_title_inv_closed. now rewrite Hs.
  - destruct (reset_spec w) as (_ & Hs & _). fold (exec Netflix.reset w) in *.
    apply session_title_inv_closed. now rewrite Hs.
  - exact (@session_title_inv_svc _ _ (proj1 (proj2 (proj2 (connect_frame id w)))) Hinv).
  - exact (@session_title_inv_svc _ _ (proj1 (proj2 (proj2 (disconnect_frame w)))) Hinv).
  - exact (@session_title_inv_svc _ _ (proj1 (proj2 (proj2 (destroy_frame w)))) Hinv).
  - exact (@session_title_inv_svc _ _ (proj1 (proj2 (proj2 (handle_ready_frame w)))) Hinv).
  - exact (@session_title_inv_svc _ _ (proj1 (proj2 (proj2 (handle_disconnect_frame w)))) Hinv).
  - exact (@session_title_inv_svc _ _ (proj1 (proj2 (proj2 (handle_error_frame w)))) Hinv).
  - apply (wp_inv (fun _ w' => session_title_inv w')).
    unfold fire. wp_run; try exact Hinv.
    all: lazymatch goal with
         | |- wp Rpc.tick _ _ =>
             wp_use tick_frame; destruct H as (_ & _ & H & _);
             exact (@session_title_inv_svc _ _ H Hinv)
         | |- wp Rpc.reconnect _ _ =>
             wp_use reconnect_frame; destruct H as ([b ->] & _ & Hs & _);
             wp_run; cbn; exact (@session_title_inv_svc _ _ Hs Hinv)
         | |- wp Netflix.handle_timeout _ _ =>
             wp_use handle_timeout_spec; destruct H as (_ & H & _);
             apply session_title_inv_closed; now rewrite H
         end.
Qed.

(** X6. In every world the system can reach, an open session bears the
    title of the current sample: the title of a session never changes, a
    new title always comes with a new session. *)
Theorem session_title_stable (e : Env) (w : World) (s : Session) :
  reachable e w ->
  st_session (svc w) = Some s ->
  exists c, st_current (svc w) = Some c /\ s_title s = title c.
Proof.
  intros Hr. revert s.
  induction Hr as [| ev w _ IH].
  - intros s H. discriminate H.
  - exact (@step_session_title_inv ev w IH).
Qed.

Lemma session_title_stable_witness :
  exists c, st_current (svc showing) = Some c
            /\ s_title inception_session = title c.
Proof.
  refine (@session_title_stable env_up showing inception_session
            showing_reachable _).
  vm_compute. reflexivity.
Defined.

(** ** Stopping and pausing *)

(** X7. [stop()] always answers with success, whatever the state of the
    connection, and leaves the service without session, current or previous
    sample and without watchdog; stopping a second time leaves the state of
    the service and the cache as the first stop left them. *)
Theorem stop_idempotent (w : World) :
  let w1 := exec Netflix.stop w in
  let w2 := exec Netflix.stop w1 in
  result Netflix.stop w = Ok AOk
  /\ st_session (svc w1) = None /\ st_current (svc w1) = None
  /\ st_previous (svc w1) = None /\ st_timeout (svc w1) = None
  /\ paused (svc w1) = false
  /\ result Netflix.stop w1 = Ok AOk
  /\ svc w2 = svc w1 /\ cache w2 = cache w1.
Proof.
  cbv zeta.
  destruct (stop_spec w) as (Hr & Hs & Hc & _).
  destruct (stop_spec (exec Netflix.stop w)) as (Hr' & Hs' & Hc' & _).
  fold (result Netflix.stop w) in Hr. fold (exec Netflix.stop w) in *.
  fold (result Netflix.stop (exec Netflix.stop w)) in Hr'.
  fold (exec Netflix.stop (exec Netflix.stop w)) in *.
  rewrite Hs', Hs. cbn. repeat split; assumption.
Qed.

Lemma pause_spec w :
  wp Netflix.pause
    (fun r w' =>
       match st_current (svc w) with
       | None => r = Ok (AError "no_active") /\ w' = w
       | Some _ => r = Ok AOk /\ svc w' = Netflix.set_paused true (svc w)
                   /\ cache w' = cache w
       end) w.
Proof.
  unfold Netflix.pause. wp_run; [| split; reflexivity].
  wp_use pause_frame. destruct H as ([b ->] & _ & Hs & Hc & _).
  wp_run. cbn. rewrite Hs. repeat split. exact Hc.
Qed.

Lemma resume_spec w :
  wp Netflix.resume
    (fun r w' =>
       match st_current (svc w) with
       | None => r = Ok (AError "no_active") /\ w' = w
       | Some _ => r = Ok AOk /\ svc w' = Netflix.set_paused false (svc w)
                   /\ cache w' = cache w
       end) w.
Proof.
  unfold Netflix.resume. wp_run; [| split; reflexivity].
  wp_use resume_frame. destruct H as ([b ->] & _ & Hs & Hc & _).
  wp_run. cbn. rewrite Hs. repeat split. exact Hc.
Qed.

(** X8. Without a current sample [pause()] and [resume()] answer with the
    error [no_active] and change nothing at all; with one they always answer
    with success, whether or not the presence connection took the change,
    and set the paused flag, leaving the rest of the service's state as it
    was. *)
Theorem pause_resume_effect (w : World) :
  match st_current (svc w) with
  | None =>
      Netflix.pause w = (Ok (AError "no_active"), w)
      /\ Netflix.resume w = (Ok (AError "no_active"), w)
  | Some _ =>
      result Netflix.pause w = Ok AOk
      /\ svc (exec Netflix.pause w) = Netflix.set_paused true (svc w)
      /\ result Netflix.resume w = Ok AOk
      /\ svc (exec Netflix.resume w) = Netflix.set_paused false (svc w)
  end.
Proof.
  pose proof (pause_spec w) as Hp. pose proof (resume_spec w) as Hr.
  unfold wp in Hp, Hr.
  destruct (st_current (svc w)).
  - destruct Hp as (Hp1 & Hp2 & _). destruct Hr as (Hr1 & Hr2 & _).
    repeat split; assumption.
  - destruct Hp as (Hp1 & Hp2). destruct Hr as (Hr1 & Hr2).
    split; [rewrite (surjective_pairing (Netflix.pause w))
           | rewrite (surjective_pairing (Netflix.resume w))]; congruence.
Qed.
(** * The timers *)

Lemma tids_filter (p : Timer -> bool) (ts : list Timer) :
  NoDup (map tid ts) -> NoDup (map tid (filter p ts)).
Proof.
  intros Hd. induction ts as [| t ts IH]; [exact Hd |].
  cbn in Hd |- *. apply NoDup_cons_iff in Hd as [Hn Hd].
  destruct (p t); [| now apply IH].
  cbn. apply NoDup_cons_iff. split; [| now apply IH].
  rewrite in_map_iff. intros (x & Hx & Hin).
  apply filter_In in Hin as [Hin _]. apply Hn.
  rewrite <- Hx. now apply in_map.
Qed.

Lemma NoDup_tid_inj (ts : list Timer) (a b : Timer) :
  NoDup (map tid ts) -> In a ts -> In b ts -> tid a = tid b -> a = b.
Proof.
  induction ts as [| t ts IH]; cbn; [contradiction |].
  intros Hd Ha Hb Heq. inversion Hd as [| ? ? Hn Hd']; subst.
  destruct Ha as [-> | Ha], Hb as [-> | Hb]; auto.
  - exfalso. apply Hn. rewrite Heq. now apply in_map.
  - exfalso. apply Hn. rewrite <- Heq. now apply in_map.
Qed.

Lemma cancelled_In (o : option nat) (ts : list Timer) (t : Timer) :
  In t (cancelled o ts) <-> In t ts /\ o <> Some (tid t).
Proof.
  unfold cancelled. destruct o as [id |].
  - rewrite filter_In. split; intros [H1 H2]; (split; [exact H1 |]).
    + intros [= ->]. now rewrite Nat.eqb_refl in H2.
    + destruct (Nat.eqb_spec (tid t) id); [subst; congruence | reflexivity].
  - split; [intros H; split; [exact H | discriminate] | now intros [H _]].
Qed.

Section TimersOk.
Variables (ts : list Timer) (nt : nat) (wd tk : option nat).
Hypothesis H : timers_ok ts nt wd tk.

Lemma ok_ticker_not_watchdog i j :
  tk = Some i -> wd = Some j -> i <> j.
Proof.
  destruct H as (_ & _ & Hw & Ht). intros Hi Hj ->.
  destruct (Hw j Hj) as [_ Hcb].
  specialize (Hcb (ticker_timer j) (Ht j Hi) eq_refl). discriminate Hcb.
Qed.

(** A one-shot timer goes. *)
Lemma ok_remove (t : Timer) :
  In t ts -> repeating t = false ->
  timers_ok (cancelled (Some (tid t)) ts) nt wd tk.
Proof.
  destruct H as (Hd & Hf & Hw & Ht). intros Hin Hrep.
  split; [now apply tids_filter |]. split; [| split].
  - rewrite Forall_forall in *. intros t' Ht'.
    apply cancelled_In in Ht' as [Ht' _]. auto.
  - intros j Hj. destruct (Hw j Hj) as [Hlt Hcb]. split; [exact Hlt |].
    intros t' Ht'. apply cancelled_In in Ht' as [Ht' _]. auto.
  - intros i Hi. apply cancelled_In. split; [auto |].
    intros [= Heq].
    assert (E : t = ticker_timer i)
      by (apply (@NoDup_tid_inj ts); auto).
    rewrite E in Hrep. discriminate Hrep.
Qed.

Lemma ok_reconnect : timers_ok (reconnect_timer nt :: ts) (S nt) wd tk.
Proof.
  destruct H as (Hd & Hf & Hw & Ht). rewrite Forall_forall in Hf.
  split; [| split; [| split]].
  - cbn. constructor; [| exact Hd].
    intros Hin. apply in_map_iff in Hin as (t & Ht' & Hin).
    destruct (Hf t Hin) as [Hlt _]. lia.
  - constructor; [split; cbn; [lia | reflexivity] |].
    rewrite Forall_forall. intros t Ht'. destruct (Hf t Ht') as [Hlt Hk].
    split; [lia | exact Hk].
  - intros j Hj. destruct (Hw j Hj) as [Hlt Hcb]. split; [lia |].
    intros t [<- | Hin] Hid; [cbn in Hid; lia | auto].
  - intros i Hi. right. auto.
Qed.

(** No watchdog is pending but the one [state.timeout] holds. *)
Lemma ok_disarm_watchdog : timers_ok (cancelled wd ts) nt None tk.
Proof.
  destruct H as (Hd & Hf & Hw & Ht). split; [| split; [| split]].
  - unfold cancelled. destruct wd; [now apply tids_filter | exact Hd].
  - rewrite Forall_forall in *. intros t Hin.
    apply cancelled_In in Hin as [Hin Hne].
    destruct (Hf t Hin) as [Hlt Hk]. split; [exact Hlt |].
    destruct (callback t); [destruct Hk; contradiction | exact Hk ..].
  - discriminate.
  - intros i Hi. apply cancelled_In. split; [auto |].
    intros Hj. cbn in Hj. exact (ok_ticker_not_watchdog Hi Hj eq_refl).
Qed.

(** No ticker is pending but the one [state._ticker] holds. *)
Lemma ok_disarm_ticker : timers_ok (cancelled tk ts) nt wd None.
Proof.
  destruct H as (Hd & Hf & Hw & Ht). split; [| split; [| split]].
  - unfold cancelled. destruct tk; [now apply tids_filter | exact Hd].
  - rewrite Forall_forall in *. intros t Hin.
    apply cancelled_In in Hin as [Hin Hne].
    destruct (Hf t Hin) as [Hlt Hk]. split; [exact Hlt |].
    destruct (callback t); [exact Hk | exact Hk | destruct Hk; contradiction].
  - intros j Hj. destruct (Hw j Hj) as [Hlt Hcb]. split; [exact Hlt |].
    intros t Hin. apply cancelled_In in Hin as [Hin _]. auto.
  - discriminate.
Qed.

Lemma armed_cancel_ticker : armed_at ts wd -> armed_at (cancelled tk ts) wd.
Proof.
  intros (j & Hj & Hin). exists j. split; [exact Hj |].
  apply cancelled_In. split; [exact Hin |].
  intros Hi. cbn in Hi. exact (ok_ticker_not_watchdog Hi Hj eq_refl).
Qed.

Lemma armed_remove (t : Timer) :
  In t ts -> callback t <> CbWatchdog ->
  armed_at ts wd -> armed_at (cancelled (Some (tid t)) ts) wd.
Proof.
  intros Hin Hcb (j & Hj & Hin'). exists j. split; [exact Hj |].
  apply cancelled_In. split; [exact Hin' |].
  intros [= Heq]. apply Hcb.
  assert (E : t = watchdog_timer j)
    by (apply (@NoDup_tid_inj ts); auto; exact (proj1 H)).
  rewrite E. reflexivity.
Qed.

End TimersOk.

Lemma ok_arm_watchdog ts nt wd tk :
  timers_ok ts nt wd tk ->
  timers_ok (watchdog_timer nt :: cancelled wd ts) (S nt) (Some nt) tk.
Proof.
  intros H. pose proof (ok_disarm_watchdog H) as (Hd & Hf & _ & Ht).
  rewrite Forall_forall in Hf. split; [| split; [| split]].
  - cbn. constructor; [| exact Hd].
    intros Hin. apply in_map_iff in Hin as (t & Ht' & Hin).
    destruct (Hf t Hin) as [Hlt _]. lia.
  - constructor; [split; cbn; [lia | split; reflexivity] |].
    rewrite Forall_forall. intros t Ht'. destruct (Hf t Ht') as [Hlt Hk].
    split; [lia |].
    destruct (callback t); [destruct Hk; discriminate | exact Hk ..].
  - intros j [= <-]. split; [lia |].
    intros t [<- | Hin] Hid; [reflexivity |].
    destruct (Hf t Hin) as [Hlt _]. lia.
  - intros i Hi. right. auto.
Qed.

Lemma ok_arm_ticker ts nt wd tk :
  timers_ok ts nt wd tk ->
  timers_ok (ticker_timer nt :: cancelled tk ts) (S nt) wd (Some nt).
Proof.
  intros H. pose proof (ok_disarm_ticker H) as (Hd & Hf & Hw & _).
  rewrite Forall_forall in Hf. split; [| split; [| split]].
  - cbn. constructor; [| exact Hd].
    intros Hin. apply in_map_iff in Hin as (t & Ht' & Hin).
    destruct (Hf t Hin) as [Hlt _]. lia.
  - constructor; [split; cbn; [lia | split; reflexivity] |].
    rewrite Forall_forall. intros t Ht'. destruct (Hf t Ht') as [Hlt Hk].
    split; [lia |].
    destruct (callback t); [exact Hk | exact Hk | destruct Hk; discriminate].
  - intros j Hj. destruct (Hw j Hj) as [Hlt Hcb]. split; [lia |].
    intros t [<- | Hin] Hid; [cbn in Hid; lia | auto].
  - intros i [= <-]. now left.
Qed.

Lemma armed_cons (t : Timer) ts wd : armed_at ts wd -> armed_at (t :: ts) wd.
Proof. intros (j & Hj & Hin). exists j. split; [exact Hj | now right]. Qed.

(** *** What keeps an invariant *)

Section Keeps.
Context {A B : Type}.
Variable I : World -> Prop.

Lemma keeps_ret (a : A) : keeps I (ret a).
Proof. intros w H. exact H. Qed.

Lemma keeps_throw msg : keeps I (@throw A msg).
Proof. intros w H. exact H. Qed.

Lemma keeps_get (f : World -> A) : keeps I (get f).
Proof. intros w H. exact H. Qed.

Lemma keeps_bind (m : M A) (k : A -> M B) :
  keeps I m -> (forall a, keeps I (k a)) -> keeps I (bind m k).
Proof.
  intros Hm Hk w H. apply wp_bind.
  eapply wp_conseq; [exact (Hm w H) |].
  intros [a | msg] w' H'; [exact (Hk a w' H') | exact H'].
Qed.

Lemma keeps_try (m : M A) (h : string -> M A) :
  keeps I m -> (forall msg, keeps I (h msg)) -> keeps I (try_catch m h).
Proof.
  intros Hm Hh w H. apply wp_try.
  eapply wp_conseq; [exact (Hm w H) |].
  intros [a | msg] w' H'; [exact H' | exact (Hh msg w' H')].
Qed.

End Keeps.

Section Closed.
Variable I : World -> Prop.
Hypothesis HI : closed I.

Lemma keeps_Date_now : keeps I Date_now.
Proof. intros w H. apply (cl_ctr HI); [reflexivity | exact H]. Qed.

Lemma keeps_Math_random : keeps I Math_random.
Proof. intros w H. apply (cl_ctr HI); [reflexivity | exact H]. Qed.

Lemma keeps_new_client : keeps I new_client.
Proof. intros w H. apply (cl_ctr HI); [reflexivity | exact H]. Qed.

Lemma keeps_lib_call c : keeps I (lib_call c).
Proof.
  intros w H. apply wp_lib_call; cbn; intros;
    apply (cl_calls HI); apply (cl_ctr HI); (reflexivity || exact H).
Qed.

Lemma keeps_log l msg : keeps I (log l msg).
Proof. intros w H. apply (cl_logs HI). exact H. Qed.

Lemma keeps_upd_cache f : keeps I (upd_cache f).
Proof. intros w H. apply (cl_cache HI). exact H. Qed.

Lemma keeps_calls (f : World -> list LibCall) :
  keeps I (modify (fun w => set_calls (f w) w)).
Proof. intros w H. apply (cl_calls HI). exact H. Qed.

Lemma keeps_upd_svc f :
  (forall s, st_timeout (f s) = st_timeout s) -> keeps I (upd_svc f).
Proof. intros Hf w H. apply (cl_svc HI); [apply Hf | exact H]. Qed.

Lemma keeps_upd_rpc f :
  (forall r, ticker (f r) = ticker r) -> keeps I (upd_rpc f).
Proof. intros Hf w H. apply (cl_rpc HI); [apply Hf | exact H]. Qed.

End Closed.

Ltac keeps_step HI :=
  lazymatch goal with
  | |- keeps _ (bind Rpc.stop_ticker _) =>
      first [apply (cl_rearm HI)
            | apply keeps_bind; [apply (cl_stop HI) | intros ?]]
  | |- keeps _ (bind _ _) => apply keeps_bind; [| intros ?]
  | |- keeps _ (try_catch _ _) => apply keeps_try; [| intros ?]
  | |- keeps _ (when _ _) => unfold when
  | |- keeps _ (if ?b then _ else _) => destruct b
  | |- keeps _ (match ?x with _ => _ end) => destruct x
  | |- keeps _ (ret _) => apply keeps_ret
  | |- keeps _ (throw _) => apply keeps_throw
  | |- keeps _ (get _) => apply keeps_get
  | |- keeps _ Date_now => apply (keeps_Date_now HI)
  | |- keeps _ Math_random => apply (keeps_Math_random HI)
  | |- keeps _ new_client => apply (keeps_new_client HI)
  | |- keeps _ (lib_call _) => apply (keeps_lib_call HI)
  | |- keeps _ (log _ _) => apply (keeps_log HI)
  | |- keeps _ (upd_cache _) => apply (keeps_upd_cache HI)
  | |- keeps _ (upd_svc _) => apply (keeps_upd_svc HI); intros ?; reflexivity
  | |- keeps _ (upd_rpc _) => apply (keeps_upd_rpc HI); intros ?; reflexivity
  | |- keeps _ (modify _) => apply (keeps_calls HI)
  | |- keeps _ (setTimeout CbReconnect _) => apply (cl_retry HI)
  | |- keeps _ Rpc.stop_ticker => apply (cl_stop HI)
  end.

(** The client and the parts of the service that leave [state.timeout]
    alone keep every such invariant. *)
Section Client.
Variable I : World -> Prop.
Hypothesis HI : closed I.

Lemma keeps_set_activity data : keeps I (Rpc.set_activity data).
Proof. unfold Rpc.set_activity. repeat keeps_step HI. Qed.

Lemma keeps_clear_activity : keeps I Rpc.clear_activity.
Proof. unfold Rpc.clear_activity. repeat keeps_step HI. Qed.

Lemma keeps_update data : keeps I (Rpc.update data).
Proof.
  unfold Rpc.update, Rpc.is_connected. repeat keeps_step HI.
  apply keeps_set_activity.
Qed.

Lemma keeps_rpc_pause : keeps I Rpc.pause.
Proof. unfold Rpc.pause. repeat keeps_step HI. apply keeps_set_activity. Qed.

Lemma keeps_rpc_resume : keeps I Rpc.resume.
Proof. unfold Rpc.resume. repeat keeps_step HI. apply keeps_set_activity. Qed.

Lemma keeps_rpc_reset : keeps I Rpc.reset.
Proof. unfold Rpc.reset. repeat keeps_step HI. apply keeps_clear_activity. Qed.

Lemma keeps_disconnect : keeps I Rpc.disconnect.
Proof. unfold Rpc.disconnect. repeat keeps_step HI. Qed.

Lemma keeps_destroy : keeps I Rpc.destroy.
Proof. unfold Rpc.destroy. repeat keeps_step HI. apply keeps_disconnect. Qed.

Lemma keeps_create id : keeps I (Rpc.create id).
Proof. unfold Rpc.create. repeat keeps_step HI. apply keeps_destroy. Qed.

Lemma keeps_connect id : keeps I (Rpc.connect id).
Proof. unfold Rpc.connect. repeat keeps_step HI. apply keeps_create. Qed.

Lemma keeps_reconnect : keeps I Rpc.reconnect.
Proof. unfold Rpc.reconnect. repeat keeps_step HI. apply keeps_connect. Qed.

Lemma keeps_handle_ready : keeps I Rpc.handle_ready.
Proof.
  unfold Rpc.handle_ready. repeat keeps_step HI. apply keeps_set_activity.
Qed.

Lemma keeps_handle_disconnect : keeps I Rpc.handle_disconnect.
Proof. unfold Rpc.handle_disconnect. repeat keeps_step HI. Qed.

Lemma keeps_handle_error : keeps I Rpc.handle_error.
Proof. unfold Rpc.handle_error. repeat keeps_step HI. Qed.

Lemma keeps_tick : keeps I Rpc.tick.
Proof. unfold Rpc.tick. repeat keeps_step HI. Qed.

Lemma keeps_end_session : keeps I Netflix.end_session.
Proof. unfold Netflix.end_session. repeat keeps_step HI. Qed.

Lemma keeps_create_session n : keeps I (Netflix.create_session n).
Proof.
  unfold Netflix.create_session, Netflix.generate_id. repeat keeps_step HI.
Qed.

Lemma keeps_update_session n : keeps I (Netflix.update_session n).
Proof.
  unfold Netflix.update_session. repeat keeps_step HI;
    apply keeps_end_session || apply keeps_create_session.
Qed.

Lemma keeps_normalize d : keeps I (Netflix.normalize d).
Proof. unfold Netflix.normalize, Netflix.sanitize. repeat keeps_step HI. Qed.

Lemma keeps_should_update n : keeps I (Netflix.should_update n).
Proof. unfold Netflix.should_update. repeat keeps_step HI. Qed.

Lemma keeps_pause : keeps I Netflix.pause.
Proof. unfold Netflix.pause. repeat keeps_step HI. apply keeps_rpc_pause. Qed.

Lemma keeps_resume : keeps I Netflix.resume.
Proof. unfold Netflix.resume. repeat keeps_step HI. apply keeps_rpc_resume. Qed.

Lemma keeps_handle_timeout : keeps I Netflix.handle_timeout.
Proof.
  unfold Netflix.handle_timeout, Rpc.clear. repeat keeps_step HI;
    apply keeps_end_session || apply keeps_clear_activity.
Qed.

(** What [process] does once the watchdog is armed again. *)
Lemma keeps_commit (n : Sample) :
  keeps I
    (cur <- get (fun w => st_current (svc w)) ;;
     upd_svc (Netflix.set_previous cur) ;;
     upd_svc (Netflix.set_current (Some n)) ;;
     now <- Date_now ;;
     upd_svc (Netflix.set_lastUpdate now) ;;
     upd_svc (Netflix.set_paused (negb (playing n))) ;;
     try_catch
       (Rpc.update (Netflix.act_data n) ;;
        log LInfo "RPC updated" ;;
        t <- Date_now ;;
        upd_cache (fun c => {| c_data := Some n; c_timestamp := t;
                               hits := hits c; misses := misses c |}) ;;
        s <- get (fun w => st_session (svc w)) ;;
        ret (RUpdated n s))
       (fun msg =>
          log LError "Failed to update RPC" ;;
          ret (RError msg))).
Proof. repeat keeps_step HI. apply keeps_update. Qed.

End Client.

(** *** The discipline is kept *)

Lemma timers_closed : closed timers_inv.
Proof.
  split.
  - intros w c Hc H. unfold timers_inv in *. cbn. rewrite Hc. exact H.
  - intros w cs H. exact H.
  - intros w l H. exact H.
  - intros w c H. exact H.
  - intros w s Hs H. unfold timers_inv in *. cbn. rewrite Hs. exact H.
  - intros w r Hr H. unfold timers_inv in *. cbn. rewrite Hr. exact H.
  - intros w H. exact (ok_reconnect H).
  - intros w H. unfold Rpc.stop_ticker.
    wp_run; unfold timers_inv in *; cbn.
    + rewrite Heqo in H. exact (ok_disarm_ticker H).
    + exact H.
  - intros b k Hk w H. unfold Rpc.stop_ticker.
    wp_run; apply Hk; unfold timers_inv in *; cbn.
    + rewrite Heqo in H. exact (ok_arm_ticker H).
    + rewrite Heqo in H. exact (ok_disarm_ticker H).
    + rewrite Heqo in H. exact (ok_arm_ticker H).
    + exact H.
Qed.

Lemma guarded_closed : closed guarded.
Proof.
  split.
  - intros w c Hc [H Ha]. split; [exact (cl_ctr timers_closed _ _ Hc H) | exact Ha].
  - intros w cs [H Ha]. split; [exact H | exact Ha].
  - intros w l [H Ha]. split; [exact H | exact Ha].
  - intros w c [H Ha]. split; [exact H | exact Ha].
  - intros w s Hs [H Ha].
    split; [exact (cl_svc timers_closed _ _ Hs H) |].
    unfold armed in *. cbn. rewrite Hs. exact Ha.
  - intros w r Hr [H Ha]. split; [exact (cl_rpc timers_closed _ _ Hr H) | exact Ha].
  - intros w [H Ha]. split; [exact (ok_reconnect H) |].
    exact (armed_cons _ Ha).
  - intros w [H Ha]. unfold Rpc.stop_ticker.
    wp_run; unfold guarded, timers_inv, armed in *; cbn.
    + rewrite Heqo in H.
      split; [exact (ok_disarm_ticker H) | exact (armed_cancel_ticker H Ha)].
    + split; assumption.
  - intros b k Hk w [H Ha]. unfold Rpc.stop_ticker.
    wp_run; apply Hk; unfold guarded, timers_inv, armed in *; cbn.
    + rewrite Heqo in H. split; [exact (ok_arm_ticker H) |].
      exact (armed_cons _ (armed_cancel_ticker H Ha)).
    + rewrite Heqo in H.
      split; [exact (ok_disarm_ticker H) | exact (armed_cancel_ticker H Ha)].
    + rewrite Heqo in H. split; [exact (ok_arm_ticker H) |].
      exact (armed_cons _ (armed_cancel_ticker H Ha)).
    + split; assumption.
Qed.

(** [state.timeout] is cleared with its timer. *)
Lemma keeps_disarm {A} (k : M A) :
  keeps timers_inv k ->
  keeps timers_inv
    (t <- get (fun w => st_timeout (svc w)) ;;
     match t with
     | Some id => clearTimeout id ;; upd_svc (Netflix.set_timeout None)
     | None => ret tt
     end ;; k).
Proof.
  intros Hk w H. wp_run; apply Hk; unfold timers_inv in *; cbn.
  - rewrite Heqo in H. exact (ok_disarm_watchdog H).
  - exact H.
Qed.

(** [reset_timeout] arms the watchdog, after it cleared the one before. *)
Lemma reset_timeout_guards w :
  timers_inv w -> wp Netflix.reset_timeout (fun r w' => r = Ok tt /\ guarded w') w.
Proof.
  intros H. unfold Netflix.reset_timeout.
  wp_run; (split; [reflexivity |]); unfold guarded, timers_inv, armed in *; cbn.
  - rewrite Heqo in H. split; [exact (ok_arm_watchdog H) |].
    eexists. split; [reflexivity | now left].
  - rewrite Heqo in H. split; [exact (ok_arm_watchdog H) |].
    eexists. split; [reflexivity | now left].
Qed.

Lemma keeps_reset_timeout : keeps timers_inv Netflix.reset_timeout.
Proof.
  intros w H. eapply wp_conseq; [exact (reset_timeout_guards H) |].
  cbn. intros r w' [_ [H' _]]. exact H'.
Qed.

Lemma keeps_process d : keeps timers_inv (Netflix.process d).
Proof.
  unfold Netflix.process. repeat keeps_step timers_closed.
  - apply (keeps_normalize timers_closed).
  - apply (keeps_should_update timers_closed).
  - apply (keeps_update_session timers_closed).
  - apply keeps_reset_timeout.
  - apply (keeps_update timers_closed).
Qed.

Lemma keeps_stop : keeps timers_inv Netflix.stop.
Proof.
  unfold Netflix.stop, Rpc.clear.
  apply keeps_try; [| intros ?; repeat keeps_step timers_closed].
  apply keeps_bind; [apply (keeps_clear_activity timers_closed) | intros ?].
  apply keeps_bind; [apply (keeps_end_session timers_closed) | intros ?].
  apply keeps_disarm. repeat keeps_step timers_closed.
Qed.

Lemma keeps_reset : keeps timers_inv Netflix.reset.
Proof.
  intros w H. unfold Netflix.reset, Netflix.end_session.
  wp_run; unfold timers_inv in *; cbn; rewrite Heqo in H.
  all: exact (ok_disarm_watchdog H).
Qed.

Lemma find_tid (id : nat) (ts : list Timer) (t : Timer) :
  find (fun t' => Nat.eqb (tid t') id) ts = Some t -> In t ts /\ tid t = id.
Proof.
  intros H. apply find_some in H as [Hin Hid].
  split; [exact Hin | now apply Nat.eqb_eq].
Qed.

Lemma keeps_fire id : keeps timers_inv (fire id).
Proof.
  intros w H. unfold fire. do 2 wp_step.
  destruct (find (fun t => Nat.eqb (tid t) id) (timers w)) as [t |] eqn:Hf;
    [| exact H].
  apply find_tid in Hf as [Hin <-].
  assert (Hcb : keeps timers_inv
                  match callback t with
                  | CbWatchdog => Netflix.handle_timeout
                  | CbReconnect => Rpc.reconnect ;; ret tt
                  | CbTicker => Rpc.tick
                  end).
  { destruct (callback t); repeat keeps_step timers_closed.
    - apply (keeps_handle_timeout timers_closed).
    - apply (keeps_reconnect timers_closed).
    - apply (keeps_tick timers_closed). }
  wp_step. destruct (repeating t) eqn:Hrep; wp_step; apply Hcb; [exact H |].
  exact (ok_remove H t Hin Hrep).
Qed.

Lemma keeps_run_event ev : keeps timers_inv (run ev).
Proof.
  destruct ev; cbn [run]; repeat keeps_step timers_closed;
    first [apply keeps_process | apply (keeps_pause timers_closed)
          | apply (keeps_resume timers_closed)
          | apply keeps_stop | apply keeps_reset
          | apply (keeps_connect timers_closed)
          | apply (keeps_disconnect timers_closed)
          | apply (keeps_destroy timers_closed)
          | apply (keeps_handle_ready timers_closed)
          | apply (keeps_handle_disconnect timers_closed)
          | apply (keeps_handle_error timers_closed) | apply keeps_fire].
Qed.

Lemma reachable_timers_inv e w : reachable e w -> timers_inv w.
Proof.
  induction 1 as [| ev w _ IH].
  - repeat split; cbn; try constructor; try discriminate.
  - exact (@keeps_run_event ev w IH).
Qed.

(** *** An active service has its watchdog armed *)

Lemma wp_and {A} (m : M A) (Q1 Q2 : Res A -> World -> Prop) w :
  wp m Q1 w -> wp m Q2 w -> wp m (fun r w' => Q1 r w' /\ Q2 r w') w.
Proof. unfold wp. auto. Qed.

Lemma process_guards d w n w1 w2 :
  Netflix.validate d = true ->
  Netflix.normalize d w = (Ok n, w1) ->
  Netflix.should_update n w1 = (Ok true, w2) ->
  timers_inv w ->
  guarded (exec (Netflix.process d) w).
Proof.
  intros Hv Hn Hs H.
  pose proof (@keeps_normalize timers_inv timers_closed d w H) as H1.
  unfold wp in H1. rewrite Hn in H1. cbn in H1.
  pose proof (@keeps_should_update timers_inv timers_closed n w1 H1) as H2.
  unfold wp in H2. rewrite Hs in H2. cbn in H2.
  apply (wp_inv (fun _ w' => guarded w')).
  unfold Netflix.process. rewrite Hv. cbn [negb].
  apply wp_bind. eapply wp_eq; [exact Hn |]. cbv beta iota.
  apply wp_bind. eapply wp_eq; [exact Hs |]. cbn [negb].
  apply wp_bind. eapply wp_eq; [reflexivity |]. cbv beta iota.
  apply wp_bind. eapply wp_conseq.
  { apply wp_and; [apply update_session_frame |].
    apply (keeps_update_session timers_closed).
    apply (cl_cache timers_closed). exact H2. }
  intros r w3 [(_ & _ & _ & s & -> & _) K]. cbv beta iota.
  apply wp_bind. eapply wp_conseq; [exact (reset_timeout_guards K) |].
  intros r w4 [-> G]. cbv beta iota.
  exact (@keeps_commit guarded guarded_closed n w4 G).
Qed.

Lemma active_kept {A} (m : M A) w :
  keeps guarded m ->
  st_current (svc (exec m w)) = st_current (svc w) ->
  timers_inv w -> active_inv w -> active_inv (exec m w).
Proof.
  intros Hk Hc H Ha Hcur. rewrite Hc in Hcur.
  exact (proj2 (Hk w (conj H (Ha Hcur)))).
Qed.

Lemma active_untouched {A} (m : M A) w :
  keeps guarded m ->
  wp m (fun r w' => returned r /\ service_untouched w w') w ->
  timers_inv w -> active_inv w -> active_inv (exec m w).
Proof.
  intros Hk (_ & _ & Hs & _). apply active_kept; [exact Hk |].
  unfold exec. now rewrite Hs.
Qed.

Lemma inactive_active_inv w : st_current (svc w) = None -> active_inv w.
Proof. intros H Hc. congruence. Qed.

Lemma fire_active_inv id w :
  timers_inv w -> active_inv w -> active_inv (exec (fire id) w).
Proof.
  intros H Ha.
  apply (wp_inv (fun _ w' => active_inv w')).
  unfold fire. do 2 wp_step.
  destruct (find (fun t => Nat.eqb (tid t) id) (timers w)) as [t |] eqn:Hf;
    [| exact Ha].
  apply find_tid in Hf as [Hin <-].
  destruct (callback t) eqn:Hcb.
  - wp_step. destruct (repeating t); wp_step;
      (wp_use handle_timeout_spec; destruct H0 as (_ & Hs & _);
       apply inactive_active_inv; now rewrite Hs).
  - assert (Hrest : forall w0, timers_inv w0 -> active_inv w0 ->
                      wp (Rpc.reconnect ;; ret tt) (fun _ w' => active_inv w') w0).
    { intros w0 H0 Ha0.
      apply (@active_untouched _ (Rpc.reconnect ;; ret tt) w0); auto.
      - repeat keeps_step guarded_closed. apply (keeps_reconnect guarded_closed).
      - wp_step. wp_use reconnect_frame. destruct H1 as [[b ->] F].
        wp_run. split; [eexists; reflexivity | exact F]. }
    wp_step. destruct (repeating t) eqn:Hrep; wp_step; apply Hrest; auto.
    + exact (ok_remove H t Hin Hrep).
    + intros Hcur. apply (armed_remove H t Hin); [congruence |].
      exact (Ha Hcur).
  - assert (Hrest : forall w0, timers_inv w0 -> active_inv w0 ->
                      wp Rpc.tick (fun _ w' => active_inv w') w0).
    { intros w0 H0 Ha0.
      apply (@active_untouched _ Rpc.tick w0); auto.
      - apply (keeps_tick guarded_closed).
      - apply tick_frame. }
    wp_step. destruct (repeating t) eqn:Hrep; wp_step; apply Hrest; auto.
    + exact (ok_remove H t Hin Hrep).
    + intros Hcur. apply (armed_remove H t Hin); [congruence |].
      exact (Ha Hcur).
Qed.

Lemma step_active_inv ev w :
  timers_inv w -> active_inv w -> active_inv (step ev w).
Proof.
  intros H Ha. unfold step. destruct ev; cbn [run]; rewrite ?exec_then_ret.
  - destruct (Netflix.validate data) eqn:Hv.
    + destruct (normalize_total data w) as (n & w1 & Hn).
      destruct (should_update_spec n w1) as ([|] & w2 & Hs & _).
      * intros _. exact (proj2 (@process_guards data w n w1 w2 Hv Hn Hs H)).
      * destruct (@process_cases data w n w1 Hv Hn)
          as [[_ (s & Hr & _)] | (_ & _ & Hsvc & Ht & _)].
        { unfold result in Hr.
          rewrite (@process_suppressed data w n w1 w2 Hv Hn Hs) in Hr.
          discriminate Hr. }
        unfold active_inv, armed. now rewrite Hsvc, Ht.
    + unfold exec. rewrite (process_invalid _ w Hv). exact Ha.
  - apply active_kept; auto; [apply (keeps_pause guarded_closed) |].
    exact (proj2 (pause_svc w)).
  - apply active_kept; auto; [apply (keeps_resume guarded_closed) |].
    exact (proj2 (resume_svc w)).
  - destruct (stop_spec w) as (_ & Hs & _). fold (exec Netflix.stop w) in Hs.
    apply inactive_active_inv. now rewrite Hs.
  - destruct (reset_spec w) as (_ & Hs & _). fold (exec Netflix.reset w) in Hs.
    apply inactive_active_inv. now rewrite Hs.
  - apply active_untouched; auto;
      [apply (keeps_connect guarded_closed) | apply connect_frame].
  - apply active_untouched; auto;
      [apply (keeps_disconnect guarded_closed) | apply disconnect_frame].
  - apply active_untouched; auto;
      [apply (keeps_destroy guarded_closed) | apply destroy_frame].
  - apply active_untouched; auto;
      [apply (keeps_handle_ready guarded_closed) | apply handle_ready_frame].
  - apply active_untouched; auto;
      [apply (keeps_handle_disconnect guarded_closed)
      | apply handle_disconnect_frame].
  - apply active_untouched; auto;
      [apply (keeps_handle_error guarded_closed) | apply handle_error_frame].
  - now apply fire_active_inv.
Qed.

Lemma reachable_active_inv e w : reachable e w -> active_inv w.
Proof.
  induction 1 as [| ev w Hr IH].
  - intros Hc. now cbn in Hc.
  - exact (@step_active_inv ev w (reachable_timers_inv Hr) IH).
Qed.

(** *** Consequences *)

Lemma at_most_one (p : Timer -> bool) (id : nat) (ts : list Timer) :
  NoDup (map tid ts) ->
  (forall t, In t ts -> p t = true -> tid t = id) ->
  (List.length (filter p ts) <= 1)%nat.
Proof.
  induction ts as [| a ts IH]; cbn; [lia |].
  intros Hd Hp. inversion Hd as [| ? ? Hn Hd']; subst.
  destruct (p a) eqn:Ha; [| apply IH; auto].
  assert (Hnone : filter p ts = []).
  { destruct (filter p ts) as [| t rest] eqn:Hf; [reflexivity |].
    assert (Hin : In t (filter p ts)) by (rewrite Hf; now left).
    apply filter_In in Hin as [Hin Ht]. exfalso. apply Hn.
    rewrite (Hp a (or_introl eq_refl) Ha), <- (Hp t (or_intror Hin) Ht).
    now apply in_map. }
  cbn. rewrite Hnone. cbn. lia.
Qed.

Lemma none_pending (p : Timer -> bool) (ts : list Timer) :
  (forall t, In t ts -> p t = true -> False) -> filter p ts = [].
Proof.
  intros H. destruct (filter p ts) as [| t rest] eqn:Hf; [reflexivity |].
  assert (Hin : In t (filter p ts)) by (rewrite Hf; now left).
  apply filter_In in Hin as [Hin Ht]. destruct (H t Hin Ht).
Qed.

Lemma timers_inv_watchdog w t :
  timers_inv w -> In t (timers w) -> is_watchdog t = true ->
  st_timeout (svc w) = Some (tid t) /\ t = watchdog_timer (tid t).
Proof.
  intros (_ & Hf & _) Hin Hw. rewrite Forall_forall in Hf.
  destruct (Hf t Hin) as [_ Hk]. unfold is_watchdog in Hw.
  destruct (callback t); (exact Hk || discriminate Hw).
Qed.

Lemma timers_inv_ticker w t :
  timers_inv w -> In t (timers w) -> is_ticker t = true ->
  ticker (rpc w) = Some (tid t) /\ t = ticker_timer (tid t).
Proof.
  intros (_ & Hf & _) Hin Hw. rewrite Forall_forall in Hf.
  destruct (Hf t Hin) as [_ Hk]. unfold is_ticker in Hw.
  destruct (callback t); (exact Hk || discriminate Hw).
Qed.

(** X9. In every world the system can reach at most one watchdog is
    pending: the one-shot timer of 60000 ms whose identifier
    [state.timeout] holds.  Every accepted sample cancels the watchdog
    before it arms the next one. *)
Theorem watchdog_unique (e : Env) (w : World) :
  reachable e w ->
  (List.length (filter is_watchdog (timers w)) <= 1)%nat
  /\ forall t, In t (timers w) -> is_watchdog t = true ->
       st_timeout (svc w) = Some (tid t)
       /\ delay t = 60000 /\ repeating t = false.
Proof.
  intros Hr. pose proof (reachable_timers_inv Hr) as Hinv.
  assert (Hw : forall t, In t (timers w) -> is_watchdog t = true ->
                 st_timeout (svc w) = Some (tid t)
                 /\ t = watchdog_timer (tid t))
    by (intros t; apply timers_inv_watchdog; exact Hinv).
  split.
  - destruct (st_timeout (svc w)) as [id |] eqn:Hid.
    + apply at_most_one with (id := id); [exact (proj1 Hinv) |].
      intros t Hin Ht. destruct (Hw t Hin Ht) as [[= ->] _]. reflexivity.
    + rewrite none_pending; [cbn; lia |].
      intros t Hin Ht. destruct (Hw t Hin Ht) as [[=] _].
  - intros t Hin Ht. destruct (Hw t Hin Ht) as [Hid ->].
    repeat split. exact Hid.
Qed.

Lemma watchdog_unique_witness :
  (List.length (filter is_watchdog (timers showing)) <= 1)%nat
  /\ forall t, In t (timers showing) -> is_watchdog t = true ->
       st_timeout (svc showing) = Some (tid t)
       /\ delay t = 60000 /\ repeating t = false.
Proof. exact (@watchdog_unique env_up showing showing_reachable). Defined.

(** X10. In every world the system can reach at most one ticker is pending:
    the repeating timer of 15000 ms whose identifier [state._ticker] holds,
    and [state._ticker] never names a timer that is gone.  [set_activity]
    clears the interval before it sets the next one; [clear_activity] and
    [destroy] clear it. *)
Theorem ticker_unique (e : Env) (w : World) :
  reachable e w ->
  (List.length (filter is_ticker (timers w)) <= 1)%nat
  /\ (forall t, In t (timers w) -> is_ticker t = true ->
        ticker (rpc w) = Some (tid t)
        /\ delay t = 15000 /\ repeating t = true)
  /\ (forall i, ticker (rpc w) = Some i -> In (ticker_timer i) (timers w)).
Proof.
  intros Hr. pose proof (reachable_timers_inv Hr) as Hinv.
  assert (Hw : forall t, In t (timers w) -> is_ticker t = true ->
                 ticker (rpc w) = Some (tid t)
                 /\ t = ticker_timer (tid t))
    by (intros t; apply timers_inv_ticker; exact Hinv).
  split; [| split].
  - destruct (ticker (rpc w)) as [id |] eqn:Hid.
    + apply at_most_one with (id := id); [exact (proj1 Hinv) |].
      intros t Hin Ht. destruct (Hw t Hin Ht) as [[= ->] _]. reflexivity.
    + rewrite none_pending; [cbn; lia |].
      intros t Hin Ht. destruct (Hw t Hin Ht) as [[=] _].
  - intros t Hin Ht. destruct (Hw t Hin Ht) as [Hid ->].
    repeat split. exact Hid.
  - exact (proj2 (proj2 (proj2 Hinv))).
Qed.

Lemma ticker_unique_witness :
  (List.length (filter is_ticker (timers showing)) <= 1)%nat
  /\ In (ticker_timer 1) (timers showing).
Proof.
  destruct (@ticker_unique env_up showing showing_reachable) as (H1 & _ & H3).
  split; [exact H1 |]. apply H3. reflexivity.
Defined.

Lemma no_watchdog_without_timeout w :
  timers_inv w -> st_timeout (svc w) = None ->
  filter is_watchdog (timers w) = [].
Proof.
  intros Hinv Hn. apply none_pending. intros t Hin Ht.
  destruct (@timers_inv_watchdog w t Hinv Hin Ht) as [Hs _]. congruence.
Qed.

Lemma fire_watchdog_timers (w : World) (t : Timer) :
  find (fun t' => Nat.eqb (tid t') (tid t)) (timers w) = Some t ->
  callback t = CbWatchdog -> repeating t = false ->
  forall t', In t' (timers (exec (fire (tid t)) w)) -> tid t' <> tid t.
Proof.
  intros Hfind Hcb Hrep.
  apply (wp_inv (fun _ w' => forall t', In t' (timers w') -> tid t' <> tid t)).
  unfold fire. do 2 wp_step. rewrite Hfind, Hcb, Hrep.
  do 2 wp_step. wp_use handle_timeout_spec.
  destruct H as (_ & _ & _ & Ht & _). intros t' Hin.
  rewrite Ht in Hin. cbn in Hin.
  assert (Hin0 : In t' (filter (fun t0 => negb (Nat.eqb (tid t0) (tid t)))
                          (timers w))).
  { unfold cancelled in Hin.
    destruct (if clear_succeeds _ then _ else _);
      [apply filter_In in Hin as [Hin _] |]; exact Hin. }
  apply filter_In in Hin0 as [_ Hne].
  intros Heq. rewrite Heq, Nat.eqb_refl in Hne. discriminate Hne.
Qed.

(** X11. In a world the system can reach, no watchdog is pending after
    [stop()], after [reset()], or after the watchdog has fired: the service
    is not timed out again before it accepts another sample. *)
Theorem watchdog_disarmed (e : Env) (w : World) :
  reachable e w ->
  filter is_watchdog (timers (exec Netflix.stop w)) = []
  /\ filter is_watchdog (timers (exec Netflix.reset w)) = []
  /\ forall t, find (fun t' => Nat.eqb (tid t') (tid t)) (timers w) = Some t ->
               is_watchdog t = true ->
               filter is_watchdog (timers (exec (fire (tid t)) w)) = [].
Proof.
  intros Hr. pose proof (reachable_timers_inv Hr) as Hinv.
  split; [| split].
  - apply no_watchdog_without_timeout; [exact (@keeps_stop w Hinv) |].
    destruct (stop_spec w) as (_ & Hs & _).
    fold (exec Netflix.stop w) in Hs. now rewrite Hs.
  - apply no_watchdog_without_timeout; [exact (@keeps_reset w Hinv) |].
    destruct (reset_spec w) as (_ & Hs & _).
    fold (exec Netflix.reset w) in Hs. now rewrite Hs.
  - intros t Hfind Hw.
    pose proof (find_some _ _ Hfind) as [Hin _].
    destruct (@timers_inv_watchdog w t Hinv Hin Hw) as [Hid Ht].
    assert (Hcb : callback t = CbWatchdog) by (rewrite Ht; reflexivity).
    assert (Hrep : repeating t = false) by (rewrite Ht; reflexivity).
    pose proof (@keeps_fire (tid t) w Hinv) as Hinv'.
    apply (wp_inv (fun _ w' => timers_inv w')) in Hinv'.
    destruct (@fire_watchdog w t Hfind Hcb) as (Hsvc & _).
    fold (exec (fire (tid t)) w) in Hsvc.
    apply none_pending. intros t' Hin' Hw'.
    destruct (@timers_inv_watchdog _ t' Hinv' Hin' Hw') as [Hid' _].
    rewrite Hsvc in Hid'. cbn in Hid'. rewrite Hid in Hid'.
    injection Hid' as Heq.
    exact (@fire_watchdog_timers w t Hfind Hcb Hrep t' Hin' (eq_sym Heq)).
Qed.

Lemma watchdog_disarmed_witness :
  filter is_watchdog (timers (exec Netflix.stop showing)) = []
  /\ filter is_watchdog (timers (exec Netflix.reset showing)) = []
  /\ filter is_watchdog (timers (exec (fire 0%nat) showing)) = [].
Proof.
  destruct (@watchdog_disarmed env_up showing showing_reachable)
    as (H1 & H2 & H3).
  split; [exact H1 |]. split; [exact H2 |].
  apply (H3 (watchdog_timer 0)); vm_compute; reflexivity.
Defined.

(** X12. In every world the system can reach, an active service has its
    watchdog armed: while [status()] reports the service active, the timer
    [state.timeout] names is pending, so that a service that receives no
    further sample is always timed out. *)
Theorem active_service_guarded (e : Env) (w : World) :
  reachable e w ->
  active (Netflix.status w) = true ->
  exists id,
    st_timeout (svc w) = Some id /\ In (watchdog_timer id) (timers w).
Proof.
  intros Hr Hact. apply (reachable_active_inv Hr).
  unfold Netflix.status in Hact. cbn in Hact.
  destruct (st_current (svc w)); [discriminate | discriminate Hact].
Qed.

Lemma active_service_guarded_witness :
  exists id,
    st_timeout (svc showing) = Some id
    /\ In (watchdog_timer id) (timers showing).
Proof.
  exact (@active_service_guarded env_up showing showing_reachable eq_refl).
Defined.
(** * Further properties of the client *)

(** The activity [set_activity] keeps when the client is not ready. *)
Lemma set_activity_caches data w :
  Rpc.validate_data data = true ->
  (client (rpc w) = None \/ ready (rpc w) = false) ->
  wp (Rpc.set_activity data)
    (fun r w' =>
       r = Ok false /\ calls w' = calls w /\ timers w' = timers w
       /\ env w' = env w /\ libs (ctr w') = libs (ctr w)
       /\ client (rpc w') = client (rpc w)
       /\ activity (rpc w') =
          Some {| act_title := d_title data; act_current := d_current data;
                  act_duration := d_duration data;
                  act_playing := d_playing data;
                  act_lastUpdate := next_now w |}) w.
Proof.
  intros Hv Hnr. unfold Rpc.set_activity. rewrite Hv. cbn [negb].
  do 4 wp_step.
  destruct (client (rpc w)) as [c |] eqn:Hc, (ready (rpc w)) eqn:Hr;
    try (destruct Hnr; discriminate); cbn;
    wp_run; cbn; rewrite ?Hc; repeat split.
Qed.

(** X13. An activity set while the client exists but is not ready is not
    sent: [set_activity] answers false, keeps it, and leaves the timers
    alone; it is sent, rendered at that moment, as soon as the client is
    ready. *)
Theorem set_activity_deferred (data : ActData) (w : World) (c : nat) :
  Rpc.validate_data data = true ->
  client (rpc w) = Some c ->
  ready (rpc w) = false ->
  let w1 := exec (Rpc.set_activity data) w in
  result (Rpc.set_activity data) w = Ok false
  /\ calls w1 = calls w /\ timers w1 = timers w
  /\ calls (exec Rpc.handle_ready w1)
     = SetActivity c (rendered (next_now w1) data) :: calls w.
Proof.
  intros Hv Hc Hr. cbv zeta.
  pose proof (@set_activity_caches data w Hv (or_intror Hr)) as H.
  apply wp_inv in H. destruct H as (Hres & Hcalls & Htimers & _ & _ & Hcl & Hact).
  split; [exact Hres |]. split; [exact Hcalls |]. split; [exact Htimers |].
  rewrite Hc in Hcl.
  assert (Hd : Rpc.data_of_act
                 {| act_title := d_title data; act_current := d_current data;
                    act_duration := d_duration data;
                    act_playing := d_playing data;
                    act_lastUpdate := next_now w |} = data)
    by (destruct data; reflexivity).
  pose proof (@handle_ready_replays _ c _ Hcl Hact) as Hrep.
  rewrite Hd in Hrep. cbv zeta in Hrep.
  rewrite (Hrep Hv), Hcalls. reflexivity.
Qed.

Lemma set_activity_deferred_witness :
  let w := step (EConnect client_id) (init_world env_up) in
  let w1 := exec (Rpc.set_activity stranger_things) w in
  result (Rpc.set_activity stranger_things) w = Ok false
  /\ calls w1 = calls w /\ timers w1 = timers w
  /\ calls (exec Rpc.handle_ready w1)
     = SetActivity 0 (rendered (next_now w1) stranger_things) :: calls w.
Proof.
  apply (@set_activity_deferred stranger_things
           (step (EConnect client_id) (init_world env_up)) 0%nat);
    reflexivity.
Defined.

(** The outcome of [set_activity] with a ready client. *)
Lemma set_activity_result (data : ActData) (w : World) (c : nat) :
  Rpc.validate_data data = true ->
  client (rpc w) = Some c ->
  ready (rpc w) = true ->
  let timed := ((0 <? seconds (d_duration data))%float && d_playing data)%bool in
  match lib (env w) (libs (ctr w)) with
  | Some _ =>
      result (Rpc.set_activity data) w = Ok false
      /\ rpc (exec (Rpc.set_activity data) w) = rpc w
      /\ timers (exec (Rpc.set_activity data) w) = timers w
  | None =>
      result (Rpc.set_activity data) w = Ok true
      /\ activity (rpc (exec (Rpc.set_activity data) w)) =
         Some {| act_title := d_title data;
                 act_current := seconds (d_current data);
                 act_duration := seconds (d_duration data);
                 act_playing := d_playing data;
                 act_lastUpdate := clock (env w) (S (ticks (ctr w))) |}
      /\ is_some (ticker (rpc (exec (Rpc.set_activity data) w))) = timed
      /\ timers (exec (Rpc.set_activity data) w) =
         if timed
         then ticker_timer (next_timer (ctr w))
                :: cancelled (ticker (rpc w)) (timers w)
         else cancelled (ticker (rpc w)) (timers w)
  end.
Proof.
  intros Hv Hc Hr timed.
  apply (wp_inv (fun r w' =>
    match lib (env w) (libs (ctr w)) with
    | Some _ => r = Ok false /\ rpc w' = rpc w /\ timers w' = timers w
    | None =>
        r = Ok true
        /\ activity (rpc w') =
           Some {| act_title := d_title data;
                   act_current := seconds (d_current data);
                   act_duration := seconds (d_duration data);
                   act_playing := d_playing data;
                   act_lastUpdate := clock (env w) (S (ticks (ctr w))) |}
        /\ is_some (ticker (rpc w')) = timed
        /\ timers w' =
           if timed
           then ticker_timer (next_timer (ctr w))
                  :: cancelled (ticker (rpc w)) (timers w)
           else cancelled (ticker (rpc w)) (timers w)
    end)).
  subst timed. unfold seconds.
  unfold Rpc.set_activity. rewrite Hv. cbn [negb].
  do 4 wp_step. rewrite Hc, Hr. unfold Rpc.stop_ticker.
  wp_run; cbn.
  all: match goal with
       | H : lib _ _ = _ |- _ => rewrite H
       end.
  all: rewrite ?Heqb; unfold cancelled; rewrite ?Heqo; cbn.
  all: repeat split; eauto.
  all: destruct (rpc w); reflexivity.
Qed.

(** X14. With a ready client the outcome of [set_activity] follows the
    library's answer.  When [client.setActivity] is rejected the answer is
    false and the state of the client (the cached activity, the ticker) and
    the timers are as they were.  When it resolves the answer is true, the
    activity is kept with the whole seconds of its position and of its
    duration, 0 standing for one that is not finite, and stamped with the
    reading of the clock that follows the call; the ticker runs exactly
    when the activity sent bears timestamps: when it is playing and the
    whole seconds of its duration are above 0. *)
Theorem set_activity_outcome (data : ActData) (w : World) (c : nat) :
  Rpc.validate_data data = true ->
  client (rpc w) = Some c ->
  ready (rpc w) = true ->
  let w' := exec (Rpc.set_activity data) w in
  let whole x := if Number_isFinite x then Math_floor x else 0%float in
  let timed := ((0 <? whole (d_duration data))%float && d_playing data)%bool in
  match lib (env w) (libs (ctr w)) with
  | Some _ =>
      result (Rpc.set_activity data) w = Ok false
      /\ rpc w' = rpc w /\ timers w' = timers w
  | None =>
      result (Rpc.set_activity data) w = Ok true
      /\ activity (rpc w') =
         Some {| act_title := d_title data;
                 act_current := whole (d_current data);
                 act_duration := whole (d_duration data);
                 act_playing := d_playing data;
                 act_lastUpdate := clock (env w) (S (ticks (ctr w))) |}
      /\ is_some (ticker (rpc w')) = timed
      /\ is_some (startTimestamp (rendered (next_now w) data)) = timed
      /\ timers w' =
         if timed
         then ticker_timer (next_timer (ctr w))
                :: cancelled (ticker (rpc w)) (timers w)
         else cancelled (ticker (rpc w)) (timers w)
  end.
Proof.
  intros Hv Hc Hr. cbv zeta.
  pose proof (@set_activity_result data w c Hv Hc Hr) as H. cbv zeta in H.
  fold (seconds (d_current data)). fold (seconds (d_duration data)).
  destruct (lib (env w) (libs (ctr w))); [exact H |].
  destruct H as (H1 & H2 & H3 & H4).
  repeat split; try assumption.
  apply (proj1 (rendered_timestamps (next_now w) data)).
Qed.

Lemma set_activity_outcome_witness :
  (result (Rpc.set_activity stranger_things) (ready_world env_up) = Ok true
   /\ is_some (ticker (rpc (exec (Rpc.set_activity stranger_things)
                              (ready_world env_up)))) = true)
  /\ (Rpc.validate_data endless = true
      /\ result (Rpc.set_activity endless) (ready_world env_up) = Ok true
      /\ activity (rpc (exec (Rpc.set_activity endless) (ready_world env_up)))
         = Some {| act_title := "Inception"; act_current := 29;
                   act_duration := 0; act_playing := true;
                   act_lastUpdate := 1700000001000 |}
      /\ ticker (rpc (exec (Rpc.set_activity endless) (ready_world env_up)))
         = None).
Proof.
  pose proof (@set_activity_outcome stranger_things (ready_world env_up) 0%nat
                eq_refl eq_refl eq_refl) as H.
  pose proof (@set_activity_outcome endless (ready_world env_up) 0%nat
                eq_refl eq_refl eq_refl) as H'.
  cbv zeta in H, H'.
  change (lib (env (ready_world env_up)) (libs (ctr (ready_world env_up))))
    with (@None string) in H, H'.
  destruct H as (H1 & _ & H3 & _). destruct H' as (H1' & H2' & H3' & _).
  split; [split; [exact H1 |]; rewrite H3; reflexivity |].
  split; [reflexivity |]. split; [exact H1' |].
  split; [rewrite H2'; vm_compute; reflexivity |].
  set (tk := ticker (rpc (exec (Rpc.set_activity endless) (ready_world env_up))))
    in *.
  destruct tk; [discriminate H3' | reflexivity].
Defined.

(** [Math.min] never exceeds its first argument. *)
Lemma min_cap_l (a b : float) : (a <? Math_min a b)%float = false.
Proof.
  unfold Math_min.
  destruct (is_nan a || is_nan b)%bool; [apply ltb_nan |].
  destruct (a <? b)%float eqn:E1; [apply ltb_irrefl |].
  destruct (b <? a)%float eqn:E2; [now apply ltb_asym |].
  destruct (is_neg_zero b); [exact E1 | apply ltb_irrefl].
Qed.

(** X15. The ticker does nothing without a ready client or without an
    activity.  Otherwise it reads the clock, moves the position of a
    playing activity forward by the seconds elapsed since the activity was
    last updated (none if it was never stamped), never beyond the
    duration, and stamps the activity with that reading; a paused activity
    stays as it is.  It then reads the clock again and sends the activity with a
    start timestamp of that reading in whole seconds less the whole
    seconds of the position, and an end timestamp one duration, in whole
    seconds, later.  It never throws, whatever the library answers, and
    never touches the timers. *)
Theorem tick_advances (w : World) :
  let w' := exec Rpc.tick w in
  result Rpc.tick w = Ok tt /\ timers w' = timers w /\
  match client (rpc w), ready (rpc w), activity (rpc w) with
  | Some c, true, Some a =>
      let now := clock (env w) (ticks (ctr w)) in
      let last := if act_lastUpdate a =? 0 then now else act_lastUpdate a in
      let position :=
        if act_playing a
        then Math_min (act_duration a)
               (act_current a + of_Z (now - last) / 1000)%float
        else act_current a in
      let start :=
        (Math_floor (of_Z (clock (env w) (S (ticks (ctr w)))) / 1000)
         - Math_floor position)%float in
      calls w' =
        SetActivity c
          (Rpc.with_timestamps start (start + Math_floor (act_duration a))%float
             (Rpc.format_activity (act_title a))) :: calls w
      /\ activity (rpc w') =
         (if act_playing a
          then Some {| act_title := act_title a; act_current := position;
                       act_duration := act_duration a; act_playing := true;
                       act_lastUpdate := now |}
          else Some a)
      /\ (act_playing a = true -> (act_duration a <? position)%float = false)
      /\ client (rpc w') = client (rpc w) /\ ready (rpc w') = true
      /\ ticker (rpc w') = ticker (rpc w)
  | _, _, _ => w' = w
  end.
Proof.
  cbv zeta.
  apply (wp_inv (fun r w' =>
    r = Ok tt /\ timers w' = timers w /\
    match client (rpc w), ready (rpc w), activity (rpc w) with
    | Some c, true, Some a =>
        calls w' =
          SetActivity c
            (Rpc.with_timestamps _ _ (Rpc.format_activity (act_title a)))
            :: calls w
        /\ activity (rpc w') =
           (if act_playing a
            then Some {| act_title := act_title a; act_current := _;
                         act_duration := act_duration a; act_playing := true;
                         act_lastUpdate := _ |}
            else Some a)
        /\ (act_playing a = true -> _ = false)
        /\ client (rpc w') = client (rpc w) /\ ready (rpc w') = true
        /\ ticker (rpc w') = ticker (rpc w)
    | _, _, _ => w' = w
    end)).
  unfold Rpc.tick. do 6 wp_step.
  destruct (client (rpc w)) as [c |] eqn:Hc; [| wp_run; auto].
  destruct (ready (rpc w)) eqn:Hr; [| wp_run; auto].
  destruct (activity (rpc w)) as [a |] eqn:Ha; [| wp_run; auto].
  destruct (act_playing a) eqn:Hp.
  - wp_run; cbn; rewrite ?Hc, ?Hr, ?Ha; repeat split; intros _; apply min_cap_l.
  - wp_run; cbn; rewrite ?Hc, ?Hr, ?Ha; repeat split; discriminate.
Qed.

Lemma destroy_nothing_left w :
  rpc w = Rpc.init ->
  Rpc.destroy w = (Ok tt, w).
Proof.
  intros H. destruct w as [e c s ca r ts cs ls]. cbn in H. subst r.
  reflexivity.
Qed.

(** X16. [destroy] over a client tears everything down: the client is told
    to destroy itself, the ticker is cleared, and the state of the
    connection is the initial one, attempt counter and cached activity
    included.  A second [destroy] changes nothing. *)
Theorem destroy_resets (w : World) (c : nat) :
  client (rpc w) = Some c ->
  let w' := exec Rpc.destroy w in
  rpc w' = Rpc.init
  /\ calls w' = Destroy c :: calls w
  /\ timers w' = cancelled (ticker (rpc w)) (timers w)
  /\ svc w' = svc w
  /\ Rpc.destroy w' = (Ok tt, w').
Proof.
  intros Hc. cbv zeta.
  assert (H : rpc (exec Rpc.destroy w) = Rpc.init
              /\ calls (exec Rpc.destroy w) = Destroy c :: calls w
              /\ timers (exec Rpc.destroy w)
                 = cancelled (ticker (rpc w)) (timers w)
              /\ svc (exec Rpc.destroy w) = svc w).
  { apply (wp_inv (fun _ w' =>
             rpc w' = Rpc.init /\ calls w' = Destroy c :: calls w
             /\ timers w' = cancelled (ticker (rpc w)) (timers w)
             /\ svc w' = svc w)).
    unfold Rpc.destroy, Rpc.disconnect, Rpc.stop_ticker, cancelled.
    wp_run with (rewrite ?Hc; cbn).
    all: cbn; rewrite ?Heqo; repeat split.
    all: destruct (rpc w); cbn in *; subst; reflexivity. }
  destruct H as (H1 & H2 & H3 & H4).
  repeat (split; [assumption |]).
  apply destroy_nothing_left. exact H1.
Qed.

Lemma destroy_resets_witness :
  rpc (exec Rpc.destroy showing) = Rpc.init
  /\ timers (exec Rpc.destroy showing) = [watchdog_timer 0].
Proof.
  destruct (@destroy_resets showing 0%nat eq_refl) as (H1 & _ & H3 & _).
  split; [exact H1 |]. rewrite H3. reflexivity.
Defined.

(** X17. The outcome of [clear_activity].  Without a ready client it answers
    false and does nothing.  With one it asks the client to clear its
    activity; when the call is rejected it answers false and keeps the cached
    activity and the ticker, when it resolves it answers true, forgets the
    activity and clears the ticker. *)
Theorem clear_activity_outcome (w : World) :
  let w' := exec Rpc.clear_activity w in
  match client (rpc w), ready (rpc w) with
  | Some c, true =>
      calls w' = ClearActivity c :: calls w
      /\ match lib (env w) (libs (ctr w)) with
         | Some _ =>
             result Rpc.clear_activity w = Ok false
             /\ rpc w' = rpc w /\ timers w' = timers w
         | None =>
             result Rpc.clear_activity w = Ok true
             /\ activity (rpc w') = None /\ r_timestamp (rpc w') = None
             /\ ticker (rpc w') = None
             /\ timers w' = cancelled (ticker (rpc w)) (timers w)
         end
  | _, _ => Rpc.clear_activity w = (Ok false, w)
  end.
Proof.
  cbv zeta.
  destruct (client (rpc w)) as [c |] eqn:Hc;
    [| unfold Rpc.clear_activity, bind, get; rewrite Hc; reflexivity].
  destruct (ready (rpc w)) eqn:Hr;
    [| unfold Rpc.clear_activity, bind, get; rewrite Hc, Hr; reflexivity].
  apply (wp_inv (fun r w' =>
    calls w' = ClearActivity c :: calls w
    /\ match lib (env w) (libs (ctr w)) with
       | Some _ => r = Ok false /\ rpc w' = rpc w /\ timers w' = timers w
       | None =>
           r = Ok true
           /\ activity (rpc w') = None /\ r_timestamp (rpc w') = None
           /\ ticker (rpc w') = None
           /\ timers w' = cancelled (ticker (rpc w)) (timers w)
       end)).
  unfold Rpc.clear_activity, Rpc.stop_ticker, cancelled.
  do 4 wp_step. rewrite Hc, Hr.
  wp_run; cbn.
  all: match goal with
       | H : lib _ _ = _ |- _ => rewrite H
       end.
  all: rewrite ?Heqo; repeat split.
  all: destruct (rpc w); reflexivity.
Qed.

(** X18. With a ready client and a cached activity the library accepts,
    [pause] sends the activity without timestamps and leaves no ticker
    running; [resume] sends it with timestamps counted from the cached
    position and starts the ticker (if the whole seconds of the cached
    duration are above 0).  Without a cached activity both answer false and
    do nothing. *)
Theorem rpc_pause_resume (w : World) (c : nat) (a : Act) :
  client (rpc w) = Some c ->
  ready (rpc w) = true ->
  lib (env w) (libs (ctr w)) = None ->
  activity (rpc w) = Some a ->
  Rpc.validate_data (replayed a true) = true ->
  result Rpc.pause w = Ok true
  /\ calls (exec Rpc.pause w)
     = SetActivity c (Rpc.format_activity (act_title a)) :: calls w
  /\ ticker (rpc (exec Rpc.pause w)) = None
  /\ timers (exec Rpc.pause w) = cancelled (ticker (rpc w)) (timers w)
  /\ result Rpc.resume w = Ok true
  /\ calls (exec Rpc.resume w)
     = SetActivity c (rendered (next_now w) (replayed a true)) :: calls w
  /\ is_some (ticker (rpc (exec Rpc.resume w)))
     = (0 <? seconds (act_duration a))%float.
Proof.
  intros Hc Hr Hl Ha Hv.
  assert (Hv' : Rpc.validate_data (replayed a false) = true) by exact Hv.
  assert (Ep : Rpc.pause w = Rpc.set_activity (replayed a false) w)
    by (unfold Rpc.pause, bind, get; rewrite Ha; reflexivity).
  assert (Er : Rpc.resume w = Rpc.set_activity (replayed a true) w)
    by (unfold Rpc.resume, bind, get; rewrite Ha; reflexivity).
  unfold exec, result. rewrite Ep, Er.
  fold (exec (Rpc.set_activity (replayed a false)) w).
  fold (result (Rpc.set_activity (replayed a false)) w).
  fold (exec (Rpc.set_activity (replayed a true)) w).
  fold (result (Rpc.set_activity (replayed a true)) w).
  pose proof (@set_activity_sends (replayed a false) w c Hv' Hc Hr) as Sp.
  pose proof (@set_activity_sends (replayed a true) w c Hv Hc Hr) as Sr.
  pose proof (@set_activity_result (replayed a false) w c Hv' Hc Hr) as Op.
  pose proof (@set_activity_result (replayed a true) w c Hv Hc Hr) as Or.
  cbv zeta in Op, Or. rewrite Hl in Op, Or.
  destruct Op as (Op1 & _ & Op2 & Op3). destruct Or as (Or1 & _ & Or2 & _).
  cbn [replayed d_duration d_playing] in Op2, Op3, Or2.
  rewrite andb_false_r in Op2, Op3. rewrite andb_true_r in Or2.
  split; [exact Op1 |]. split.
  { rewrite Sp. unfold rendered. cbn [replayed d_duration d_playing d_title].
    rewrite andb_false_r. reflexivity. }
  split; [destruct (ticker (rpc (exec (Rpc.set_activity (replayed a false)) w)));
          [discriminate Op2 | reflexivity] |].
  split; [exact Op3 |]. split; [exact Or1 |]. split; [exact Sr | exact Or2].
Qed.

Lemma rpc_pause_resume_witness :
  result Rpc.pause showing = Ok true
  /\ ticker (rpc (exec Rpc.pause showing)) = None
  /\ timers (exec Rpc.pause showing) = [watchdog_timer 0].
Proof.
  destruct (@rpc_pause_resume showing 0%nat
              {| act_title := "Inception"; act_current := 500;
                 act_duration := 7200; act_playing := true;
                 act_lastUpdate := 1700000006000 |}
              eq_refl eq_refl eq_refl)
    as (H1 & _ & H3 & H4 & _).
  - vm_compute. reflexivity.
  - reflexivity.
  - split; [exact H1 |]. split; [exact H3 |]. rewrite H4. reflexivity.
Defined.

(** ** From the sample to the presence *)

Lemma normalize_valid_data d w n w1 :
  Netflix.validate d = true ->
  Netflix.normalize d w = (Ok n, w1) ->
  Rpc.validate_data (Netflix.act_data n) = true.
Proof.
  intros Hv Hn.
  destruct (@normalize_positive d w n w1 Hv Hn) as (Ht & Hc & Hd).
  unfold Rpc.validate_data, Netflix.act_data. cbn.
  destruct (String.eqb_spec (title n) ""); [contradiction |].
  rewrite Hc, Hd. reflexivity.
Qed.

Lemma update_connected data w :
  Rpc.validate_data data = true ->
  connected (rpc w) = true -> ready (rpc w) = true ->
  Rpc.update data w = Rpc.set_activity data w.
Proof.
  intros Hv Hc Hr. unfold Rpc.update, Rpc.is_connected, bind, get.
  rewrite Hv. cbn. rewrite Hc, Hr. reflexivity.
Qed.

(** X19. An accepted sample processed while the client is connected and
    ready passes the client's own validation and reaches Discord
    once, rendered from the normalized sample at the reading of the clock
    that follows the one recorded as the time of the update: the
    timestamps are sent exactly when it is playing and the whole seconds of
    its duration, 0 if it is not finite, are above 0, the start being that
    reading in whole seconds less the whole seconds of the position, and
    the end one duration later.  The sample becomes the cache's datum.
    When the library accepts the call the client keeps the sample as its
    activity, stamped with the next reading, and the ticker runs exactly
    when the timestamps were sent; when it rejects the call the state of
    the client is as it was. *)
Theorem process_sends (d : jsval) (w : World) (n : Sample) (w1 w2 : World)
    (c : nat) :
  Netflix.validate d = true ->
  Netflix.normalize d w = (Ok n, w1) ->
  Netflix.should_update n w1 = (Ok true, w2) ->
  client (rpc w) = Some c ->
  connected (rpc w) = true ->
  ready (rpc w) = true ->
  let w' := exec (Netflix.process d) w in
  let k := ticks (ctr (exec (Netflix.update_session n) w2)) in
  let whole x := if Number_isFinite x then Math_floor x else 0%float in
  let timed := ((0 <? whole (duration n))%float && playing n)%bool in
  let start :=
    (Math_floor (of_Z (clock (env w) (S k)) / 1000) - whole (current n))%float in
  lastUpdate (svc w') = clock (env w) k
  /\ calls w' =
     SetActivity c
       (if timed
        then Rpc.with_timestamps start (start + whole (duration n))%float
               (Rpc.format_activity (title n))
        else Rpc.format_activity (title n)) :: calls w
  /\ c_data (cache w') = Some n
  /\ match lib (env w) (libs (ctr w)) with
     | Some _ => rpc w' = rpc w
     | None =>
         activity (rpc w') =
         Some {| act_title := title n;
                 act_current := whole (current n);
                 act_duration := whole (duration n);
                 act_playing := playing n;
                 act_lastUpdate := clock (env w) (S (S k)) |}
         /\ is_some (ticker (rpc w')) = timed
     end.
Proof.
  intros Hv Hn Hs Hc Hcn Hrd. cbv zeta.
  pose proof (@normalize_valid_data d w n w1 Hv Hn) as Hvd.
  fold (seconds (current n)). fold (seconds (duration n)).
  split.
  { rewrite (@process_records d w n w1 w2 Hv Hn Hs). unfold next_now.
    pose proof (normalize_frame d w) as F1. unfold wp in F1. rewrite Hn in F1.
    pose proof (should_update_frame n w1) as F2. unfold wp in F2.
    rewrite Hs in F2.
    pose proof (update_session_frame n w2) as F3. unfold wp in F3.
    cbn in F1, F2.
    destruct F1 as (_ & (E1 & _) & _). destruct F2 as (_ & (E2 & _) & _).
    destruct F3 as ((E3 & _) & _).
    fold (exec (Netflix.update_session n) w2) in E3.
    now rewrite E3, E2, E1. }
  apply (wp_inv (fun _ w' =>
    calls w' = _ :: calls w
    /\ c_data (cache w') = Some n
    /\ match lib (env w) (libs (ctr w)) with
       | Some _ => rpc w' = rpc w
       | None => activity (rpc w') = Some _
                 /\ is_some (ticker (rpc w')) = _
       end)).
  unfold Netflix.process. rewrite Hv. cbn [negb].
  pose proof (normalize_frame d w) as F1. unfold wp in F1. rewrite Hn in F1.
  pose proof (should_update_frame n w1) as F2. unfold wp in F2. rewrite Hs in F2.
  cbn in F1, F2.
  destruct F1 as (_ & _ & (E1 & R1 & K1 & L1 & _) & _).
  destruct F2 as (_ & _ & (E2 & R2 & K2 & L2 & _) & _).
  wp_step. wp_at Hn. wp_step. wp_at Hs.
  do 2 wp_step. fold (miss (cache w2)).
  wp_step. eapply wp_eq; [apply update_session_cache |].
  set (wu := exec (Netflix.update_session n) w2).
  pose proof (update_session_frame n w2) as F. unfold wp in F.
  fold (result (Netflix.update_session n) w2) in F.
  fold (exec (Netflix.update_session n) w2) in F. fold wu in F.
  destruct F as ((E3 & R3 & K3 & L3 & _) & _ & _ & s & -> & _).
  unfold Netflix.reset_timeout.
  wp_run.
  all: match goal with
  | |- wp (Rpc.update _) _ ?w0 =>
      assert (Hrpc : rpc w0 = rpc w)
        by (cbn; rewrite R3, R2, R1; reflexivity);
      assert (Hcalls : calls w0 = calls w)
        by (cbn; rewrite K3, K2, K1; reflexivity);
      assert (Henv : env w0 = env w)
        by (cbn; rewrite E3, E2, E1; reflexivity);
      assert (Hlibs : libs (ctr w0) = libs (ctr w))
        by (cbn; rewrite L3, L2, L1; reflexivity);
      assert (Hticks : ticks (ctr w0) = S (ticks (ctr wu))) by reflexivity;
      set (w0' := w0) in *
  end.
  all: assert (Hc' : client (rpc w0') = Some c) by (rewrite Hrpc; exact Hc).
  all: assert (Hcn' : connected (rpc w0') = true) by (rewrite Hrpc; exact Hcn).
  all: assert (Hrd' : ready (rpc w0') = true) by (rewrite Hrpc; exact Hrd).
  all: eapply wp_eq;
    [rewrite (@update_connected _ w0' Hvd Hcn' Hrd'); apply surjective_pairing |].
  all: pose proof (@set_activity_sends _ w0' c Hvd Hc' Hrd') as Sent.
  all: pose proof (@set_activity_result _ w0' c Hvd Hc' Hrd') as Out.
  all: pose proof (set_activity_returns (Netflix.act_data n) w0') as [b Hb].
  all: unfold exec, result in Sent, Out, Hb; rewrite Hb.
  all: cbv zeta in Out; rewrite Henv, Hlibs, Hrpc, Hticks in Out.
  all: unfold rendered, next_now, now_sec in Sent.
  all: rewrite Henv, Hticks in Sent.
  all: cbn [Netflix.act_data d_title d_current d_duration d_playing] in Sent, Out.
  all: rewrite Hcalls in Sent.
  all: wp_run; cbn.
  all: split; [exact Sent |]; (split; [reflexivity |]).
  all: destruct (lib (env w) (libs (ctr w))).
  all: try exact (proj1 (proj2 Out)).
  all: destruct Out as (_ & Hact & Htk & _); split; assumption.
Qed.

Lemma process_sends_witness :
  let w := ready_world env_up in
  let w' := exec (Netflix.process inception_raw) w in
  lastUpdate (svc w') = 1700000004000
  /\ hd_error (calls w') =
     Some (SetActivity 0
             {| details := "Inception"; a_state := None;
                largeImageKey := "netflix_logo"; largeImageText := "Netflix";
                a_type := 3; instance := false;
                startTimestamp := Some 1699999505%float;
                endTimestamp := Some 1700006705%float |})
  /\ c_data (cache w') = Some inception_sample
  /\ is_some (ticker (rpc w')) = true.
Proof.
  cbv zeta.
  set (w1 := exec (Netflix.normalize inception_raw) (ready_world env_up)).
  assert (Hv : Netflix.validate inception_raw = true) by reflexivity.
  assert (Hn : Netflix.normalize inception_raw (ready_world env_up)
               = (Ok inception_sample, w1))
    by (refine (@run_eq _ _ _ _ _); vm_compute; reflexivity).
  assert (Hs : Netflix.should_update inception_sample w1 = (Ok true, w1))
    by reflexivity.
  pose proof (@process_sends inception_raw (ready_world env_up)
                inception_sample w1 w1 0%nat Hv Hn Hs eq_refl eq_refl eq_refl)
    as H.
  cbv zeta in H. destruct H as (Hl & Hcalls & Hc & Ho).
  change (lib (env (ready_world env_up)) (libs (ctr (ready_world env_up))))
    with (@None string) in Ho.
  destruct Ho as (_ & Ht).
  split; [rewrite Hl; vm_compute; reflexivity |].
  split; [rewrite Hcalls; vm_compute; reflexivity |].
  split; [exact Hc | exact Ht].
Defined.

(** * The titles *)

Lemma match_here_cons it rest s :
  match_here (it :: rest) s = rep_loop it (match_here rest) s [] 0%nat.
Proof. reflexivity. Qed.

Lemma orelse_some {A} (a b : option A) (x : A) :
  orelse a b = Some x -> a = Some x \/ b = Some x.
Proof. destruct a; cbn; auto. Qed.

Lemma rep_loop_sound it k s :
  forall taken n caps,
    rep_loop it k s taken n = Some caps ->
    exists s1 s2 caps',
      s = (s1 ++ s2)%list
      /\ forallb (cls_match (i_cls it)) s1 = true
      /\ (i_min it <= n + List.length s1)%nat
      /\ k s2 = Some caps'
      /\ caps = if i_capture it then (rev taken ++ s1)%list :: caps' else caps'.
Proof.
  induction s as [| c s IH]; intros taken n caps.
  - assert (Hstop :
      (if Nat.leb (i_min it) n
       then match k [] with
            | Some caps0 =>
                Some (if i_capture it then rev taken :: caps0 else caps0)
            | None => None
            end
       else None) = Some caps ->
      exists s1 s2 caps',
        [] = (s1 ++ s2)%list
        /\ forallb (cls_match (i_cls it)) s1 = true
        /\ (i_min it <= n + List.length s1)%nat
        /\ k s2 = Some caps'
        /\ caps = if i_capture it then (rev taken ++ s1)%list :: caps'
                  else caps').
    { destruct (Nat.leb_spec (i_min it) n) as [Hle |]; [| discriminate].
      destruct (k []) as [caps0 |] eqn:Hk; [| discriminate].
      intros [= <-]. exists [], [], caps0. 
      repeat split; auto; try (cbn; lia); now rewrite app_nil_r. }
    cbn. destruct (i_greedy it); intros H;
      try apply orelse_some in H as [H | H]; (discriminate H || exact (Hstop H)).
  - assert (Hstop :
      (if Nat.leb (i_min it) n
       then match k (c :: s) with
            | Some caps0 =>
                Some (if i_capture it then rev taken :: caps0 else caps0)
            | None => None
            end
       else None) = Some caps ->
      exists s1 s2 caps',
        c :: s = (s1 ++ s2)%list
        /\ forallb (cls_match (i_cls it)) s1 = true
        /\ (i_min it <= n + List.length s1)%nat
        /\ k s2 = Some caps'
        /\ caps = if i_capture it then (rev taken ++ s1)%list :: caps'
                  else caps').
    { destruct (Nat.leb_spec (i_min it) n) as [Hle |]; [| discriminate].
      destruct (k (c :: s)) as [caps0 |] eqn:Hk; [| discriminate].
      intros [= <-]. exists [], (c :: s), caps0. 
      repeat split; auto; try (cbn; lia); now rewrite app_nil_r. }
    assert (Hmore :
      (if (cls_match (i_cls it) c && below (i_max it) n)%bool
       then rep_loop it k s (c :: taken) (S n)
       else None) = Some caps ->
      exists s1 s2 caps',
        c :: s = (s1 ++ s2)%list
        /\ forallb (cls_match (i_cls it)) s1 = true
        /\ (i_min it <= n + List.length s1)%nat
        /\ k s2 = Some caps'
        /\ caps = if i_capture it then (rev taken ++ s1)%list :: caps'
                  else caps').
    { destruct (cls_match (i_cls it) c) eqn:Hc; [| discriminate].
      destruct (below (i_max it) n); [| discriminate]. cbn [andb].
      intros H. apply IH in H as (s1 & s2 & caps' & -> & Hall & Hmin & Hk & ->).
      exists (c :: s1), s2, caps'. cbn [forallb List.length rev].
      rewrite Hc, Hall, <- app_assoc. cbn [app].
      repeat split; auto. lia. }
    change (rep_loop it k (c :: s) taken n) with
      (let stop :=
         if Nat.leb (i_min it) n
         then match k (c :: s) with
              | Some caps0 =>
                  Some (if i_capture it then rev taken :: caps0 else caps0)
              | None => None
              end
         else None in
       let more :=
         if (cls_match (i_cls it) c && below (i_max it) n)%bool
         then rep_loop it k s (c :: taken) (S n)
         else None in
       if i_greedy it then orelse more stop else orelse stop more).
    cbv zeta.
    destruct (i_greedy it); intros H;
      apply orelse_some in H as [H | H]; auto.
Qed.

Lemma match_here_sound its :
  forall s caps, match_here its s = Some caps -> matches its s caps.
Proof.
  induction its as [| it rest IH]; intros s caps.
  - cbn. now intros [= <-].
  - rewrite match_here_cons. intros H.
    apply rep_loop_sound in H as (s1 & s2 & caps' & -> & Hall & Hmin & Hk & ->).
    cbn [matches]. exists s1, s2, caps'. repeat split; auto.
Qed.

Lemma search_sound its s :
  forall caps, search its s = Some caps ->
               exists pre suf, s = (pre ++ suf)%list /\ matches its suf caps.
Proof.
  induction s as [| c s IH]; intros caps; cbn [search].
  - destruct (match_here its []) eqn:E; [| discriminate].
    intros [= <-]. exists [], []. split; [reflexivity |].
    now apply match_here_sound.
  - destruct (match_here its (c :: s)) eqn:E.
    + intros [= <-]. exists [], (c :: s). split; [reflexivity |].
      now apply match_here_sound.
    + intros H. apply IH in H as (pre & suf & -> & Hm).
      exists (c :: pre), suf. split; [reflexivity | exact Hm].
Qed.

Lemma run_exists (f : ascii -> bool) (l : list ascii) :
  forallb f l = true -> (1 <= List.length l)%nat -> existsb f l = true.
Proof.
  destruct l as [| c l]; cbn; [lia |].
  intros H _. apply andb_true_iff in H as [-> _]. reflexivity.
Qed.

Lemma str_nonempty (l : list ascii) : (1 <= List.length l)%nat -> str l <> "".
Proof. destruct l; cbn; [lia | discriminate]. Qed.

Lemma digits_str (l : list ascii) :
  forallb (cls_match Digit) l = true -> digits (str l) = true.
Proof.
  unfold digits, str. now rewrite list_ascii_of_string_of_list_ascii.
Qed.

Ltac split_matches H :=
  cbn in H;
  repeat match goal with
         | H0 : exists _, _ |- _ => destruct H0
         | H0 : _ /\ _ |- _ => destruct H0
         end;
  subst.

Ltac colon_found :=
  unfold has_colon;
  match goal with
  | H : list_ascii_of_string _ = _ |- _ => rewrite H
  end;
  rewrite !existsb_app;
  match goal with
  | H : forallb (cls_match (Chr ":")) ?l = true |- _ =>
      rewrite (@run_exists (Ascii.eqb ":") l H) by assumption
  end;
  rewrite ?orb_true_r; reflexivity.

Lemma parse_title_facts (t : string) (p : Parsed) :
  parse_title t = Some p ->
  has_colon t = true
  /\ p_episode p <> "" /\ digits (p_episode p) = true
  /\ match p_format p with
     | FDisk => p_season p = None /\ p_name p <> None
     | FSeason =>
         exists s, p_season p = Some s /\ s <> "" /\ digits s = true
     end.
Proof.
  unfold parse_title.
  destruct (search re_episode (list_ascii_of_string t)) as [caps |] eqn:E1.
  { apply search_sound in E1 as (pre & suf & Ht & Hm).
    unfold re_episode in Hm. split_matches Hm.
    intros [= <-]. cbn.
    split; [colon_found |].
    split; [now apply str_nonempty |].
    split; [now apply digits_str |].
    split; [reflexivity | discriminate]. }
  destruct (search re_season (list_ascii_of_string t)) as [caps |] eqn:E2.
  { apply search_sound in E2 as (pre & suf & Ht & Hm).
    unfold re_season in Hm. split_matches Hm.
    intros [= <-]. cbn.
    split; [colon_found |].
    split; [now apply str_nonempty |].
    split; [now apply digits_str |].
    eexists. split; [reflexivity |].
    split; [now apply str_nonempty | now apply digits_str]. }
  destruct (search re_season_only (list_ascii_of_string t)) as [caps |] eqn:E3;
    [| discriminate].
  apply search_sound in E3 as (pre & suf & Ht & Hm).
  unfold re_season_only in Hm. split_matches Hm.
  intros [= <-]. cbn.
  split; [colon_found |].
  split; [now apply str_nonempty |].
  split; [now apply digits_str |].
  eexists. split; [reflexivity |].
  split; [now apply str_nonempty | now apply digits_str].
Qed.

(** X20. What [parse_title] recognizes.  A parsed title contains a colon;
    its episode, and its season in the season format, are non-empty
    strings of digits; the disk format has no season and always a name. *)
Theorem parse_title_sound (t : string) (p : Parsed) :
  parse_title t = Some p ->
  has_colon t = true
  /\ p_episode p <> "" /\ digits (p_episode p) = true
  /\ match p_format p with
     | FDisk => p_season p = None /\ p_name p <> None
     | FSeason =>
         exists s, p_season p = Some s /\ s <> "" /\ digits s = true
     end.
Proof. exact (@parse_title_facts t p). Qed.

Lemma parse_title_sound_witness :
  has_colon "Stranger Things: S04E09 - The Piggyback" = true
  /\ exists p, parse_title "Stranger Things: S04E09 - The Piggyback" = Some p
               /\ digits (p_episode p) = true.
Proof.
  split; [reflexivity |].
  eexists. split; [vm_compute; reflexivity |].
  refine (proj1 (proj2 (proj2 (@parse_title_sound
            "Stranger Things: S04E09 - The Piggyback" _ _)))).
  vm_compute. reflexivity.
Defined.

(** X21. A title without a colon is shown as it is: [format_activity] puts
    the whole title in the details and sends no state. *)
Theorem plain_title_unparsed (t : string) :
  has_colon t = false ->
  parse_title t = None
  /\ Rpc.format_activity t =
     {| details := t; a_state := None;
        largeImageKey := "netflix_logo"; largeImageText := "Netflix";
        a_type := 3; instance := false;
        startTimestamp := None; endTimestamp := None |}.
Proof.
  intros Hc.
  assert (Hn : parse_title t = None).
  { destruct (parse_title t) as [p |] eqn:Hp; [| reflexivity].
    apply parse_title_facts in Hp as [Hp _]. congruence. }
  split; [exact Hn |]. unfold Rpc.format_activity. now rewrite Hn.
Qed.

Lemma plain_title_unparsed_witness :
  parse_title "Inception" = None
  /\ details (Rpc.format_activity "Inception") = "Inception".
Proof.
  destruct (@plain_title_unparsed "Inception" eq_refl) as [H1 H2].
  split; [exact H1 |]. rewrite H2. reflexivity.
Defined.
(** * The HTTP server *)

Lemma served {A} (m : M A) (f : A -> Response * SrvState) what s w :
  returned (result m w) ->
  exists a,
    result m w = Ok a
    /\ try_catch (a <- m ;; ret (f a)) (Server.failed what s) w
       = (Ok (f a), exec m w).
Proof.
  intros [a Ha]. exists a. split; [exact Ha |].
  unfold try_catch, bind, ret, result, exec in *.
  destruct (m w) as [r w']. cbn in Ha. subst r. reflexivity.
Qed.

Lemma pause_returns w : returned (result Netflix.pause w).
Proof.
  pose proof (pause_spec w) as H. unfold wp in H. unfold result.
  destruct (st_current (svc w)); destruct H as [-> _]; eexists; reflexivity.
Qed.

Lemma resume_returns w : returned (result Netflix.resume w).
Proof.
  pose proof (resume_spec w) as H. unfold wp in H. unfold result.
  destruct (st_current (svc w)); destruct H as [-> _]; eexists; reflexivity.
Qed.

Lemma stop_returns w : returned (result Netflix.stop w).
Proof.
  destruct (stop_spec w) as [H _]. unfold result. rewrite H.
  eexists; reflexivity.
Qed.

Lemma reset_returns w : returned (result Netflix.reset w).
Proof.
  destruct (reset_spec w) as [H _]. unfold result. rewrite H.
  eexists; reflexivity.
Qed.

(** X22. The handler of [POST /update], on the [req.body] the body parsers
    hand it.  A body that is missing (falsy) is answered 400 "Missing data"
    and does not reach the service.  Any other body is handed to [process] and
    answered 200: with [success: false] and nothing else when the result
    is an error, whose text is dropped, as it is for a sample that fails
    validation; with [success: true, cached: true] when the sample was
    suppressed; with [success: true], the normalized sample and the session
    when it was accepted.  The counters of the server stay as they are. *)
Theorem handle_update_response (body : jsval) (s : SrvState) (w : World) :
  if truthy body then
    exists res,
      result (Netflix.process body) w = Ok res
      /\ Server.handle_update body s w
         = (Ok ({| rs_code := 200;
                   rs_body :=
                     match res with
                     | RError _ => BUpdate false None None false
                     | RCached => BUpdate true None None true
                     | RUpdated n session => BUpdate true (Some n) session false
                     end |}, s),
            exec (Netflix.process body) w)
      /\ (Netflix.validate body = false -> res = RError "invalid")
  else
    Server.handle_update body s w
    = (Ok ({| rs_code := 400; rs_body := BFail "Missing data" |}, s), w).
Proof.
  unfold Server.handle_update.
  destruct (truthy body); cbn [negb]; [| reflexivity].
  destruct (@served _ (Netflix.process body)
              (fun r => (Server.json (Server.update_body r), s))
              "Update error" s w (process_returns body w)) as (res & Hr & Hs).
  exists res. split; [exact Hr |]. split.
  - rewrite Hs. destruct res; reflexivity.
  - intros Hv. unfold result in Hr. rewrite (process_invalid _ w Hv) in Hr.
    injection Hr as <-. reflexivity.
Qed.

(** X23. No request makes the application fail, and the service is asked
    what the request stands for and nothing else.  A request whose method
    is [OPTIONS] is answered 200 by the CORS middleware: it is not counted
    and reaches neither the body parsers nor a route.  A request the body
    parsers refuse goes to the error handler: it is answered 500 with the
    parser's message, logged, counted as an error and not as a request.
    Any other request is counted, then answered 200, but for a missing
    body of [POST /update] (400) and an unknown route (404), and leaves
    the error counter as it is: the 500 answers of the route handlers
    cannot occur.  [POST /reset] restarts both counters from zero. *)
Theorem serve_never_fails (rq : Request) (s : SrvState) (w : World) :
  exists resp s',
    Server.serve rq s w = (Ok (resp, s'), request_effect rq w)
    /\ if rq_options rq then
         resp = {| rs_code := 200; rs_body := BText "OK" |} /\ s' = s
       else
         match rq_parse rq with
         | ParseError msg =>
             resp = {| rs_code := 500; rs_body := BFail msg |}
             /\ sv_errors s' = sv_errors s + 1
             /\ sv_requests s' = sv_requests s
         | ParseOk body =>
             rs_code resp = match rq_route rq with
                            | NoRoute => 404
                            | PostUpdate => if truthy body then 200 else 400
                            | _ => 200
                            end
             /\ sv_errors s' = match rq_route rq with
                               | PostReset => 0
                               | _ => sv_errors s
                               end
             /\ sv_requests s' = match rq_route rq with
                                 | PostReset => 0
                                 | _ => sv_requests s + 1
                                 end
         end.
Proof.
  unfold Server.serve, request_effect.
  destruct (rq_options rq); [eexists _, _; repeat split |].
  destruct (rq_parse rq) as [body | msg]; [| eexists _, _; repeat split].
  unfold Server.route, service_effect.
  destruct (rq_route rq).
  - pose proof (handle_update_response body (Server.count_request s) w) as H.
    destruct (truthy body).
    + destruct H as (res & _ & -> & _). eexists _, _. repeat split.
    + rewrite H. eexists _, _. repeat split.
  - destruct (@served _ Netflix.pause
                (fun a => (Server.json (BAck a), Server.count_request s))
                "Pause error" (Server.count_request s) w (pause_returns w))
      as (a & _ & Hs).
    unfold Server.handle_pause. rewrite Hs. eexists _, _. repeat split.
  - destruct (@served _ Netflix.resume
                (fun a => (Server.json (BAck a), Server.count_request s))
                "Resume error" (Server.count_request s) w (resume_returns w))
      as (a & _ & Hs).
    unfold Server.handle_resume. rewrite Hs. eexists _, _. repeat split.
  - destruct (@served _ Netflix.stop
                (fun a => (Server.json (BAck a), Server.count_request s))
                "Stop error" (Server.count_request s) w (stop_returns w))
      as (a & _ & Hs).
    unfold Server.handle_stop. rewrite Hs. eexists _, _. repeat split.
  - destruct (@served _ Netflix.reset
                (fun _ => (Server.json BDone,
                           Server.reset_counters (Server.count_request s)))
                "Reset error" (Server.count_request s) w (reset_returns w))
      as (a & _ & Hs).
    unfold Server.handle_reset. rewrite Hs. eexists _, _. repeat split.
  - eexists _, _. repeat split.
  - eexists _, _. repeat split.
  - eexists _, _. repeat split.
  - eexists _, _. repeat split.
Qed.

(** * The logger *)

Lemma flush_buffer_writer w :
  lg_pending w = [] -> lg_buffer (lg_state w) <> [] ->
  single_writer (Logger.flush_buffer w).
Proof.
  intros Hp Hb. unfold Logger.flush_buffer.
  destruct (lg_buffer (lg_state w)) as [| l b] eqn:E; [congruence |].
  unfold single_writer. cbn -[firstn skipn]. rewrite E, Hp. cbn [app].
  eexists. split; [reflexivity |].
  rewrite length_firstn. cbn [List.length]. lia.
Qed.

Lemma log_step_single_writer e w :
  no_flush e = true -> single_writer w -> single_writer (log_step e w).
Proof.
  intros Hf H. destruct e; cbn [log_step]; try discriminate Hf; try exact H.
  - unfold Logger.log. destruct (Logger.should_log level w); cbn [negb];
      [| exact H].
    unfold Logger.write_file, Logger.write_console.
    set (lw := if negb (lg_console _) then _ else _).
    assert (Hw : single_writer lw
                 /\ lg_writing (lg_state lw) = lg_writing (lg_state w))
      by (subst lw; cbn; destruct (lg_console (lg_state w)); cbn;
          split; (exact H || reflexivity)).
    destruct Hw as [Hw Hwr]. clearbody lw.
    destruct (lg_file (lg_state lw)); cbn [negb]; [| exact Hw].
    cbn. unfold single_writer in Hw.
    destruct (lg_writing (lg_state lw)) eqn:Ew; cbn [negb].
    + unfold single_writer. cbn. rewrite Ew. exact Hw.
    + destruct Hw as [Hp Hb]. apply flush_buffer_writer; cbn.
      * exact Hp.
      * rewrite Hb. discriminate.
  - unfold Logger.set_level. destruct (Logger.level_of_name name); exact H.
  - unfold Logger.append_done. unfold single_writer in H.
    destruct (lg_writing (lg_state w)) eqn:Ew.
    + destruct H as (chunk & Hp & Hlen). rewrite Hp.
      destruct k as [| k]; cbn [nth_error];
        [| destruct k; cbn; unfold single_writer; rewrite Ew; eauto].
      cbn [firstn skipn app].
      set (w1 := Logger.check_rotation _).
      assert (H1 : lg_pending w1 = []
                   /\ lg_state w1 = lg_state w).
      { subst w1. unfold Logger.check_rotation.
        destruct ok; cbn;
          repeat match goal with
                 | |- context [match ?x with _ => _ end] => destruct x; cbn
                 end; auto. }
      destruct H1 as [Hp1 Hs1]. clearbody w1.
      destruct (lg_buffer (lg_state w1)) eqn:Eb.
      * unfold single_writer. cbn. auto.
      * apply flush_buffer_writer; [exact Hp1 | rewrite Eb; discriminate].
    + destruct H as [Hp Hb]. rewrite Hp. destruct k; cbn;
        unfold single_writer; rewrite Ew; auto.
Qed.

Lemma log_run_single_writer es w :
  forallb no_flush es = true -> single_writer w ->
  single_writer (log_run es w).
Proof.
  revert w. induction es as [| e es IH]; intros w Hf H; [exact H |].
  cbn in Hf. apply andb_true_iff in Hf as [He Hes].
  cbn. apply IH; [exact Hes |]. now apply log_step_single_writer.
Qed.

(** X24. As long as [flush()] is not called the logger writes one chunk at
    a time: whatever is logged and however the appends end, while
    [state.writing] is set exactly one [appendFile] is pending, of 1 to 100
    lines, and when it is not set none is pending and the buffer is empty:
    no line waits in the buffer without a write under way. *)
Theorem logger_single_writer (fmt : nat -> LogLevel -> string -> string)
    (es : list LogEvent) :
  forallb no_flush es = true ->
  single_writer (log_run es (Logger.init fmt)).
Proof.
  intros Hf. apply log_run_single_writer; [exact Hf |].
  split; reflexivity.
Qed.

Lemma logger_single_writer_witness :
  single_writer
    (log_run [LLog LvInfo "Session created"; LLog LvWarn "Session timeout";
              LAppendDone 0 true]
       (Logger.init (fun _ _ m => m))).
Proof.
  apply (@logger_single_writer (fun _ _ m => m)). reflexivity.
Defined.

Lemma rotate_logs_spec (fs : nat -> option (list string)) :
  Logger.rotate_logs fs 0%nat = None
  /\ Logger.rotate_logs fs 1%nat = fs 0%nat
  /\ Logger.rotate_logs fs 2%nat = fs 1%nat
  /\ Logger.rotate_logs fs 3%nat = fs 2%nat
  /\ Logger.rotate_logs fs 4%nat = fs 3%nat
  /\ forall j, (5 <= j)%nat -> Logger.rotate_logs fs j = fs j.
Proof.
  unfold Logger.rotate_logs, Logger.maxFiles.
  cbn [Nat.sub Logger.shift].
  destruct (fs 4%nat) eqn:E4; cbn;
    destruct (fs 3%nat) eqn:E3; cbn; rewrite ?E3; cbn;
    destruct (fs 2%nat) eqn:E2; cbn; rewrite ?E2; cbn;
    destruct (fs 1%nat) eqn:E1; cbn; rewrite ?E1, ?E2, ?E3; cbn.
  all: repeat split; try reflexivity; try congruence.
  all: intros j Hj; do 5 (destruct j as [| j]; [lia |]); reflexivity.
Qed.

(** X25. What a rotation does to the files: the log becomes the first
    archive and is gone, every archive moves up by one, the fourth (the
    oldest) is lost; no fifth archive is ever made.  This holds whichever of
    the archives exist. *)
Theorem rotate_logs_shifts (fs : nat -> option (list string))
    (content : list string) :
  fs 0%nat = Some content ->
  let fs' := Logger.rotate_logs fs in
  fs' 0%nat = None /\ fs' 1%nat = Some content
  /\ (forall i, (1 <= i <= 3)%nat -> fs' (S i) = fs i)
  /\ (forall j, (5 <= j)%nat -> fs' j = fs j).
Proof.
  intros H0. cbv zeta.
  destruct (rotate_logs_spec fs) as (R0 & R1 & R2 & R3 & R4 & R5).
  split; [exact R0 |]. split; [now rewrite R1 |]. split; [| exact R5].
  intros i Hi.
  destruct i as [| [| [| [| i]]]]; try lia; assumption.
Qed.

Lemma rotate_logs_shifts_witness :
  let fs := fun i => match i with
                     | 0%nat => Some ["c"]
                     | 2%nat => Some ["a"]
                     | 4%nat => Some ["z"]
                     | _ => None
                     end in
  Logger.rotate_logs fs 1%nat = Some ["c"]
  /\ Logger.rotate_logs fs 3%nat = Some ["a"]
  /\ Logger.rotate_logs fs 4%nat = None.
Proof.
  cbv zeta.
  destruct (@rotate_logs_shifts
              (fun i => match i with
                        | 0%nat => Some ["c"]
                        | 2%nat => Some ["a"]
                        | 4%nat => Some ["z"]
                        | _ => None
                        end) ["c"] eq_refl) as (_ & H1 & H2 & _).
  split; [exact H1 |].
  split; [exact (H2 2%nat ltac:(lia)) | exact (H2 3%nat ltac:(lia))].
Defined.

Lemma flush_buffer_stored w : stored (Logger.flush_buffer w) = stored w.
Proof.
  unfold Logger.flush_buffer.
  destruct (lg_buffer (lg_state w)) as [| l b] eqn:E.
  - unfold stored, file_lines. cbn. now rewrite E.
  - unfold stored, file_lines. cbn -[firstn skipn]. rewrite E.
    rewrite concat_app. cbn [List.concat]. rewrite app_nil_r.
    rewrite <- !app_assoc. now rewrite firstn_skipn.
Qed.

Lemma log_stored level message w :
  exists lines,
    (List.length lines <= 1)%nat
    /\ stored (Logger.log level message w) = (stored w ++ lines)%list.
Proof.
  unfold Logger.log.
  destruct (Logger.should_log level w); cbn [negb];
    [| exists []; rewrite app_nil_r; auto].
  unfold Logger.write_file, Logger.write_console.
  set (lw := if negb (lg_console _) then _ else _).
  assert (Hw : stored lw = stored w)
    by (subst lw; cbn; destruct (lg_console (lg_state w)); reflexivity).
  clearbody lw. rewrite <- Hw.
  destruct (lg_file (lg_state lw)); cbn [negb];
    [| exists []; rewrite app_nil_r; auto].
  eexists [_]. split; [cbn; lia |].
  cbn [Logger.format_message].
  match goal with
  | |- stored (if ?b then Logger.flush_buffer ?w1 else ?w1) = _ =>
      assert (E : stored (if b then Logger.flush_buffer w1 else w1)
                  = stored w1)
        by (destruct b; [apply flush_buffer_stored | reflexivity]);
      rewrite E
  end.
  unfold stored, file_lines. cbn. rewrite <- !app_assoc. reflexivity.
Qed.

Lemma append_stored k w :
  single_writer w ->
  exists n, stored (Logger.append_done k true w) = skipn n (stored w).
Proof.
  intros H. unfold Logger.append_done, single_writer in *.
  destruct (lg_writing (lg_state w)).
  2: { destruct H as [-> _]. exists 0%nat. destruct k; reflexivity. }
  destruct H as (chunk & Hp & _). rewrite Hp.
  destruct k as [| k]; cbn [nth_error];
    [| exists 0%nat; destruct k; reflexivity].
  cbn [firstn skipn app].
  match goal with
  | |- context [Logger.check_rotation ?w0] =>
      set (w1 := w0);
      assert (H1 : exists n, stored (Logger.check_rotation w1)
                             = skipn n (stored w))
  end.
  { unfold Logger.check_rotation.
    assert (E0 : stored w1 = stored w).
    { subst w1. unfold stored, file_lines. cbn. rewrite Hp. cbn.
      rewrite app_nil_r. destruct (lg_files w 0%nat); cbn;
        rewrite <- ?app_assoc; reflexivity. }
    destruct (lg_files w1 0%nat) eqn:F0; [| exists 0%nat; exact E0].
    destruct (Logger.maxSize <=? Logger.file_size l);
      [| exists 0%nat; exact E0].
    exists (List.length (file_lines w1 4)).
    rewrite <- E0.
    destruct (rotate_logs_spec (lg_files w1)) as (R0 & R1 & R2 & R3 & R4 & _).
    unfold stored at 1. unfold file_lines at 1 2 3 4 5.
    cbn [lg_files lg_pending lg_state Logger.set_files].
    rewrite R0, R1, R2, R3, R4. cbn [app].
    unfold stored. fold (file_lines w1 3) (file_lines w1 2) (file_lines w1 1)
      (file_lines w1 0).
    now rewrite skipn_app, skipn_all, Nat.sub_diag. }
  destruct H1 as [n Hn]. exists n. rewrite <- Hn.
  destruct (lg_buffer (lg_state (Logger.check_rotation w1)));
    [reflexivity | apply flush_buffer_stored].
Qed.

(** X26. The logger keeps the lines in the order they were logged, and none
    twice.  Take the lines it holds, oldest first: archives, log, the
    append under way, buffer.  Logging adds at most one line, at the end.
    As long as [flush()] is not called, a successful append only moves
    lines towards the disk: the lines held are the same, but for the oldest
    archive, which a rotation drops from the front. *)
Theorem logger_keeps_order (fmt : nat -> LogLevel -> string -> string)
    (es : list LogEvent) :
  forallb no_flush es = true ->
  let w := log_run es (Logger.init fmt) in
  (forall level message,
      exists lines,
        (List.length lines <= 1)%nat
        /\ stored (Logger.log level message w) = (stored w ++ lines)%list)
  /\ (forall k,
        exists n, stored (Logger.append_done k true w) = skipn n (stored w)).
Proof.
  intros Hf w. split.
  - intros level message. apply log_stored.
  - intros k. apply append_stored.
    apply log_run_single_writer; [exact Hf | split; reflexivity].
Qed.

Lemma logger_keeps_order_witness :
  let w := log_run [LLog LvInfo "Session created"; LLog LvWarn "Session timeout"]
             (Logger.init (fun _ _ m => m)) in
  exists n, stored (Logger.append_done 0 true w) = skipn n (stored w).
Proof.
  exact (proj2 (@logger_keeps_order (fun _ _ m => m)
                  [LLog LvInfo "Session created"; LLog LvWarn "Session timeout"]
                  eq_refl) 0%nat).
Defined.

Lemma log_printed level message w :
  lg_console (lg_state w) = true ->
  let w' := Logger.log level message w in
  lg_console (lg_state w') = true
  /\ (sr_total (Logger.get_stats w') - Z.of_nat (List.length (lg_out w'))
      = sr_total (Logger.get_stats w) - Z.of_nat (List.length (lg_out w))).
Proof.
  intros Hc. cbv zeta. unfold Logger.log.
  destruct (Logger.should_log level w); cbn [negb]; [| auto].
  unfold Logger.write_file, Logger.write_console.
  cbn [Logger.upd Logger.set_state lg_state Logger.set_stats lg_console].
  rewrite Hc. cbn [negb Logger.format_message].
  set (w1 := Logger.set_out _ _).
  assert (H1 : lg_console (lg_state w1) = true
               /\ sr_total (Logger.get_stats w1)
                  = sr_total (Logger.get_stats w) + 1
               /\ List.length (lg_out w1) = S (List.length (lg_out w))).
  { subst w1. cbn. split; [exact Hc |]. split; [| reflexivity].
    destruct level; cbn; lia. }
  destruct H1 as (Hc1 & Ht1 & Ho1). clearbody w1.
  assert (H2 : forall w2, lg_console (lg_state (Logger.flush_buffer w2))
                          = lg_console (lg_state w2)
                          /\ lg_stats (lg_state (Logger.flush_buffer w2))
                             = lg_stats (lg_state w2)
                          /\ lg_out (Logger.flush_buffer w2) = lg_out w2).
  { intros w2. unfold Logger.flush_buffer.
    destruct (lg_buffer (lg_state w2)); cbn -[firstn skipn]; auto. }
  destruct (lg_file (lg_state w1)); cbn [negb].
  - match goal with
    | |- context [if ?b then Logger.flush_buffer ?w2 else ?w2] =>
        destruct (H2 w2) as (F1 & F2 & F3); destruct b
    end; unfold Logger.get_stats in *; cbn [sr_total] in *;
      rewrite ?F1, ?F2, ?F3; cbn; (split; [exact Hc1 |]); lia.
  - split; [exact Hc1 |]. lia.
Qed.

Lemma append_printed k w :
  let w' := Logger.append_done k true w in
  lg_console (lg_state w') = lg_console (lg_state w)
  /\ lg_stats (lg_state w') = lg_stats (lg_state w)
  /\ lg_out w' = lg_out w.
Proof.
  cbv zeta. unfold Logger.append_done.
  destruct (nth_error (lg_pending w) k); [| auto].
  set (w1 := Logger.check_rotation _).
  assert (H1 : lg_state w1 = lg_state w /\ lg_out w1 = lg_out w).
  { subst w1. unfold Logger.check_rotation. cbn.
    repeat match goal with
           | |- context [match ?x with _ => _ end] => destruct x; cbn
           end; auto. }
  destruct H1 as [Hs Ho]. clearbody w1.
  unfold Logger.flush_buffer.
  destruct (lg_buffer (lg_state w1)); cbn -[firstn skipn];
    rewrite ?Hs, ?Ho; auto.
Qed.

Lemma log_step_printed e w :
  in_step e = true ->
  lg_console (lg_state w) = true ->
  lg_console (lg_state (log_step e w)) = true
  /\ (sr_total (Logger.get_stats (log_step e w))
      - Z.of_nat (List.length (lg_out (log_step e w)))
      = sr_total (Logger.get_stats w) - Z.of_nat (List.length (lg_out w))).
Proof.
  intros He Hc. destruct e; cbn [log_step]; try discriminate He.
  - now apply log_printed.
  - unfold Logger.set_level. destruct (Logger.level_of_name name); auto.
  - auto.
  - destruct b; [auto | discriminate He].
  - auto.
  - auto.
  - destruct ok; [| discriminate He].
    destruct (append_printed k w) as (H1 & H2 & H3).
    unfold Logger.get_stats. cbn [sr_total].
    rewrite H1, H2, H3. auto.
Qed.

(** X27. What is counted is what is printed.  As long as the console
    output is not switched off, the counters are not cleared and no append
    fails, [stats().total] is the number of lines on the console: a message
    below the level, or logged while the logger is disabled, is neither
    counted nor printed; every other message is counted once and printed
    once. *)
Theorem logger_counts_printed (fmt : nat -> LogLevel -> string -> string)
    (es : list LogEvent) :
  forallb in_step es = true ->
  let w := log_run es (Logger.init fmt) in
  sr_total (Logger.get_stats w) = Z.of_nat (List.length (lg_out w)).
Proof.
  intros Hs. cbv zeta.
  assert (H : forall w0,
             lg_console (lg_state w0) = true ->
             lg_console (lg_state (log_run es w0)) = true
             /\ (sr_total (Logger.get_stats (log_run es w0))
                 - Z.of_nat (List.length (lg_out (log_run es w0)))
                 = sr_total (Logger.get_stats w0)
                   - Z.of_nat (List.length (lg_out w0)))).
  { induction es as [| e es IH]; intros w0 Hc; [auto |].
    cbn in Hs. apply andb_true_iff in Hs as [He Hes].
    destruct (@log_step_printed e w0 He Hc) as [Hc1 Hd1].
    destruct (IH Hes (log_step e w0) Hc1) as [Hc2 Hd2].
    cbn [log_run fold_left]. fold (log_run es (log_step e w0)).
    split; [exact Hc2 | lia]. }
  destruct (H (Logger.init fmt) eq_refl) as [_ Hd].
  change (sr_total (Logger.get_stats (Logger.init fmt))
          - Z.of_nat (List.length (lg_out (Logger.init fmt)))) with 0 in Hd.
  lia.
Qed.

Lemma logger_counts_printed_witness :
  sr_total (Logger.get_stats
              (log_run [LLog LvDebug "dropped"; LLog LvInfo "Session created";
                        LEnable false; LLog LvFatal "unseen"]
                 (Logger.init (fun _ _ m => m)))) = 1.
Proof.
  rewrite (@logger_counts_printed (fun _ _ m => m)
             [LLog LvDebug "dropped"; LLog LvInfo "Session created";
              LEnable false; LLog LvFatal "unseen"] eq_refl).
  reflexivity.
Defined.

(** X28. The level filter.  [level(name)] throws on a name that is not one
    of the five levels and changes nothing; otherwise it sets the least
    level.  A message is logged exactly when the logger is enabled and its
    level is at least the least one: so whenever a message of some level is
    logged, one of a higher level is too, and a fatal message is logged
    whenever the logger is enabled.  A message that is not logged changes
    nothing at all. *)
Theorem logger_filter (w : LogWorld) (name : string) :
  match Logger.level_of_name name with
  | None => Logger.set_level name w = None
  | Some l =>
      exists w',
        Logger.set_level name w = Some w'
        /\ lg_enabled (lg_state w') = lg_enabled (lg_state w)
        /\ forall m message,
             if (lg_enabled (lg_state w)
                 && (Logger.levels l <=? Logger.levels m))%bool
             then Logger.should_log m w' = true
                  /\ (forall m', Logger.levels m <= Logger.levels m' ->
                                 Logger.should_log m' w' = true)
                  /\ Logger.should_log LvFatal w' = true
             else Logger.log m message w' = w'
  end.
Proof.
  unfold Logger.set_level.
  destruct (Logger.level_of_name name) as [l |]; [| reflexivity].
  eexists. split; [reflexivity |]. split; [reflexivity |].
  intros m message. unfold Logger.log, Logger.should_log. cbn.
  destruct (lg_enabled (lg_state w)); cbn; [| reflexivity].
  destruct (Z.leb_spec (Logger.levels l) (Logger.levels m)) as [Hle | Hlt].
  - split; [reflexivity |]. split.
    + intros m' Hm. apply Z.leb_le. lia.
    + apply Z.leb_le. destruct l; cbn; lia.
  - reflexivity.
Qed.
